(** * Catalog reconciliation and bulk upsert: the products router

    A shallow embedding of three routes of the products router
    ([POST /bulk], [POST /mapping/amazon-analyzer/missing] and
    [POST /mapping/amazon-analyzer/sync]) together with the relational
    statements they send to the store, and the properties of the
    catalog pipeline proved or refuted on it.

    Conventions of the model.
    - A request field is a [jsfield]: absent ([Undefined]), JSON [null]
      ([Null]) or a value of the type the interface gives it.
    - A nullable column is an [option]; [None] is SQL NULL.
    - Text is [string], the bytes of its UTF-8 encoding, which is what a
      string literal denotes; case folding and trimming work on its
      code points.
    - A [numeric] column value is an integer [Z] (the value in the least
      unit of the column); scale and rounding are not represented.
    - A DATE column value is a [date]; how the store reads a text as a
      date is a parameter ([date_in]).
    - [NOW()] is a reading [tnow] of the server clock handed to the
      route.
    - A table is the list of its rows in storage order; a JavaScript
      [Map] is the list of its entries in insertion order.
    - What the store does beyond the statements themselves is a
      parameter of the routes: the statements it refuses
      ([store_rejects], [sku_rejects]) and, for an [UPDATE ... FROM]
      with several matching rows, the one it uses ([pick]). *)

From Stdlib Require Import List String Ascii Bool Arith NArith ZArith Lia
  DecimalString Permutation.
Import ListNotations.
Local Open Scope string_scope.
Local Open Scope list_scope.
Local Open Scope nat_scope.

(* ================================================================== *)
(** * Definitions *)
(* ================================================================== *)

(** ** Request values *)

Inductive jsfield (A : Type) : Type :=
| Undefined : jsfield A
| Null : jsfield A
| Val : A -> jsfield A.

Arguments Undefined {A}.
Arguments Null {A}.
Arguments Val {A} _.

(** [x ?? null]: only [undefined] and [null] are replaced. *)
Definition nullish {A : Type} (x : jsfield A) : option A :=
  match x with
  | Val a => Some a
  | _ => None
  end.

(** A query parameter: the driver sends [undefined] and [null] as NULL. *)
Definition to_sql {A : Type} (x : jsfield A) : option A :=
  match x with
  | Val a => Some a
  | _ => None
  end.

(** [x || d] on a text field with a text default: the empty string is
    falsy. *)
Definition or_str (x : jsfield string) (d : string) : string :=
  match x with
  | Val s => if (s =? "")%string then d else s
  | _ => d
  end.

(** [x || null] on a text field. *)
Definition or_null (x : jsfield string) : option string :=
  match x with
  | Val s => if (s =? "")%string then None else Some s
  | _ => None
  end.

(** [!x] on a text field. *)
Definition falsy (x : jsfield string) : bool :=
  match x with
  | Val s => (s =? "")%string
  | _ => true
  end.

(** [COALESCE(a, b)]. *)
Definition coalesce {A : Type} (a b : option A) : option A :=
  match a with
  | Some _ => a
  | None => b
  end.

(** ** Text and the Key Normalizer: [toLowerCase().trim()]

    [String.prototype.toLowerCase] and [String.prototype.trim] belong
    to the runtime, not to the router; they are written out here as
    ECMAScript defines them, on the code points of the text, with the
    case data of Unicode 14.0. *)

Definition code_point : Type := N.

(** A byte that belongs to no well-formed sequence is kept as it is;
    it is numbered above every code point. *)
Definition stray (b : N) : code_point := (0x110000 + b)%N.

Definition continuation (c : ascii) : bool :=
  ((0x80 <=? N_of_ascii c) && (N_of_ascii c <=? 0xBF))%N.

(** The low six bits of a continuation byte. *)
Definition payload (c : ascii) : N := (N_of_ascii c mod 64)%N.

(** The code points of a text.  A sequence is well formed when it is
    the shortest encoding of a code point that is not a surrogate. *)
Fixpoint utf8_decode (s : string) : list code_point :=
  match s with
  | EmptyString => []
  | String c0 r0 =>
      let b := N_of_ascii c0 in
      let alone (_ : unit) :=
        (if (b <? 0x80)%N then b else stray b) :: utf8_decode r0 in
      match r0 with
      | String c1 r1 =>
          if ((b <? 0xC2) || negb (continuation c1))%N then alone tt
          else if (b <? 0xE0)%N then
            ((b - 0xC0) * 64 + payload c1)%N :: utf8_decode r1
          else
            match r1 with
            | String c2 r2 =>
                if negb (continuation c2) then alone tt
                else if (b <? 0xF0)%N then
                  let p := ((b - 0xE0) * 4096 + payload c1 * 64 + payload c2)%N in
                  if ((0x800 <=? p) && negb ((0xD800 <=? p) && (p <=? 0xDFFF)))%N
                  then p :: utf8_decode r2
                  else alone tt
                else
                  match r2 with
                  | String c3 r3 =>
                      let p := ((b - 0xF0) * 262144 + payload c1 * 4096
                                + payload c2 * 64 + payload c3)%N in
                      if (continuation c3 && (0x10000 <=? p) && (p <=? 0x10FFFF))%N
                      then p :: utf8_decode r3
                      else alone tt
                  | EmptyString => alone tt
                  end
            | EmptyString => alone tt
            end
      | EmptyString => alone tt
      end
  end.

Definition utf8_bytes (p : code_point) : list N :=
  if (p <? 0x80)%N then [p]
  else if (p <? 0x800)%N then [0xC0 + p / 64; 0x80 + p mod 64]%N
  else if (p <? 0x10000)%N then
    [0xE0 + p / 4096; 0x80 + (p / 64) mod 64; 0x80 + p mod 64]%N
  else if (p <? 0x110000)%N then
    [0xF0 + p / 262144; 0x80 + (p / 4096) mod 64; 0x80 + (p / 64) mod 64;
     0x80 + p mod 64]%N
  else [p - 0x110000]%N.

Definition utf8_encode (l : list code_point) : string :=
  string_of_list_ascii (map ascii_of_N (flat_map utf8_bytes l)).

(** The simple lowercase mappings of UnicodeData.txt (Unicode 14.0):
    [(first, last, step, lower)] maps [first], [first + step], ... up to
    [last] to [lower], [lower + step], ...  A code point in no range is
    its own lowercase. *)
Definition lowercase_ranges : list (N * N * N * N) :=
  [(0x41, 0x5A, 1, 0x61); (0xC0, 0xD6, 1, 0xE0); (0xD8, 0xDE, 1, 0xF8); (0x100,
   0x12E, 2, 0x101); (0x132, 0x136, 2, 0x133); (0x139, 0x147, 2, 0x13A);
   (0x14A, 0x176, 2, 0x14B); (0x178, 0x178, 1, 0xFF); (0x179, 0x17D, 2, 0x17A);
   (0x181, 0x181, 1, 0x253); (0x182, 0x184, 2, 0x183); (0x186, 0x186, 1,
   0x254); (0x187, 0x187, 1, 0x188); (0x189, 0x18A, 1, 0x256); (0x18B, 0x18B,
   1, 0x18C); (0x18E, 0x18E, 1, 0x1DD); (0x18F, 0x18F, 1, 0x259); (0x190,
   0x190, 1, 0x25B); (0x191, 0x191, 1, 0x192); (0x193, 0x193, 1, 0x260);
   (0x194, 0x194, 1, 0x263); (0x196, 0x196, 1, 0x269); (0x197, 0x197, 1,
   0x268); (0x198, 0x198, 1, 0x199); (0x19C, 0x19C, 1, 0x26F); (0x19D, 0x19D,
   1, 0x272); (0x19F, 0x19F, 1, 0x275); (0x1A0, 0x1A4, 2, 0x1A1); (0x1A6,
   0x1A6, 1, 0x280); (0x1A7, 0x1A7, 1, 0x1A8); (0x1A9, 0x1A9, 1, 0x283);
   (0x1AC, 0x1AC, 1, 0x1AD); (0x1AE, 0x1AE, 1, 0x288); (0x1AF, 0x1AF, 1,
   0x1B0); (0x1B1, 0x1B2, 1, 0x28A); (0x1B3, 0x1B5, 2, 0x1B4); (0x1B7, 0x1B7,
   1, 0x292); (0x1B8, 0x1B8, 1, 0x1B9); (0x1BC, 0x1BC, 1, 0x1BD); (0x1C4,
   0x1C4, 1, 0x1C6); (0x1C5, 0x1C5, 1, 0x1C6); (0x1C7, 0x1C7, 1, 0x1C9);
   (0x1C8, 0x1C8, 1, 0x1C9); (0x1CA, 0x1CA, 1, 0x1CC); (0x1CB, 0x1DB, 2,
   0x1CC); (0x1DE, 0x1EE, 2, 0x1DF); (0x1F1, 0x1F1, 1, 0x1F3); (0x1F2, 0x1F4,
   2, 0x1F3); (0x1F6, 0x1F6, 1, 0x195); (0x1F7, 0x1F7, 1, 0x1BF); (0x1F8,
   0x21E, 2, 0x1F9); (0x220, 0x220, 1, 0x19E); (0x222, 0x232, 2, 0x223);
   (0x23A, 0x23A, 1, 0x2C65); (0x23B, 0x23B, 1, 0x23C); (0x23D, 0x23D, 1,
   0x19A); (0x23E, 0x23E, 1, 0x2C66); (0x241, 0x241, 1, 0x242); (0x243, 0x243,
   1, 0x180); (0x244, 0x244, 1, 0x289); (0x245, 0x245, 1, 0x28C); (0x246,
   0x24E, 2, 0x247); (0x370, 0x372, 2, 0x371); (0x376, 0x376, 1, 0x377);
   (0x37F, 0x37F, 1, 0x3F3); (0x386, 0x386, 1, 0x3AC); (0x388, 0x38A, 1,
   0x3AD); (0x38C, 0x38C, 1, 0x3CC); (0x38E, 0x38F, 1, 0x3CD); (0x391, 0x3A1,
   1, 0x3B1); (0x3A3, 0x3AB, 1, 0x3C3); (0x3CF, 0x3CF, 1, 0x3D7); (0x3D8,
   0x3EE, 2, 0x3D9); (0x3F4, 0x3F4, 1, 0x3B8); (0x3F7, 0x3F7, 1, 0x3F8);
   (0x3F9, 0x3F9, 1, 0x3F2); (0x3FA, 0x3FA, 1, 0x3FB); (0x3FD, 0x3FF, 1,
   0x37B); (0x400, 0x40F, 1, 0x450); (0x410, 0x42F, 1, 0x430); (0x460, 0x480,
   2, 0x461); (0x48A, 0x4BE, 2, 0x48B); (0x4C0, 0x4C0, 1, 0x4CF); (0x4C1,
   0x4CD, 2, 0x4C2); (0x4D0, 0x52E, 2, 0x4D1); (0x531, 0x556, 1, 0x561);
   (0x10A0, 0x10C5, 1, 0x2D00); (0x10C7, 0x10C7, 1, 0x2D27); (0x10CD, 0x10CD,
   1, 0x2D2D); (0x13A0, 0x13EF, 1, 0xAB70); (0x13F0, 0x13F5, 1, 0x13F8);
   (0x1C90, 0x1CBA, 1, 0x10D0); (0x1CBD, 0x1CBF, 1, 0x10FD); (0x1E00, 0x1E94,
   2, 0x1E01); (0x1E9E, 0x1E9E, 1, 0xDF); (0x1EA0, 0x1EFE, 2, 0x1EA1); (0x1F08,
   0x1F0F, 1, 0x1F00); (0x1F18, 0x1F1D, 1, 0x1F10); (0x1F28, 0x1F2F, 1,
   0x1F20); (0x1F38, 0x1F3F, 1, 0x1F30); (0x1F48, 0x1F4D, 1, 0x1F40); (0x1F59,
   0x1F5F, 2, 0x1F51); (0x1F68, 0x1F6F, 1, 0x1F60); (0x1F88, 0x1F8F, 1,
   0x1F80); (0x1F98, 0x1F9F, 1, 0x1F90); (0x1FA8, 0x1FAF, 1, 0x1FA0); (0x1FB8,
   0x1FB9, 1, 0x1FB0); (0x1FBA, 0x1FBB, 1, 0x1F70); (0x1FBC, 0x1FBC, 1,
   0x1FB3); (0x1FC8, 0x1FCB, 1, 0x1F72); (0x1FCC, 0x1FCC, 1, 0x1FC3); (0x1FD8,
   0x1FD9, 1, 0x1FD0); (0x1FDA, 0x1FDB, 1, 0x1F76); (0x1FE8, 0x1FE9, 1,
   0x1FE0); (0x1FEA, 0x1FEB, 1, 0x1F7A); (0x1FEC, 0x1FEC, 1, 0x1FE5); (0x1FF8,
   0x1FF9, 1, 0x1F78); (0x1FFA, 0x1FFB, 1, 0x1F7C); (0x1FFC, 0x1FFC, 1,
   0x1FF3); (0x2126, 0x2126, 1, 0x3C9); (0x212A, 0x212A, 1, 0x6B); (0x212B,
   0x212B, 1, 0xE5); (0x2132, 0x2132, 1, 0x214E); (0x2160, 0x216F, 1, 0x2170);
   (0x2183, 0x2183, 1, 0x2184); (0x24B6, 0x24CF, 1, 0x24D0); (0x2C00, 0x2C2F,
   1, 0x2C30); (0x2C60, 0x2C60, 1, 0x2C61); (0x2C62, 0x2C62, 1, 0x26B);
   (0x2C63, 0x2C63, 1, 0x1D7D); (0x2C64, 0x2C64, 1, 0x27D); (0x2C67, 0x2C6B, 2,
   0x2C68); (0x2C6D, 0x2C6D, 1, 0x251); (0x2C6E, 0x2C6E, 1, 0x271); (0x2C6F,
   0x2C6F, 1, 0x250); (0x2C70, 0x2C70, 1, 0x252); (0x2C72, 0x2C72, 1, 0x2C73);
   (0x2C75, 0x2C75, 1, 0x2C76); (0x2C7E, 0x2C7F, 1, 0x23F); (0x2C80, 0x2CE2, 2,
   0x2C81); (0x2CEB, 0x2CED, 2, 0x2CEC); (0x2CF2, 0x2CF2, 1, 0x2CF3); (0xA640,
   0xA66C, 2, 0xA641); (0xA680, 0xA69A, 2, 0xA681); (0xA722, 0xA72E, 2,
   0xA723); (0xA732, 0xA76E, 2, 0xA733); (0xA779, 0xA77B, 2, 0xA77A); (0xA77D,
   0xA77D, 1, 0x1D79); (0xA77E, 0xA786, 2, 0xA77F); (0xA78B, 0xA78B, 1,
   0xA78C); (0xA78D, 0xA78D, 1, 0x265); (0xA790, 0xA792, 2, 0xA791); (0xA796,
   0xA7A8, 2, 0xA797); (0xA7AA, 0xA7AA, 1, 0x266); (0xA7AB, 0xA7AB, 1, 0x25C);
   (0xA7AC, 0xA7AC, 1, 0x261); (0xA7AD, 0xA7AD, 1, 0x26C); (0xA7AE, 0xA7AE, 1,
   0x26A); (0xA7B0, 0xA7B0, 1, 0x29E); (0xA7B1, 0xA7B1, 1, 0x287); (0xA7B2,
   0xA7B2, 1, 0x29D); (0xA7B3, 0xA7B3, 1, 0xAB53); (0xA7B4, 0xA7C2, 2, 0xA7B5);
   (0xA7C4, 0xA7C4, 1, 0xA794); (0xA7C5, 0xA7C5, 1, 0x282); (0xA7C6, 0xA7C6, 1,
   0x1D8E); (0xA7C7, 0xA7C9, 2, 0xA7C8); (0xA7D0, 0xA7D0, 1, 0xA7D1); (0xA7D6,
   0xA7D8, 2, 0xA7D7); (0xA7F5, 0xA7F5, 1, 0xA7F6); (0xFF21, 0xFF3A, 1,
   0xFF41); (0x10400, 0x10427, 1, 0x10428); (0x104B0, 0x104D3, 1, 0x104D8);
   (0x10570, 0x1057A, 1, 0x10597); (0x1057C, 0x1058A, 1, 0x105A3); (0x1058C,
   0x10592, 1, 0x105B3); (0x10594, 0x10595, 1, 0x105BB); (0x10C80, 0x10CB2, 1,
   0x10CC0); (0x118A0, 0x118BF, 1, 0x118C0); (0x16E40, 0x16E5F, 1, 0x16E60);
   (0x1E900, 0x1E921, 1, 0x1E922)]%N.

(** The cased letters (Lowercase, Uppercase or Lt) that are not
    case-ignorable, as [(first, last)]. *)
Definition cased_ranges : list (N * N) :=
  [(0x41, 0x5A); (0x61, 0x7A); (0xAA, 0xAA); (0xB5, 0xB5); (0xBA, 0xBA); (0xC0,
   0xD6); (0xD8, 0xF6); (0xF8, 0x1BA); (0x1BC, 0x1BF); (0x1C4, 0x293); (0x295,
   0x2AF); (0x370, 0x373); (0x376, 0x377); (0x37B, 0x37D); (0x37F, 0x37F);
   (0x386, 0x386); (0x388, 0x38A); (0x38C, 0x38C); (0x38E, 0x3A1); (0x3A3,
   0x3F5); (0x3F7, 0x481); (0x48A, 0x52F); (0x531, 0x556); (0x560, 0x588);
   (0x10A0, 0x10C5); (0x10C7, 0x10C7); (0x10CD, 0x10CD); (0x10D0, 0x10FA);
   (0x10FD, 0x10FF); (0x13A0, 0x13F5); (0x13F8, 0x13FD); (0x1C80, 0x1C88);
   (0x1C90, 0x1CBA); (0x1CBD, 0x1CBF); (0x1D00, 0x1D2B); (0x1D6B, 0x1D77);
   (0x1D79, 0x1D9A); (0x1E00, 0x1F15); (0x1F18, 0x1F1D); (0x1F20, 0x1F45);
   (0x1F48, 0x1F4D); (0x1F50, 0x1F57); (0x1F59, 0x1F59); (0x1F5B, 0x1F5B);
   (0x1F5D, 0x1F5D); (0x1F5F, 0x1F7D); (0x1F80, 0x1FB4); (0x1FB6, 0x1FBC);
   (0x1FBE, 0x1FBE); (0x1FC2, 0x1FC4); (0x1FC6, 0x1FCC); (0x1FD0, 0x1FD3);
   (0x1FD6, 0x1FDB); (0x1FE0, 0x1FEC); (0x1FF2, 0x1FF4); (0x1FF6, 0x1FFC);
   (0x2102, 0x2102); (0x2107, 0x2107); (0x210A, 0x2113); (0x2115, 0x2115);
   (0x2119, 0x211D); (0x2124, 0x2124); (0x2126, 0x2126); (0x2128, 0x2128);
   (0x212A, 0x212D); (0x212F, 0x2134); (0x2139, 0x2139); (0x213C, 0x213F);
   (0x2145, 0x2149); (0x214E, 0x214E); (0x2160, 0x217F); (0x2183, 0x2184);
   (0x24B6, 0x24E9); (0x2C00, 0x2C7B); (0x2C7E, 0x2CE4); (0x2CEB, 0x2CEE);
   (0x2CF2, 0x2CF3); (0x2D00, 0x2D25); (0x2D27, 0x2D27); (0x2D2D, 0x2D2D);
   (0xA640, 0xA66D); (0xA680, 0xA69B); (0xA722, 0xA76F); (0xA771, 0xA787);
   (0xA78B, 0xA78E); (0xA790, 0xA7CA); (0xA7D0, 0xA7D1); (0xA7D3, 0xA7D3);
   (0xA7D5, 0xA7D9); (0xA7F5, 0xA7F6); (0xA7FA, 0xA7FA); (0xAB30, 0xAB5A);
   (0xAB60, 0xAB68); (0xAB70, 0xABBF); (0xFB00, 0xFB06); (0xFB13, 0xFB17);
   (0xFF21, 0xFF3A); (0xFF41, 0xFF5A); (0x10400, 0x1044F); (0x104B0, 0x104D3);
   (0x104D8, 0x104FB); (0x10570, 0x1057A); (0x1057C, 0x1058A); (0x1058C,
   0x10592); (0x10594, 0x10595); (0x10597, 0x105A1); (0x105A3, 0x105B1);
   (0x105B3, 0x105B9); (0x105BB, 0x105BC); (0x10C80, 0x10CB2); (0x10CC0,
   0x10CF2); (0x118A0, 0x118DF); (0x16E40, 0x16E7F); (0x1D400, 0x1D454);
   (0x1D456, 0x1D49C); (0x1D49E, 0x1D49F); (0x1D4A2, 0x1D4A2); (0x1D4A5,
   0x1D4A6); (0x1D4A9, 0x1D4AC); (0x1D4AE, 0x1D4B9); (0x1D4BB, 0x1D4BB);
   (0x1D4BD, 0x1D4C3); (0x1D4C5, 0x1D505); (0x1D507, 0x1D50A); (0x1D50D,
   0x1D514); (0x1D516, 0x1D51C); (0x1D51E, 0x1D539); (0x1D53B, 0x1D53E);
   (0x1D540, 0x1D544); (0x1D546, 0x1D546); (0x1D54A, 0x1D550); (0x1D552,
   0x1D6A5); (0x1D6A8, 0x1D6C0); (0x1D6C2, 0x1D6DA); (0x1D6DC, 0x1D6FA);
   (0x1D6FC, 0x1D714); (0x1D716, 0x1D734); (0x1D736, 0x1D74E); (0x1D750,
   0x1D76E); (0x1D770, 0x1D788); (0x1D78A, 0x1D7A8); (0x1D7AA, 0x1D7C2);
   (0x1D7C4, 0x1D7CB); (0x1DF00, 0x1DF09); (0x1DF0B, 0x1DF1E); (0x1E900,
   0x1E943); (0x1F130, 0x1F149); (0x1F150, 0x1F169); (0x1F170, 0x1F189)]%N.

(** The case-ignorable code points (Mn, Me, Cf, Lm, Sk and the
    mid-word punctuation of the word-break rules), as [(first, last)]. *)
Definition case_ignorable_ranges : list (N * N) :=
  [(0x27, 0x27); (0x2E, 0x2E); (0x3A, 0x3A); (0x5E, 0x5E); (0x60, 0x60); (0xA8,
   0xA8); (0xAD, 0xAD); (0xAF, 0xAF); (0xB4, 0xB4); (0xB7, 0xB8); (0x2B0,
   0x36F); (0x374, 0x375); (0x37A, 0x37A); (0x384, 0x385); (0x387, 0x387);
   (0x483, 0x489); (0x559, 0x559); (0x55F, 0x55F); (0x591, 0x5BD); (0x5BF,
   0x5BF); (0x5C1, 0x5C2); (0x5C4, 0x5C5); (0x5C7, 0x5C7); (0x5F4, 0x5F4);
   (0x600, 0x605); (0x610, 0x61A); (0x61C, 0x61C); (0x640, 0x640); (0x64B,
   0x65F); (0x670, 0x670); (0x6D6, 0x6DD); (0x6DF, 0x6E8); (0x6EA, 0x6ED);
   (0x70F, 0x70F); (0x711, 0x711); (0x730, 0x74A); (0x7A6, 0x7B0); (0x7EB,
   0x7F5); (0x7FA, 0x7FA); (0x7FD, 0x7FD); (0x816, 0x82D); (0x859, 0x85B);
   (0x888, 0x888); (0x890, 0x891); (0x898, 0x89F); (0x8C9, 0x902); (0x93A,
   0x93A); (0x93C, 0x93C); (0x941, 0x948); (0x94D, 0x94D); (0x951, 0x957);
   (0x962, 0x963); (0x971, 0x971); (0x981, 0x981); (0x9BC, 0x9BC); (0x9C1,
   0x9C4); (0x9CD, 0x9CD); (0x9E2, 0x9E3); (0x9FE, 0x9FE); (0xA01, 0xA02);
   (0xA3C, 0xA3C); (0xA41, 0xA42); (0xA47, 0xA48); (0xA4B, 0xA4D); (0xA51,
   0xA51); (0xA70, 0xA71); (0xA75, 0xA75); (0xA81, 0xA82); (0xABC, 0xABC);
   (0xAC1, 0xAC5); (0xAC7, 0xAC8); (0xACD, 0xACD); (0xAE2, 0xAE3); (0xAFA,
   0xAFF); (0xB01, 0xB01); (0xB3C, 0xB3C); (0xB3F, 0xB3F); (0xB41, 0xB44);
   (0xB4D, 0xB4D); (0xB55, 0xB56); (0xB62, 0xB63); (0xB82, 0xB82); (0xBC0,
   0xBC0); (0xBCD, 0xBCD); (0xC00, 0xC00); (0xC04, 0xC04); (0xC3C, 0xC3C);
   (0xC3E, 0xC40); (0xC46, 0xC48); (0xC4A, 0xC4D); (0xC55, 0xC56); (0xC62,
   0xC63); (0xC81, 0xC81); (0xCBC, 0xCBC); (0xCBF, 0xCBF); (0xCC6, 0xCC6);
   (0xCCC, 0xCCD); (0xCE2, 0xCE3); (0xD00, 0xD01); (0xD3B, 0xD3C); (0xD41,
   0xD44); (0xD4D, 0xD4D); (0xD62, 0xD63); (0xD81, 0xD81); (0xDCA, 0xDCA);
   (0xDD2, 0xDD4); (0xDD6, 0xDD6); (0xE31, 0xE31); (0xE34, 0xE3A); (0xE46,
   0xE4E); (0xEB1, 0xEB1); (0xEB4, 0xEBC); (0xEC6, 0xEC6); (0xEC8, 0xECD);
   (0xF18, 0xF19); (0xF35, 0xF35); (0xF37, 0xF37); (0xF39, 0xF39); (0xF71,
   0xF7E); (0xF80, 0xF84); (0xF86, 0xF87); (0xF8D, 0xF97); (0xF99, 0xFBC);
   (0xFC6, 0xFC6); (0x102D, 0x1030); (0x1032, 0x1037); (0x1039, 0x103A);
   (0x103D, 0x103E); (0x1058, 0x1059); (0x105E, 0x1060); (0x1071, 0x1074);
   (0x1082, 0x1082); (0x1085, 0x1086); (0x108D, 0x108D); (0x109D, 0x109D);
   (0x10FC, 0x10FC); (0x135D, 0x135F); (0x1712, 0x1714); (0x1732, 0x1733);
   (0x1752, 0x1753); (0x1772, 0x1773); (0x17B4, 0x17B5); (0x17B7, 0x17BD);
   (0x17C6, 0x17C6); (0x17C9, 0x17D3); (0x17D7, 0x17D7); (0x17DD, 0x17DD);
   (0x180B, 0x180F); (0x1843, 0x1843); (0x1885, 0x1886); (0x18A9, 0x18A9);
   (0x1920, 0x1922); (0x1927, 0x1928); (0x1932, 0x1932); (0x1939, 0x193B);
   (0x1A17, 0x1A18); (0x1A1B, 0x1A1B); (0x1A56, 0x1A56); (0x1A58, 0x1A5E);
   (0x1A60, 0x1A60); (0x1A62, 0x1A62); (0x1A65, 0x1A6C); (0x1A73, 0x1A7C);
   (0x1A7F, 0x1A7F); (0x1AA7, 0x1AA7); (0x1AB0, 0x1ACE); (0x1B00, 0x1B03);
   (0x1B34, 0x1B34); (0x1B36, 0x1B3A); (0x1B3C, 0x1B3C); (0x1B42, 0x1B42);
   (0x1B6B, 0x1B73); (0x1B80, 0x1B81); (0x1BA2, 0x1BA5); (0x1BA8, 0x1BA9);
   (0x1BAB, 0x1BAD); (0x1BE6, 0x1BE6); (0x1BE8, 0x1BE9); (0x1BED, 0x1BED);
   (0x1BEF, 0x1BF1); (0x1C2C, 0x1C33); (0x1C36, 0x1C37); (0x1C78, 0x1C7D);
   (0x1CD0, 0x1CD2); (0x1CD4, 0x1CE0); (0x1CE2, 0x1CE8); (0x1CED, 0x1CED);
   (0x1CF4, 0x1CF4); (0x1CF8, 0x1CF9); (0x1D2C, 0x1D6A); (0x1D78, 0x1D78);
   (0x1D9B, 0x1DFF); (0x1FBD, 0x1FBD); (0x1FBF, 0x1FC1); (0x1FCD, 0x1FCF);
   (0x1FDD, 0x1FDF); (0x1FED, 0x1FEF); (0x1FFD, 0x1FFE); (0x200B, 0x200F);
   (0x2018, 0x2019); (0x2024, 0x2024); (0x2027, 0x2027); (0x202A, 0x202E);
   (0x2060, 0x2064); (0x2066, 0x206F); (0x2071, 0x2071); (0x207F, 0x207F);
   (0x2090, 0x209C); (0x20D0, 0x20F0); (0x2C7C, 0x2C7D); (0x2CEF, 0x2CF1);
   (0x2D6F, 0x2D6F); (0x2D7F, 0x2D7F); (0x2DE0, 0x2DFF); (0x2E2F, 0x2E2F);
   (0x3005, 0x3005); (0x302A, 0x302D); (0x3031, 0x3035); (0x303B, 0x303B);
   (0x3099, 0x309E); (0x30FC, 0x30FE); (0xA015, 0xA015); (0xA4F8, 0xA4FD);
   (0xA60C, 0xA60C); (0xA66F, 0xA672); (0xA674, 0xA67D); (0xA67F, 0xA67F);
   (0xA69C, 0xA69F); (0xA6F0, 0xA6F1); (0xA700, 0xA721); (0xA770, 0xA770);
   (0xA788, 0xA78A); (0xA7F2, 0xA7F4); (0xA7F8, 0xA7F9); (0xA802, 0xA802);
   (0xA806, 0xA806); (0xA80B, 0xA80B); (0xA825, 0xA826); (0xA82C, 0xA82C);
   (0xA8C4, 0xA8C5); (0xA8E0, 0xA8F1); (0xA8FF, 0xA8FF); (0xA926, 0xA92D);
   (0xA947, 0xA951); (0xA980, 0xA982); (0xA9B3, 0xA9B3); (0xA9B6, 0xA9B9);
   (0xA9BC, 0xA9BD); (0xA9CF, 0xA9CF); (0xA9E5, 0xA9E6); (0xAA29, 0xAA2E);
   (0xAA31, 0xAA32); (0xAA35, 0xAA36); (0xAA43, 0xAA43); (0xAA4C, 0xAA4C);
   (0xAA70, 0xAA70); (0xAA7C, 0xAA7C); (0xAAB0, 0xAAB0); (0xAAB2, 0xAAB4);
   (0xAAB7, 0xAAB8); (0xAABE, 0xAABF); (0xAAC1, 0xAAC1); (0xAADD, 0xAADD);
   (0xAAEC, 0xAAED); (0xAAF3, 0xAAF4); (0xAAF6, 0xAAF6); (0xAB5B, 0xAB5F);
   (0xAB69, 0xAB6B); (0xABE5, 0xABE5); (0xABE8, 0xABE8); (0xABED, 0xABED);
   (0xFB1E, 0xFB1E); (0xFBB2, 0xFBC2); (0xFE00, 0xFE0F); (0xFE13, 0xFE13);
   (0xFE20, 0xFE2F); (0xFE52, 0xFE52); (0xFE55, 0xFE55); (0xFEFF, 0xFEFF);
   (0xFF07, 0xFF07); (0xFF0E, 0xFF0E); (0xFF1A, 0xFF1A); (0xFF3E, 0xFF3E);
   (0xFF40, 0xFF40); (0xFF70, 0xFF70); (0xFF9E, 0xFF9F); (0xFFE3, 0xFFE3);
   (0xFFF9, 0xFFFB); (0x101FD, 0x101FD); (0x102E0, 0x102E0); (0x10376,
   0x1037A); (0x10780, 0x10785); (0x10787, 0x107B0); (0x107B2, 0x107BA);
   (0x10A01, 0x10A03); (0x10A05, 0x10A06); (0x10A0C, 0x10A0F); (0x10A38,
   0x10A3A); (0x10A3F, 0x10A3F); (0x10AE5, 0x10AE6); (0x10D24, 0x10D27);
   (0x10EAB, 0x10EAC); (0x10F46, 0x10F50); (0x10F82, 0x10F85); (0x11001,
   0x11001); (0x11038, 0x11046); (0x11070, 0x11070); (0x11073, 0x11074);
   (0x1107F, 0x11081); (0x110B3, 0x110B6); (0x110B9, 0x110BA); (0x110BD,
   0x110BD); (0x110C2, 0x110C2); (0x110CD, 0x110CD); (0x11100, 0x11102);
   (0x11127, 0x1112B); (0x1112D, 0x11134); (0x11173, 0x11173); (0x11180,
   0x11181); (0x111B6, 0x111BE); (0x111C9, 0x111CC); (0x111CF, 0x111CF);
   (0x1122F, 0x11231); (0x11234, 0x11234); (0x11236, 0x11237); (0x1123E,
   0x1123E); (0x112DF, 0x112DF); (0x112E3, 0x112EA); (0x11300, 0x11301);
   (0x1133B, 0x1133C); (0x11340, 0x11340); (0x11366, 0x1136C); (0x11370,
   0x11374); (0x11438, 0x1143F); (0x11442, 0x11444); (0x11446, 0x11446);
   (0x1145E, 0x1145E); (0x114B3, 0x114B8); (0x114BA, 0x114BA); (0x114BF,
   0x114C0); (0x114C2, 0x114C3); (0x115B2, 0x115B5); (0x115BC, 0x115BD);
   (0x115BF, 0x115C0); (0x115DC, 0x115DD); (0x11633, 0x1163A); (0x1163D,
   0x1163D); (0x1163F, 0x11640); (0x116AB, 0x116AB); (0x116AD, 0x116AD);
   (0x116B0, 0x116B5); (0x116B7, 0x116B7); (0x1171D, 0x1171F); (0x11722,
   0x11725); (0x11727, 0x1172B); (0x1182F, 0x11837); (0x11839, 0x1183A);
   (0x1193B, 0x1193C); (0x1193E, 0x1193E); (0x11943, 0x11943); (0x119D4,
   0x119D7); (0x119DA, 0x119DB); (0x119E0, 0x119E0); (0x11A01, 0x11A0A);
   (0x11A33, 0x11A38); (0x11A3B, 0x11A3E); (0x11A47, 0x11A47); (0x11A51,
   0x11A56); (0x11A59, 0x11A5B); (0x11A8A, 0x11A96); (0x11A98, 0x11A99);
   (0x11C30, 0x11C36); (0x11C38, 0x11C3D); (0x11C3F, 0x11C3F); (0x11C92,
   0x11CA7); (0x11CAA, 0x11CB0); (0x11CB2, 0x11CB3); (0x11CB5, 0x11CB6);
   (0x11D31, 0x11D36); (0x11D3A, 0x11D3A); (0x11D3C, 0x11D3D); (0x11D3F,
   0x11D45); (0x11D47, 0x11D47); (0x11D90, 0x11D91); (0x11D95, 0x11D95);
   (0x11D97, 0x11D97); (0x11EF3, 0x11EF4); (0x13430, 0x13438); (0x16AF0,
   0x16AF4); (0x16B30, 0x16B36); (0x16B40, 0x16B43); (0x16F4F, 0x16F4F);
   (0x16F8F, 0x16F9F); (0x16FE0, 0x16FE1); (0x16FE3, 0x16FE4); (0x1AFF0,
   0x1AFF3); (0x1AFF5, 0x1AFFB); (0x1AFFD, 0x1AFFE); (0x1BC9D, 0x1BC9E);
   (0x1BCA0, 0x1BCA3); (0x1CF00, 0x1CF2D); (0x1CF30, 0x1CF46); (0x1D167,
   0x1D169); (0x1D173, 0x1D182); (0x1D185, 0x1D18B); (0x1D1AA, 0x1D1AD);
   (0x1D242, 0x1D244); (0x1DA00, 0x1DA36); (0x1DA3B, 0x1DA6C); (0x1DA75,
   0x1DA75); (0x1DA84, 0x1DA84); (0x1DA9B, 0x1DA9F); (0x1DAA1, 0x1DAAF);
   (0x1E000, 0x1E006); (0x1E008, 0x1E018); (0x1E01B, 0x1E021); (0x1E023,
   0x1E024); (0x1E026, 0x1E02A); (0x1E130, 0x1E13D); (0x1E2AE, 0x1E2AE);
   (0x1E2EC, 0x1E2EF); (0x1E8D0, 0x1E8D6); (0x1E944, 0x1E94B); (0x1F3FB,
   0x1F3FF); (0xE0001, 0xE0001); (0xE0020, 0xE007F); (0xE0100, 0xE01EF)]%N.

Fixpoint in_ranges (p : code_point) (ranges : list (N * N)) : bool :=
  match ranges with
  | [] => false
  | (first, last) :: rest =>
      ((first <=? p) && (p <=? last))%N || in_ranges p rest
  end.

Fixpoint lowercase_in (p : code_point) (ranges : list (N * N * N * N))
  : code_point :=
  match ranges with
  | [] => p
  | (first, last, step, lower) :: rest =>
      if ((first <=? p) && (p <=? last))%N then
        if ((p - first) mod step =? 0)%N then (lower + (p - first))%N else p
      else lowercase_in p rest
  end.

Definition is_cased (p : code_point) : bool := in_ranges p cased_ranges.

Definition is_case_ignorable (p : code_point) : bool :=
  in_ranges p case_ignorable_ranges.

(** The first code point that is not case-ignorable is a cased letter. *)
Fixpoint meets_cased (l : list code_point) : bool :=
  match l with
  | [] => false
  | p :: rest => if is_case_ignorable p then meets_cased rest else is_cased p
  end.

(** The Final_Sigma condition of SpecialCasing.txt; [before] holds the
    code points before the sigma, nearest first. *)
Definition final_sigma (before after : list code_point) : bool :=
  meets_cased before && negb (meets_cased after).

(** The lowercase of one code point in its context: the sigma rule,
    the one unconditional mapping of SpecialCasing.txt to more than one
    code point (U+0130), else the simple mapping. *)
Definition lower_point (before : list code_point) (p : code_point)
  (after : list code_point) : list code_point :=
  if (p <? 0x80)%N then
    [if ((0x41 <=? p) && (p <=? 0x5A))%N then (p + 0x20)%N else p]
  else if (p =? 0x3A3)%N then
    [if final_sigma before after then 0x3C2 else 0x3C3]%N
  else if (p =? 0x130)%N then [0x69; 0x307]%N
  else [lowercase_in p lowercase_ranges].

Fixpoint lower_points (before l : list code_point) : list code_point :=
  match l with
  | [] => []
  | p :: after => lower_point before p after ++ lower_points (p :: before) after
  end.

Definition toLowerCase (s : string) : string :=
  utf8_encode (lower_points [] (utf8_decode s)).

(** WhiteSpace and LineTerminator of ECMAScript: tab, line feed,
    vertical tab, form feed, carriage return, space, no-break space,
    the other space separators (Zs), the line and paragraph separators
    and the byte order mark. *)
Definition is_space (p : code_point) : bool :=
  in_ranges p
    [(0x9, 0xD); (0x20, 0x20); (0xA0, 0xA0); (0x1680, 0x1680);
     (0x2000, 0x200A); (0x2028, 0x2029); (0x202F, 0x202F);
     (0x205F, 0x205F); (0x3000, 0x3000); (0xFEFF, 0xFEFF)]%N.

Fixpoint trimStart (l : list code_point) : list code_point :=
  match l with
  | [] => []
  | p :: rest => if is_space p then trimStart rest else l
  end.

Definition trimEnd (l : list code_point) : list code_point :=
  rev (trimStart (rev l)).

Definition trim (s : string) : string :=
  utf8_encode (trimEnd (trimStart (utf8_decode s))).

Definition canonical (s : string) : string := trim (toLowerCase s).

(** ** Bulk import: the request record *)

Definition numeric := Z.
Definition timestamp := nat.

Record product_input : Type := mkInput {
  in_name : jsfield string;
  in_category : jsfield string;
  in_base_cost : jsfield numeric;
  in_size : jsfield numeric;
  in_weight : jsfield numeric;
  in_width : jsfield numeric;
  in_height : jsfield numeric;
  in_length : jsfield numeric;
  in_source : jsfield string;
  in_product_sku : jsfield string;
  in_parent : jsfield string
}.

(** [(p.name || '').toLowerCase().trim()] *)
Definition key_of (p : product_input) : string :=
  canonical (or_str (in_name p) "").

(** [p.name] as the handler reads it for the key. *)
Definition name_of (p : product_input) : string := or_str (in_name p) "".

(** ** Batch Deduplicator: the [productMap] *)

Definition jsmap (V : Type) : Type := list (string * V).

(** [Map.prototype.set]: an existing key keeps its place and takes the
    new value; a new key goes to the end. *)
Fixpoint map_set {V : Type} (k : string) (v : V) (m : jsmap V) : jsmap V :=
  match m with
  | [] => [(k, v)]
  | (k', v') :: rest =>
      if (k' =? k)%string then (k', v) :: rest
      else (k', v') :: map_set k v rest
  end.


Definition map_values {V : Type} (m : jsmap V) : list V := map snd m.

Definition dedup_step (m : jsmap product_input) (p : product_input)
  : jsmap product_input :=
  let key := key_of p in
  if (key =? "")%string then m else map_set key p m.

Definition productMap (products : list product_input) : jsmap product_input :=
  fold_left dedup_step products [].

(** [uniqueProducts] *)
Definition dedup (products : list product_input) : list product_input :=
  map_values (productMap products).



(** Every entry of the [productMap] sits under the canonical key of its
    record, that key is not empty, and no key occurs twice. *)
Definition keyed (m : jsmap product_input) : Prop :=
  NoDup (map fst m) /\
  Forall (fun e => key_of (snd e) = fst e /\ fst e <> "") m.

Definition option_list {A : Type} (o : option A) : list A :=
  match o with
  | Some a => [a]
  | None => []
  end.

(** ** The [products] table

    The columns the three routes read or write.  [name] is NOT NULL and
    UNIQUE (001_initial.sql); [id] is the generated primary key. *)

Record product : Type := mkProduct {
  p_id : nat;
  p_name : string;
  p_category : option string;
  p_base_cost : option numeric;
  p_size : option numeric;
  p_weight : option numeric;
  p_width : option numeric;
  p_height : option numeric;
  p_length : option numeric;
  p_source : option string;
  p_product_sku : option string;
  p_parent : option string;
  p_default_custom_shipping : option numeric;
  p_default_fbm_source : option string;
  p_updated_at : timestamp
}.

Definition products_table : Type := list product.

Definition named (n : string) (r : product) : bool := (p_name r =? n)%string.

(** The stored row that conflicts on [name]. *)
Definition find_by_name (n : string) (tbl : products_table) : option product :=
  find (named n) tbl.

(** ** The response envelope: [{success: true, data}] or
    [{success: false, error}] with the HTTP status. *)

Inductive response (D : Type) : Type :=
| Success (status : nat) (data : D)
| Failure (status : nat) (error : string).

Arguments Success {D} _ _.
Arguments Failure {D} _ _.

(** The counts a response carries, if it carries any. *)
Definition reported {D : Type} (r : response D) : option D :=
  match r with
  | Success _ d => Some d
  | Failure _ _ => None
  end.

(** ** Chunked Upsert Executor: [POST /bulk] *)

(** One row of the [UNNEST] of the eleven parameter arrays. *)
Record proposed : Type := mkProposed {
  x_name : option string;
  x_category : option string;
  x_base_cost : option numeric;
  x_size : option numeric;
  x_weight : option numeric;
  x_width : option numeric;
  x_height : option numeric;
  x_length : option numeric;
  x_source : option string;
  x_product_sku : option string;
  x_parent : option string
}.

(** The [batch.map(...)] lines: [name] and [category] are passed as they
    are, [source] defaults to ['csv'], the others go through [?? null]. *)
Definition proposed_of (p : product_input) : proposed :=
  {| x_name := to_sql (in_name p);
     x_category := to_sql (in_category p);
     x_base_cost := nullish (in_base_cost p);
     x_size := nullish (in_size p);
     x_weight := nullish (in_weight p);
     x_width := nullish (in_width p);
     x_height := nullish (in_height p);
     x_length := nullish (in_length p);
     x_source := Some (or_str (in_source p) "csv");
     x_product_sku := nullish (in_product_sku p);
     x_parent := nullish (in_parent p) |}.

Definition BATCH_SIZE : nat := 500.

(** [Array.prototype.slice(i, j)] for [i <= j]. *)
Definition slice {A : Type} (i j : nat) (l : list A) : list A :=
  firstn (j - i) (skipn i l).

Fixpoint distinct (l : list string) : bool :=
  match l with
  | [] => true
  | x :: rest => negb (existsb (String.eqb x) rest) && distinct rest
  end.

Definition is_none {A : Type} (o : option A) : bool :=
  match o with
  | None => true
  | Some _ => false
  end.

Definition fresh_id (tbl : products_table) : nat :=
  S (fold_right Nat.max 0 (map p_id tbl)).

Record counts : Type := mkCounts { added : nat; updated : nat }.

Section BulkImport.

(** What the store refuses for reasons the route does not fix (a
    value too long for its column, a numeric out of range, a lost
    connection): the error raised for a statement over these rows. *)
Variable store_rejects : list proposed -> option string.

Variable tnow : timestamp.

(** The row an accepted proposal creates.  Columns the statement does
    not list take their defaults. *)
Definition insert_row (id : nat) (n : string) (x : proposed) : product :=
  {| p_id := id;
     p_name := n;
     p_category := x_category x;
     p_base_cost := x_base_cost x;
     p_size := x_size x;
     p_weight := x_weight x;
     p_width := x_width x;
     p_height := x_height x;
     p_length := x_length x;
     p_source := x_source x;
     p_product_sku := x_product_sku x;
     p_parent := x_parent x;
     p_default_custom_shipping := None;
     p_default_fbm_source := None;
     p_updated_at := tnow |}.

(** [ON CONFLICT (name) DO UPDATE SET ...]: [old] is the stored row
    ([products.*]), [x] the proposed one ([EXCLUDED.*]). *)
Definition on_conflict_update (old : product) (x : proposed) : product :=
  {| p_id := p_id old;
     p_name := p_name old;
     p_category := x_category x;
     p_base_cost := coalesce (x_base_cost x) (p_base_cost old);
     p_size := coalesce (x_size x) (p_size old);
     p_weight := coalesce (x_weight x) (p_weight old);
     p_width := coalesce (x_width x) (p_width old);
     p_height := coalesce (x_height x) (p_height old);
     p_length := coalesce (x_length x) (p_length old);
     p_source := p_source old;
     p_product_sku := coalesce (x_product_sku x) (p_product_sku old);
     p_parent := coalesce (x_parent x) (p_parent old);
     p_default_custom_shipping := p_default_custom_shipping old;
     p_default_fbm_source := p_default_fbm_source old;
     p_updated_at := tnow |}.

(** The row stored under [n] once [x] has been applied; [id] is the
    key generated if the row is new. *)
Definition upserted (id : nat) (tbl : products_table) (n : string)
  (x : proposed) : product :=
  match find_by_name n tbl with
  | Some old => on_conflict_update old x
  | None => insert_row id n x
  end.

Fixpoint replace_named (n : string) (new : product) (tbl : products_table)
  : products_table :=
  match tbl with
  | [] => []
  | r :: rest =>
      if named n r then new :: rest else r :: replace_named n new rest
  end.

(** One proposed row: update the conflicting row in place or append a
    new one; the flag is [RETURNING (xmax = 0) AS is_insert]. *)
Definition upsert_row (tbl : products_table) (n : string) (x : proposed)
  : products_table * bool :=
  match find_by_name n tbl with
  | Some old => (replace_named n (on_conflict_update old x) tbl, false)
  | None => (tbl ++ [insert_row (fresh_id tbl) n x], true)
  end.

Definition upsert_next (acc : products_table * list bool) (x : proposed)
  : products_table * list bool :=
  match x_name x with
  | Some n =>
      let (tbl', is_insert) := upsert_row (fst acc) n x in
      (tbl', snd acc ++ [is_insert])
  | None => acc
  end.

Definition apply_rows (rows : list proposed) (tbl : products_table)
  : products_table * list bool :=
  fold_left upsert_next rows (tbl, []).

(** A statement fails as a whole: on a NULL name, on two proposed rows
    with one name (the command would touch a row twice), or when the
    store refuses it. *)
Definition statement_error (rows : list proposed) : option string :=
  if existsb (fun x => is_none (x_name x)) rows then
    Some "null value in column name violates not-null constraint"
  else if negb (distinct (flat_map (fun x => option_list (x_name x)) rows)) then
    Some "ON CONFLICT DO UPDATE command cannot affect row a second time"
  else store_rejects rows.

(** The [INSERT ... ON CONFLICT ... RETURNING] of one chunk. *)
Definition upsert_statement (rows : list proposed) (tbl : products_table)
  : string + products_table * list bool :=
  match statement_error rows with
  | Some e => inl e
  | None => inr (apply_rows rows tbl)
  end.

(** The [for (let i = 0; i < uniqueProducts.length; i += BATCH_SIZE)]
    loop; a thrown error leaves the loop with the table as the earlier
    chunks left it. *)
Fixpoint bulk_loop (fuel i : nat) (uniqueProducts : list product_input)
  (tbl : products_table) (totalAdded totalUpdated : nat)
  : (string + counts) * products_table :=
  match fuel with
  | 0 => (inr (mkCounts totalAdded totalUpdated), tbl)
  | S fuel' =>
      if i <? List.length uniqueProducts then
        let batch := slice i (i + BATCH_SIZE) uniqueProducts in
        match upsert_statement (map proposed_of batch) tbl with
        | inl e => (inl e, tbl)
        | inr (tbl', result) =>
            let inserted := List.length (filter (fun b : bool => b) result) in
            bulk_loop fuel' (i + BATCH_SIZE) uniqueProducts tbl'
              (totalAdded + inserted)
              (totalUpdated + (List.length result - inserted))
        end
      else (inr (mkCounts totalAdded totalUpdated), tbl)
  end.

(** The handler.  The body's [products] is [None] when it is not an
    array.  The loop runs at most once per record, so the length of
    the list is fuel enough. *)
Definition post_bulk (products : option (list product_input))
  (tbl : products_table) : response counts * products_table :=
  match products with
  | None => (Failure 400 "Products must be an array", tbl)
  | Some [] => (Success 200 (mkCounts 0 0), tbl)
  | Some products =>
      let uniqueProducts := dedup products in
      match bulk_loop (List.length uniqueProducts) 0 uniqueProducts tbl 0 0 with
      | (inl e, tbl') => (Failure 500 e, tbl')
      | (inr data, tbl') => (Success 201 data, tbl')
      end
  end.

End BulkImport.

(** The number of distinct natural keys of a batch: a record whose name
    is missing or blank has no natural key. *)
Definition distinct_keys (products : list product_input) : list string :=
  nodup string_dec
    (filter (fun k => negb (k =? "")%string) (map key_of products)).

(** The fallback rule in the words of the specification: a null incoming
    value keeps the stored one, any other value replaces it. *)
Definition fallback_rule {A : Type} (incoming : jsfield A)
  (stored result : option A) : Prop :=
  match incoming with
  | Val v => result = Some v
  | _ => result = stored
  end.

(** The rows of the statement sent for chunk [k] (counted from 0), and
    the rows of all the chunks before it. *)
Definition chunk_rows (k : nat) (uniqueProducts : list product_input)
  : list proposed :=
  map proposed_of
    (slice (k * BATCH_SIZE) (k * BATCH_SIZE + BATCH_SIZE) uniqueProducts).

Definition rows_before (k : nat) (uniqueProducts : list product_input)
  : list proposed :=
  map proposed_of (firstn (k * BATCH_SIZE) uniqueProducts).

(** ** Stores and requests used in the examples *)

(** A store that refuses nothing. *)
Definition accept_all (rows : list proposed) : option string := None.

(** A text of more than [limit] characters. *)
Definition too_long (limit : nat) (o : option string) : bool :=
  match o with
  | Some s => limit <? List.length (utf8_decode s)
  | None => false
  end.

(** An example of a store: it refuses a value longer than the declared
    lengths of 001_initial.sql, [name VARCHAR(255)],
    [category VARCHAR(100)], [source VARCHAR(50)].  (PostgreSQL cuts an
    excess that is all spaces instead of refusing it; the examples send
    no such value.) *)
Definition varchar_limits (rows : list proposed) : option string :=
  if existsb (fun x => too_long 255 (x_name x)) rows then
    Some "value too long for type character varying(255)"
  else if existsb (fun x => too_long 100 (x_category x)) rows then
    Some "value too long for type character varying(100)"
  else if existsb (fun x => too_long 50 (x_source x)) rows then
    Some "value too long for type character varying(50)"
  else None.

(** The no-break space, U+00A0. *)
Definition nbsp : string := utf8_encode [0xA0%N].

(** A request record that carries only a name. *)
Definition just_name (n : string) : product_input :=
  {| in_name := Val n; in_category := Undefined; in_base_cost := Undefined;
     in_size := Undefined; in_weight := Undefined; in_width := Undefined;
     in_height := Undefined; in_length := Undefined; in_source := Undefined;
     in_product_sku := Undefined; in_parent := Undefined |}.

Definition widget_stored : product :=
  {| p_id := 1; p_name := "Widget"; p_category := Some "Toys";
     p_base_cost := Some 3%Z; p_size := Some 10%Z; p_weight := None;
     p_width := None; p_height := None; p_length := None;
     p_source := Some "manual"; p_product_sku := Some "W-1"; p_parent := None;
     p_default_custom_shipping := None; p_default_fbm_source := None;
     p_updated_at := 0 |}.

(** [{name: "Widget", base_cost: 5, size: null}]: no [category]. *)
Definition widget_update : product_input :=
  {| in_name := Val "Widget"; in_category := Undefined;
     in_base_cost := Val 5%Z; in_size := Null; in_weight := Undefined;
     in_width := Undefined; in_height := Undefined; in_length := Undefined;
     in_source := Undefined; in_product_sku := Undefined;
     in_parent := Undefined |}.

(** Five hundred records [item-0] ... [item-499], one full chunk. *)
Definition item (i : nat) : product_input :=
  just_name ("item-" ++ NilEmpty.string_of_uint (Nat.to_uint i)).

Definition full_chunk : list product_input := map item (seq 0 BATCH_SIZE).

Fixpoint letters (n : nat) : string :=
  match n with
  | 0 => ""
  | S n' => String "x" (letters n')
  end.

(** A record the store refuses: a category of 101 characters. *)
Definition refused_record : product_input :=
  {| in_name := Val "overlong"; in_category := Val (letters 101);
     in_base_cost := Undefined; in_size := Undefined; in_weight := Undefined;
     in_width := Undefined; in_height := Undefined; in_length := Undefined;
     in_source := Undefined; in_product_sku := Undefined;
     in_parent := Undefined |}.

Definition failing_batch : list product_input := full_chunk ++ [refused_record].

(** The category rule as the specification words it: a record that
    does not carry [category] leaves the stored category alone. *)
Definition category_kept_unless_present : Prop :=
  forall store_rejects tnow products tbl st c tbl' I R R',
    post_bulk store_rejects tnow (Some products) tbl = (Success st c, tbl') ->
    In I (dedup products) ->
    find_by_name (name_of I) tbl = Some R ->
    find_by_name (name_of I) tbl' = Some R' ->
    in_category I = Undefined ->
    p_category R' = p_category R.

(** ** The [marketplace_product_data] and [sku_master] tables

    Of a mapping, the columns the synchronizer reads: [product_id] and
    [sku] are nullable, [country_code] is NOT NULL.  Of [sku_master],
    the columns the routes name; its uniqueness constraint is the one
    the [ON CONFLICT (sku, marketplace, country_code)] clauses rely on,
    and the three key columns are never written with NULL.  The
    generated [id] is not represented: [RETURNING id] is modelled by
    the list of the rows inserted. *)

Record mapping : Type := mkMapping {
  m_product_id : option nat;
  m_country_code : string;
  m_sku : option string;
  m_asin : option string
}.

Record sku_row : Type := mkSku {
  s_sku : string;
  s_marketplace : string;
  s_country_code : string;
  s_asin : option string;
  s_iwasku : option string;
  s_name : option string;
  s_parent : option string;
  s_category : option string;
  s_cost : option numeric;
  s_size : option numeric;
  s_custom_shipping : option numeric;
  s_fbm_source : option string;
  s_fulfillment : option string;
  s_updated_at : timestamp
}.

Definition sku_table : Type := list sku_row.

Definition same_key (a b : sku_row) : bool :=
  (s_sku a =? s_sku b)%string
  && (s_marketplace a =? s_marketplace b)%string
  && (s_country_code a =? s_country_code b)%string.

Definition key_taken (r : sku_row) (tbl : sku_table) : bool :=
  existsb (same_key r) tbl.

(** [INSERT ... ON CONFLICT (sku, marketplace, country_code) DO NOTHING
    RETURNING id] over the rows [rows], in order: a row whose key is
    taken, by a stored row or by a row inserted earlier in the same
    statement, is dropped.  The result is the table and the rows
    returned. *)
Fixpoint insert_do_nothing (rows : list sku_row) (tbl : sku_table)
  : sku_table * list sku_row :=
  match rows with
  | [] => (tbl, [])
  | r :: rest =>
      if key_taken r tbl then insert_do_nothing rest tbl
      else
        let (tbl', returned) := insert_do_nothing rest (tbl ++ [r]) in
        (tbl', r :: returned)
  end.

(** ** Missing-Reference Ingester: [POST /mapping/amazon-analyzer/missing] *)

Record sku_info : Type := mkSkuInfo {
  si_sku : jsfield string;
  si_asin : jsfield string;
  si_name : jsfield string;
  si_marketplace : jsfield string;
  si_category : jsfield string;
  si_fulfillment : jsfield string
}.

Record missing_counts : Type := mkMissing {
  mc_added : nat;
  mc_skipped : nat;
  mc_total : nat
}.

(** The text of a field known to hold a non-empty string. *)
Definition text_of (x : jsfield string) : string := or_str x "".

Section MissingReferences.

(** What the store refuses of the rows a statement writes. *)
Variable sku_rejects : list sku_row -> option string.

Variable tnow : timestamp.

(** The [VALUES ($1, 'amazon', $2, $3, $4, $5, $6)] row with the
    parameters [[sku, marketplace, asin || null, name || sku,
    category || 'Unknown', fulfillment || null]]; the other columns
    take their defaults. *)
Definition placeholder (skuInfo : sku_info) : sku_row :=
  let sku := text_of (si_sku skuInfo) in
  {| s_sku := sku;
     s_marketplace := "amazon";
     s_country_code := text_of (si_marketplace skuInfo);
     s_asin := or_null (si_asin skuInfo);
     s_iwasku := None;
     s_name := Some (or_str (si_name skuInfo) sku);
     s_parent := None;
     s_category := Some (or_str (si_category skuInfo) "Unknown");
     s_cost := None;
     s_size := None;
     s_custom_shipping := None;
     s_fbm_source := None;
     s_fulfillment := or_null (si_fulfillment skuInfo);
     s_updated_at := tnow |}.

Definition insert_statement (rows : list sku_row) (tbl : sku_table)
  : string + sku_table * list sku_row :=
  match sku_rejects rows with
  | Some e => inl e
  | None => inr (insert_do_nothing rows tbl)
  end.

(** The [for (const skuInfo of skus)] loop. *)
Fixpoint missing_loop (skus : list sku_info) (tbl : sku_table)
  (added skipped : nat) : (string + nat * nat) * sku_table :=
  match skus with
  | [] => (inr (added, skipped), tbl)
  | skuInfo :: rest =>
      if falsy (si_sku skuInfo) || falsy (si_marketplace skuInfo) then
        missing_loop rest tbl added (S skipped)
      else
        match insert_statement [placeholder skuInfo] tbl with
        | inl e => (inl e, tbl)
        | inr (tbl', result) =>
            if 0 <? List.length result then
              missing_loop rest tbl' (S added) skipped
            else
              missing_loop rest tbl' added (S skipped)
        end
  end.

(** The handler; [skus] is [None] when the body's [skus] is not an
    array. *)
Definition post_missing (skus : option (list sku_info)) (tbl : sku_table)
  : response missing_counts * sku_table :=
  match skus with
  | None => (Failure 400 "skus must be an array", tbl)
  | Some skus =>
      match missing_loop skus tbl 0 0 with
      | (inl e, tbl') => (Failure 500 e, tbl')
      | (inr (added, skipped), tbl') =>
          (Success 200 (mkMissing added skipped (List.length skus)), tbl')
      end
  end.

End MissingReferences.

(** The rows of a table stored under the key (sku, marketplace,
    country_code). *)
Definition rows_with_key (sku marketplace country_code : string)
  (tbl : sku_table) : list sku_row :=
  filter (fun r => (sku =? s_sku r)%string
                   && (marketplace =? s_marketplace r)%string
                   && (country_code =? s_country_code r)%string) tbl.

(** A store for [sku_master] that refuses nothing. *)
Definition accept_skus (rows : list sku_row) : option string := None.

(** [{sku: "M1", marketplace: "amazon"}] *)
Definition m1 : sku_info :=
  {| si_sku := Val "M1"; si_asin := Undefined; si_name := Undefined;
     si_marketplace := Val "amazon"; si_category := Undefined;
     si_fulfillment := Undefined |}.

(** ** Reconciliation Synchronizer: [POST /mapping/amazon-analyzer/sync] *)

Definition joined_pair : Type := (mapping * product)%type.

(** [marketplace_product_data mpd JOIN products p ON mpd.product_id = p.id] *)
Definition joined (mpd : list mapping) (products : products_table)
  : list joined_pair :=
  flat_map
    (fun m =>
       map (pair m)
         (filter (fun p => match m_product_id m with
                           | Some i => i =? p_id p
                           | None => false
                           end) products))
    mpd.

(** [COALESCE(p.parent, p.product_sku)] *)
Definition derived_parent (p : product) : option string :=
  coalesce (p_parent p) (p_product_sku p).

(** The parent rule in the words of the specification: the product's
    parent if present, else the product's own SKU code. *)
Definition parent_rule (p : product) (parent : option string) : Prop :=
  match p_parent p with
  | Some v => parent = Some v
  | None => parent = p_product_sku p
  end.

(** [WHERE sm.sku = mpd.sku AND sm.country_code = mpd.country_code AND
    sm.marketplace = 'amazon']; a NULL [mpd.sku] equals nothing. *)
Definition update_matches (sm : sku_row) (j : joined_pair) : bool :=
  match m_sku (fst j) with
  | Some s => (s_sku sm =? s)%string
  | None => false
  end
  && (s_country_code sm =? m_country_code (fst j))%string
  && (s_marketplace sm =? "amazon")%string.

Record sync_counts : Type := mkSync {
  sc_updated : nat;
  sc_inserted : nat;
  sc_total : nat;
  sc_withCost : nat;
  sc_withSize : nat
}.

Section Synchronizer.

(** What the store refuses of the rows a statement writes. *)
Variable sku_rejects : list sku_row -> option string.

(** When several joined pairs match one [sku_master] row, the
    [UPDATE ... FROM] uses one of them and the store does not say
    which: [pick j js] is the pair used among the matches [j :: js]. *)
Variable pick : joined_pair -> list joined_pair -> joined_pair.

Variable tnow : timestamp.

(** The [SET] list of Phase A. *)
Definition refresh (sm : sku_row) (j : joined_pair) : sku_row :=
  let p := snd j in
  {| s_sku := s_sku sm;
     s_marketplace := s_marketplace sm;
     s_country_code := s_country_code sm;
     s_asin := s_asin sm;
     s_iwasku := s_iwasku sm;
     s_name := Some (p_name p);
     s_parent := derived_parent p;
     s_category := p_category p;
     s_cost := p_base_cost p;
     s_size := p_size p;
     s_custom_shipping := p_default_custom_shipping p;
     s_fbm_source := p_default_fbm_source p;
     s_fulfillment := s_fulfillment sm;
     s_updated_at := tnow |}.

Definition refresh_row (J : list joined_pair) (sm : sku_row) : sku_row :=
  match filter (update_matches sm) J with
  | [] => sm
  | j :: js => refresh sm (pick j js)
  end.

(** Phase A, the [UPDATE sku_master sm SET ... FROM ...]. *)
Definition phase_a (J : list joined_pair) (tbl : sku_table) : sku_table :=
  map (refresh_row J) tbl.

(** The rows Phase A writes. *)
Definition refreshed (J : list joined_pair) (tbl : sku_table) : sku_table :=
  map (refresh_row J)
    (filter (fun sm => negb (is_none (hd_error (filter (update_matches sm) J))))
       tbl).

(** The [SELECT] list of Phase B for a pair with the SKU [s]; the
    columns it does not list take their defaults. *)
Definition selected (s : string) (j : joined_pair) : sku_row :=
  let m := fst j in
  let p := snd j in
  {| s_sku := s;
     s_marketplace := "amazon";
     s_country_code := m_country_code m;
     s_asin := m_asin m;
     s_iwasku := p_product_sku p;
     s_name := Some (p_name p);
     s_parent := derived_parent p;
     s_category := p_category p;
     s_cost := p_base_cost p;
     s_size := p_size p;
     s_custom_shipping := p_default_custom_shipping p;
     s_fbm_source := p_default_fbm_source p;
     s_fulfillment := None;
     s_updated_at := tnow |}.

(** [WHERE mpd.sku IS NOT NULL AND mpd.sku != ''] *)
Definition candidate (j : joined_pair) : option sku_row :=
  match m_sku (fst j) with
  | Some s => if (s =? "")%string then None else Some (selected s j)
  | None => None
  end.

Definition candidates (J : list joined_pair) : list sku_row :=
  flat_map (fun j => option_list (candidate j)) J.

Definition is_amazon (r : sku_row) : bool :=
  (s_marketplace r =? "amazon")%string.

(** The handler.  [query] hands back the rows of a result: none for
    the [UPDATE], which has no [RETURNING], and an array has no
    [rowCount]; so [updated] is [undefined || 0 || 0]. *)
Definition post_sync (mpd : list mapping) (products : products_table)
  (tbl : sku_table) : response sync_counts * sku_table :=
  let J := joined mpd products in
  match sku_rejects (refreshed J tbl) with
  | Some e => (Failure 500 e, tbl)
  | None =>
      let tbl1 := phase_a J tbl in
      let updateResult : list sku_row := [] in
      match sku_rejects (candidates J) with
      | Some e => (Failure 500 e, tbl1)
      | None =>
          let (tbl2, insertResult) := insert_do_nothing (candidates J) tbl1 in
          let amazon := filter is_amazon tbl2 in
          (Success 200
             {| sc_updated := List.length updateResult;
                sc_inserted := List.length insertResult;
                sc_total := List.length amazon;
                sc_withCost :=
                  List.length (filter (fun r => negb (is_none (s_cost r))) amazon);
                sc_withSize :=
                  List.length (filter (fun r => negb (is_none (s_size r))) amazon) |},
           tbl2)
      end
  end.

End Synchronizer.




(** A row without the time of its last write. *)
Definition forget_time (r : sku_row) : sku_row :=
  {| s_sku := s_sku r;
     s_marketplace := s_marketplace r;
     s_country_code := s_country_code r;
     s_asin := s_asin r;
     s_iwasku := s_iwasku r;
     s_name := s_name r;
     s_parent := s_parent r;
     s_category := s_category r;
     s_cost := s_cost r;
     s_size := s_size r;
     s_custom_shipping := s_custom_shipping r;
     s_fbm_source := s_fbm_source r;
     s_fulfillment := s_fulfillment r;
     s_updated_at := 0 |}.

(** The place of the product [id] in storage order. *)
Fixpoint stored_at (id : nat) (products : products_table) : nat :=
  match products with
  | [] => 0
  | p :: rest => if p_id p =? id then 0 else S (stored_at id rest)
  end.

(** Three admissible choices among the matches: the first the join of
    the mappings yields, the last, and the one whose product is stored
    first (a join driven by the scan of [products]). *)
Definition pick_first (j : joined_pair) (js : list joined_pair) : joined_pair := j.

Definition pick_last (j : joined_pair) (js : list joined_pair) : joined_pair :=
  last js j.

Definition pick_stored_first (products : products_table) (j : joined_pair)
  (js : list joined_pair) : joined_pair :=
  fold_left
    (fun best x =>
       if stored_at (p_id (snd x)) products <? stored_at (p_id (snd best)) products
       then x else best)
    js j.


(** A product with only the columns the examples look at. *)
Definition catalog_product (id : nat) (n : string) (sku parent : option string)
  (cost : option numeric) : product :=
  {| p_id := id; p_name := n; p_category := None; p_base_cost := cost;
     p_size := None; p_weight := None; p_width := None; p_height := None;
     p_length := None; p_source := Some "manual"; p_product_sku := sku;
     p_parent := parent; p_default_custom_shipping := None;
     p_default_fbm_source := None; p_updated_at := 0 |}.

(** Two products mapped to one SKU of one country, and a product with
    no parent mapped to the SKU "X1". *)
Definition alpha : product :=
  catalog_product 1 "Alpha" (Some "A-1") None (Some 10%Z).

Definition beta : product :=
  catalog_product 2 "Beta" (Some "B-1") (Some "B-0") (Some 20%Z).

Definition listing (product_id : nat) (sku : string) : mapping :=
  {| m_product_id := Some product_id; m_country_code := "US";
     m_sku := Some sku; m_asin := None |}.

Definition px1 : product := catalog_product 1 "Product X" (Some "PX1") None None.

(** [{name: "widget a ", base_cost: 5}] *)
Definition widget_a_costed : product_input :=
  {| in_name := Val "widget a "; in_category := Undefined;
     in_base_cost := Val 5%Z; in_size := Undefined; in_weight := Undefined;
     in_width := Undefined; in_height := Undefined; in_length := Undefined;
     in_source := Undefined; in_product_sku := Undefined;
     in_parent := Undefined |}.

(** ** Further definitions for the properties beyond the catalog claims *)

(** The distinct elements of a list in the order of their first
    occurrence. *)
Definition first_occurrences (l : list string) : list string :=
  rev (nodup string_dec (rev l)).

(** The keys of the records a batch offers to the [productMap]. *)
Definition offered_keys (products : list product_input) : list string :=
  filter (fun k => negb (k =? "")%string) (map key_of products).

(** A product without the time of its last write. *)
Definition forget_stamp (r : product) : product :=
  {| p_id := p_id r;
     p_name := p_name r;
     p_category := p_category r;
     p_base_cost := p_base_cost r;
     p_size := p_size r;
     p_weight := p_weight r;
     p_width := p_width r;
     p_height := p_height r;
     p_length := p_length r;
     p_source := p_source r;
     p_product_sku := p_product_sku r;
     p_parent := p_parent r;
     p_default_custom_shipping := p_default_custom_shipping r;
     p_default_fbm_source := p_default_fbm_source r;
     p_updated_at := 0 |}.


(** ** The analyzer listing: [GET /mapping/amazon-analyzer] *)

Record analyzer_item : Type := mkItem {
  ai_sku : string;
  ai_asin : string;
  ai_name : string;
  ai_parent : string;
  ai_category : string;
  ai_cost : option numeric;
  ai_size : option numeric;
  ai_marketplace : string;
  ai_customShipping : option numeric;
  ai_fbmSource : option string;
  ai_fulfillment : option string
}.

Record analyzer_meta : Type := mkMeta {
  am_total : nat;
  am_withCost : nat;
  am_withSize : nat;
  am_timestamp : timestamp
}.

(** [x || d] on a text column of a result row: NULL and the empty
    string are falsy. *)
Definition col_or (x : option string) (d : string) : string :=
  match x with
  | Some s => if (s =? "")%string then d else s
  | None => d
  end.

(** [x || null] on a text column of a result row. *)
Definition col_or_null (x : option string) : option string :=
  match x with
  | Some s => if (s =? "")%string then None else Some s
  | None => None
  end.

(** The [mappings.map(...)] transform; the query renames
    [country_code] to [marketplace]. *)
Definition analyzer_item_of (m : sku_row) : analyzer_item :=
  {| ai_sku := s_sku m;
     ai_asin := col_or (s_asin m) "";
     ai_name := col_or (s_name m) "";
     ai_parent := col_or (s_parent m) (col_or (s_name m) "");
     ai_category := col_or (s_category m) "";
     ai_cost := s_cost m;
     ai_size := s_size m;
     ai_marketplace := col_or (Some (s_country_code m)) "";
     ai_customShipping := s_custom_shipping m;
     ai_fbmSource := col_or_null (s_fbm_source m);
     ai_fulfillment := col_or_null (s_fulfillment m) |}.

Section AnalyzerListing.

(** The error the store raises for the [SELECT], if any. *)
Variable query_error : option string.

(** [ORDER BY country_code, sku]: the store's arrangement of the selected
    rows under its collation. *)
Variable order_by : list sku_row -> list sku_row.

Variable tnow : timestamp.

Definition get_mapping (tbl : sku_table)
  : response (list analyzer_item * analyzer_meta) :=
  match query_error with
  | Some e => Failure 500 e
  | None =>
      let mappings := order_by (filter is_amazon tbl) in
      let data := map analyzer_item_of mappings in
      let withCost :=
        List.length (filter (fun d => negb (is_none (ai_cost d))) data) in
      let withSize :=
        List.length (filter (fun d => negb (is_none (ai_size d))) data) in
      Success 200
        (data,
         {| am_total := List.length data;
            am_withCost := withCost;
            am_withSize := withSize;
            am_timestamp := tnow |})
  end.

End AnalyzerListing.

(** An arrangement that leaves the rows in storage order. *)
Definition storage_order (rows : list sku_row) : list sku_row := rows.

(** What the synchronizer may change in a stored row: nothing of its
    key, its asin, its iwasku or its fulfillment, and nothing at all
    when no joined pair matches it. *)
Definition kept_by_sync (J : list joined_pair) (sm sm' : sku_row) : Prop :=
  s_sku sm' = s_sku sm /\
  s_marketplace sm' = s_marketplace sm /\
  s_country_code sm' = s_country_code sm /\
  s_asin sm' = s_asin sm /\
  s_iwasku sm' = s_iwasku sm /\
  s_fulfillment sm' = s_fulfillment sm /\
  (filter (update_matches sm) J = [] -> sm' = sm).


(** ** Single products: [GET /], [GET /:id], [POST /], [PUT /:id],
    [DELETE /:id]

    These routes also read and write [cost_profile_id], which the bulk
    import and the synchronizer leave alone; a stored product is here
    the row above together with that column.  A cost profile has the
    columns of 001_initial.sql and 007_cost_profile_dimensions.sql that
    the routes select.  Ids are numbered as for the bulk import, and
    the [:id] of a path is taken as the id it spells. *)

Record catalog_row : Type := mkRow {
  c_product : product;
  c_cost_profile_id : option nat
}.

Definition catalog : Type := list catalog_row.

Record cost_profile : Type := mkProfile {
  cp_id : nat;
  cp_name : string;
  cp_base_cost : option numeric;
  cp_weight : option numeric;
  cp_width : option numeric;
  cp_height : option numeric;
  cp_length : option numeric
}.

(** A row of [SELECT p.*, cp.name as cost_profile_name, ...]. *)
Record product_view : Type := mkView {
  v_row : catalog_row;
  v_cost_profile_name : option string;
  v_effective_base_cost : option numeric;
  v_effective_weight : option numeric;
  v_effective_width : option numeric;
  v_effective_height : option numeric;
  v_effective_length : option numeric;
  v_cost_source : option string
}.

(** A column of the joined profile: NULL when the [LEFT JOIN] found no
    profile. *)
Definition profile_column {A : Type} (f : cost_profile -> option A)
  (cp : option cost_profile) : option A :=
  match cp with
  | Some c => f c
  | None => None
  end.

(** The select list over one product and the profile joined to it. *)
Definition view_of (r : catalog_row) (cp : option cost_profile) : product_view :=
  let p := c_product r in
  {| v_row := r;
     v_cost_profile_name := option_map cp_name cp;
     v_effective_base_cost := coalesce (profile_column cp_base_cost cp) (p_base_cost p);
     v_effective_weight := coalesce (profile_column cp_weight cp) (p_weight p);
     v_effective_width := coalesce (profile_column cp_width cp) (p_width p);
     v_effective_height := coalesce (profile_column cp_height cp) (p_height p);
     v_effective_length := coalesce (profile_column cp_length cp) (p_length p);
     v_cost_source :=
       if negb (is_none (profile_column cp_base_cost cp)) then Some "profile"
       else if negb (is_none (p_base_cost p)) then Some "product"
       else None |}.

(** [products p LEFT JOIN cost_profiles cp ON p.cost_profile_id = cp.id]
    for one product. *)
Definition joined_profiles (profiles : list cost_profile) (r : catalog_row)
  : list product_view :=
  match filter (fun cp => match c_cost_profile_id r with
                          | Some i => i =? cp_id cp
                          | None => false
                          end) profiles with
  | [] => [view_of r None]
  | found => map (fun cp => view_of r (Some cp)) found
  end.

Definition has_id (id : nat) (r : catalog_row) : bool := p_id (c_product r) =? id.

Definition has_name (n : string) (r : catalog_row) : bool :=
  (p_name (c_product r) =? n)%string.

(** The body of [POST /] and [PUT /:id]. *)
Record product_body : Type := mkBody {
  b_name : jsfield string;
  b_category : jsfield string;
  b_base_cost : jsfield numeric;
  b_size : jsfield numeric;
  b_weight : jsfield numeric;
  b_width : jsfield numeric;
  b_height : jsfield numeric;
  b_length : jsfield numeric;
  b_cost_profile_id : jsfield nat;
  b_source : jsfield string;
  b_product_sku : jsfield string
}.

(** The id the store generates for a new row: one no stored row has. *)
Definition next_id (tbl : catalog) : nat :=
  S (fold_right Nat.max 0 (map (fun r => p_id (c_product r)) tbl)).

Section SingleProduct.

(** What the store refuses of a row for reasons the route does not fix. *)
Variable row_rejects : catalog_row -> option string.

(** The error the store raises for a statement that reads or deletes,
    if any. *)
Variable query_error : option string.

(** [ORDER BY p.updated_at DESC]: the store's arrangement of a result. *)
Variable order_views : list product_view -> list product_view.

Variable profiles : list cost_profile.

Variable tnow : timestamp.

(** [GET /] *)
Definition get_products (tbl : catalog) : response (list product_view) :=
  match query_error with
  | Some e => Failure 500 e
  | None => Success 200 (order_views (flat_map (joined_profiles profiles) tbl))
  end.

(** [GET /:id]; [queryOne] takes the first row of the result. *)
Definition get_product (id : nat) (tbl : catalog) : response product_view :=
  match query_error with
  | Some e => Failure 500 e
  | None =>
      match flat_map (joined_profiles profiles) (filter (has_id id) tbl) with
      | [] => Failure 404 "Product not found"
      | product :: _ => Success 200 product
      end
  end.

(** The constraints of the table on a row about to be written under the
    name [n], [others] being the rows it must not collide with: [name]
    UNIQUE, [cost_profile_id] a reference to a stored profile. *)
Definition write_error (n : string) (cost_profile_id : option nat)
  (others : catalog) : option string :=
  if existsb (has_name n) others then
    Some "duplicate key value violates unique constraint"
  else
    match cost_profile_id with
    | Some i =>
        if existsb (fun cp => i =? cp_id cp) profiles then None
        else Some "insert or update violates foreign key constraint"
    | None => None
    end.

(** [name] is NOT NULL.  The error texts here stand for the messages of
    the store; no statement depends on their wording. *)
Definition null_name : string :=
  "null value in column name violates not-null constraint".

(** The row [POST /] inserts under the name [n]: every listed column
    from the body, [source] defaulting to 'manual', the others at their
    defaults. *)
Definition created_row (id : nat) (n : string) (b : product_body) : catalog_row :=
  {| c_product :=
       {| p_id := id;
          p_name := n;
          p_category := to_sql (b_category b);
          p_base_cost := to_sql (b_base_cost b);
          p_size := to_sql (b_size b);
          p_weight := to_sql (b_weight b);
          p_width := to_sql (b_width b);
          p_height := to_sql (b_height b);
          p_length := to_sql (b_length b);
          p_source := Some (or_str (b_source b) "manual");
          p_product_sku := to_sql (b_product_sku b);
          p_parent := None;
          p_default_custom_shipping := None;
          p_default_fbm_source := None;
          p_updated_at := tnow |};
     c_cost_profile_id := to_sql (b_cost_profile_id b) |}.

(** [POST /] *)
Definition post_product (b : product_body) (tbl : catalog)
  : response catalog_row * catalog :=
  match to_sql (b_name b) with
  | None => (Failure 500 null_name, tbl)
  | Some n =>
      match write_error n (to_sql (b_cost_profile_id b)) tbl with
      | Some e => (Failure 500 e, tbl)
      | None =>
          let product := created_row (next_id tbl) n b in
          match row_rejects product with
          | Some e => (Failure 500 e, tbl)
          | None => (Success 201 product, tbl ++ [product])
          end
      end
  end.

(** The [SET] list of [PUT /:id] over the stored row [old]: the ten
    listed columns from the body and [updated_at]; [source], [parent]
    and the default shipping columns are not assigned. *)
Definition updated_row (old : catalog_row) (n : string) (b : product_body)
  : catalog_row :=
  let p := c_product old in
  {| c_product :=
       {| p_id := p_id p;
          p_name := n;
          p_category := to_sql (b_category b);
          p_base_cost := to_sql (b_base_cost b);
          p_size := to_sql (b_size b);
          p_weight := to_sql (b_weight b);
          p_width := to_sql (b_width b);
          p_height := to_sql (b_height b);
          p_length := to_sql (b_length b);
          p_source := p_source p;
          p_product_sku := to_sql (b_product_sku b);
          p_parent := p_parent p;
          p_default_custom_shipping := p_default_custom_shipping p;
          p_default_fbm_source := p_default_fbm_source p;
          p_updated_at := tnow |};
     c_cost_profile_id := to_sql (b_cost_profile_id b) |}.

(** [PUT /:id]: with no row of that id the statement writes nothing and
    checks nothing. *)
Definition put_product (id : nat) (b : product_body) (tbl : catalog)
  : response catalog_row * catalog :=
  match filter (has_id id) tbl with
  | [] => (Failure 404 "Product not found", tbl)
  | old :: _ =>
      match to_sql (b_name b) with
      | None => (Failure 500 null_name, tbl)
      | Some n =>
          match write_error n (to_sql (b_cost_profile_id b))
                  (filter (fun r => negb (has_id id r)) tbl) with
          | Some e => (Failure 500 e, tbl)
          | None =>
              let product := updated_row old n b in
              match row_rejects product with
              | Some e => (Failure 500 e, tbl)
              | None =>
                  (Success 200 product,
                   map (fun r => if has_id id r then updated_row r n b else r)
                     tbl)
              end
          end
      end
  end.

(** [DELETE /:id]; the statement names [products] only, and the
    mappings of the product go with it
    ([product_id ... REFERENCES products(id) ON DELETE CASCADE]). *)
Definition delete_product (id : nat) (tbl : catalog) (mpd : list mapping)
  : response string * catalog * list mapping :=
  match query_error, filter (has_id id) tbl with
  | Some e, _ => (Failure 500 e, tbl, mpd)
  | None, [] => (Failure 404 "Product not found", tbl, mpd)
  | None, _ :: _ =>
      (Success 200 "Product deleted",
       filter (fun r => negb (has_id id r)) tbl,
       filter (fun m => match m_product_id m with
                        | Some i => negb (i =? id)
                        | None => true
                        end) mpd)
  end.

End SingleProduct.

(** An arrangement that leaves the result in storage order. *)
Definition as_stored (views : list product_view) : list product_view := views.

Definition accept_row (r : catalog_row) : option string := None.

(** [{name: "Gadget", base_cost: 4}] *)
Definition gadget_body : product_body :=
  {| b_name := Val "Gadget"; b_category := Undefined; b_base_cost := Val 4%Z;
     b_size := Undefined; b_weight := Undefined; b_width := Undefined;
     b_height := Undefined; b_length := Undefined;
     b_cost_profile_id := Undefined; b_source := Undefined;
     b_product_sku := Undefined |}.


(** ** Catalog summaries: [GET /stats/summary] and [GET /categories] *)

Record stats_summary : Type := mkStats {
  total_products : nat;
  categories_count : nat;
  last_updated : option timestamp
}.

(** The categories of the stored products that are not NULL. *)
Definition stored_categories (tbl : products_table) : list string :=
  flat_map (fun r => option_list (p_category r)) tbl.

(** [MAX(updated_at)]: NULL over no row. *)
Definition latest (tbl : products_table) : option timestamp :=
  match tbl with
  | [] => None
  | r :: rest => Some (fold_right Nat.max (p_updated_at r) (map p_updated_at rest))
  end.

Section Summaries.

(** The error the store raises for the [SELECT], if any. *)
Variable query_error : option string.

(** [ORDER BY category]: the store's arrangement under its collation. *)
Variable order_text : list string -> list string.

(** [COUNT(DISTINCT category)] leaves NULL out and nothing else. *)
Definition get_stats (tbl : products_table) : response stats_summary :=
  match query_error with
  | Some e => Failure 500 e
  | None =>
      Success 200
        {| total_products := List.length tbl;
           categories_count := List.length (nodup string_dec (stored_categories tbl));
           last_updated := latest tbl |}
  end.

(** [SELECT DISTINCT category ... WHERE category IS NOT NULL AND
    category != '' ORDER BY category] *)
Definition get_categories (tbl : products_table) : response (list string) :=
  match query_error with
  | Some e => Failure 500 e
  | None =>
      Success 200
        (order_text
           (nodup string_dec
              (filter (fun c => negb (c =? "")%string) (stored_categories tbl))))
  end.

End Summaries.

(** An arrangement that leaves the result as the store produced it. *)
Definition as_produced (l : list string) : list string := l.

(** [{name: "Kettle", category: "Kitchen"}] *)
Definition kettle : product_input :=
  {| in_name := Val "Kettle"; in_category := Val "Kitchen";
     in_base_cost := Undefined; in_size := Undefined; in_weight := Undefined;
     in_width := Undefined; in_height := Undefined; in_length := Undefined;
     in_source := Undefined; in_product_sku := Undefined;
     in_parent := Undefined |}.


(** ** Category expenses: [GET /category-expenses],
    [GET /category-expenses/find], [POST /category-expenses]

    The three key columns are NOT NULL and UNIQUE together
    (001_initial.sql).  [period_start] and [period_end] are DATE
    columns: the store reads the text sent as a date, and the row holds
    and returns the date, not the text. *)

(** A date, as the days from an epoch. *)
Definition date : Type := Z.

Record expense_values : Type := mkValues {
  ev_selling_fee_percent : option numeric;
  ev_fba_fee_percent : option numeric;
  ev_refund_loss_percent : option numeric;
  ev_vat_percent : option numeric;
  ev_ads_percent : option numeric;
  ev_fba_cost_percent : option numeric;
  ev_fbm_cost_percent : option numeric;
  ev_shipping_cost_percent : option numeric;
  ev_customs_duty_percent : option numeric;
  ev_warehouse_cost_percent : option numeric;
  ev_sample_size : option numeric;
  ev_period_start : option date;
  ev_period_end : option date;
  ev_data_source : option string
}.

Record expense_row : Type := mkExpense {
  e_category : string;
  e_platform : string;
  e_marketplace_code : string;
  e_values : expense_values;
  e_updated_at : timestamp
}.

(** The body of [POST /category-expenses]. *)
Record expense_body : Type := mkExpenseBody {
  eb_category : jsfield string;
  eb_platform : jsfield string;
  eb_marketplace_code : jsfield string;
  eb_selling_fee_percent : jsfield numeric;
  eb_fba_fee_percent : jsfield numeric;
  eb_refund_loss_percent : jsfield numeric;
  eb_vat_percent : jsfield numeric;
  eb_ads_percent : jsfield numeric;
  eb_fba_cost_percent : jsfield numeric;
  eb_fbm_cost_percent : jsfield numeric;
  eb_shipping_cost_percent : jsfield numeric;
  eb_customs_duty_percent : jsfield numeric;
  eb_warehouse_cost_percent : jsfield numeric;
  eb_sample_size : jsfield numeric;
  eb_period_start : jsfield string;
  eb_period_end : jsfield string;
  eb_data_source : jsfield string
}.

(** [category = $1 AND platform = $2 AND marketplace_code = $3]; a NULL
    parameter equals nothing. *)
Definition expense_at (category platform code : option string) (r : expense_row)
  : bool :=
  match category, platform, code with
  | Some c, Some p, Some m =>
      (e_category r =? c)%string && (e_platform r =? p)%string
      && (e_marketplace_code r =? m)%string
  | _, _, _ => false
  end.

Section CategoryExpenses.

(** The store's reading of a text as a date; [None] when it refuses
    the text. *)
Variable date_in : string -> option date.

(** What the store refuses of a row for reasons the route does not fix. *)
Variable expense_rejects : expense_row -> option string.

(** The error the store raises for a [SELECT], if any. *)
Variable query_error : option string.

Variable tnow : timestamp.

(** A date parameter: NULL when the body leaves it out, else the date
    read from the text; [None] when the text is refused. *)
Definition date_parameter (x : jsfield string) : option (option date) :=
  match x with
  | Val s => option_map Some (date_in s)
  | _ => Some None
  end.

(** The parameters [$4] to [$17] as the columns take them: every
    number as sent, the two dates as read, [data_source] defaulting to
    'manual'; [None] when a date is refused. *)
Definition values_of (expense : expense_body) : option expense_values :=
  match date_parameter (eb_period_start expense),
        date_parameter (eb_period_end expense) with
  | Some period_start, Some period_end =>
      Some
        {| ev_selling_fee_percent := to_sql (eb_selling_fee_percent expense);
           ev_fba_fee_percent := to_sql (eb_fba_fee_percent expense);
           ev_refund_loss_percent := to_sql (eb_refund_loss_percent expense);
           ev_vat_percent := to_sql (eb_vat_percent expense);
           ev_ads_percent := to_sql (eb_ads_percent expense);
           ev_fba_cost_percent := to_sql (eb_fba_cost_percent expense);
           ev_fbm_cost_percent := to_sql (eb_fbm_cost_percent expense);
           ev_shipping_cost_percent := to_sql (eb_shipping_cost_percent expense);
           ev_customs_duty_percent := to_sql (eb_customs_duty_percent expense);
           ev_warehouse_cost_percent := to_sql (eb_warehouse_cost_percent expense);
           ev_sample_size := to_sql (eb_sample_size expense);
           ev_period_start := period_start;
           ev_period_end := period_end;
           ev_data_source := Some (or_str (eb_data_source expense) "manual") |}
  | _, _ => None
  end.

(** [GET /category-expenses]: a filter is added for each query parameter
    that is not empty. *)
Definition get_expenses (platform marketplaceCode : jsfield string)
  (tbl : list expense_row) : response (list expense_row) :=
  match query_error with
  | Some e => Failure 500 e
  | None =>
      Success 200
        (filter
           (fun r =>
              (if falsy platform then true
               else (e_platform r =? text_of platform)%string)
              && (if falsy marketplaceCode then true
                  else (e_marketplace_code r =? text_of marketplaceCode)%string))
           tbl)
  end.

(** [GET /category-expenses/find]; [queryOne] gives the first row or
    null. *)
Definition find_expense (category platform marketplaceCode : jsfield string)
  (tbl : list expense_row) : response (option expense_row) :=
  match query_error with
  | Some e => Failure 500 e
  | None =>
      Success 200
        (hd_error
           (filter (expense_at (to_sql category) (to_sql platform)
                      (to_sql marketplaceCode)) tbl))
  end.

(** [POST /category-expenses]: insert, or on a conflict of the key
    replace every value column. *)
Definition post_expense (expense : expense_body) (tbl : list expense_row)
  : response expense_row * list expense_row :=
  match values_of expense with
  | None => (Failure 500 "invalid input syntax for type date", tbl)
  | Some values =>
      match to_sql (eb_category expense), to_sql (eb_platform expense),
            to_sql (eb_marketplace_code expense) with
      | Some c, Some p, Some m =>
          let row :=
            {| e_category := c; e_platform := p; e_marketplace_code := m;
               e_values := values; e_updated_at := tnow |} in
          match expense_rejects row with
          | Some e => (Failure 500 e, tbl)
          | None =>
              if existsb (expense_at (Some c) (Some p) (Some m)) tbl then
                (Success 200 row,
                 map (fun r => if expense_at (Some c) (Some p) (Some m) r then row
                               else r) tbl)
              else (Success 200 row, tbl ++ [row])
          end
      | _, _, _ =>
          (Failure 500 "null value in column violates not-null constraint", tbl)
      end
  end.

End CategoryExpenses.

Definition accept_expense (r : expense_row) : option string := None.

(** A reading of dates that knows the first days of the year 2024,
    counted from 2000-01-01, and refuses every other text. *)
Definition january_2024 (s : string) : option date :=
  if (s =? "2024-01-01")%string then Some 8766%Z
  else if (s =? "2024-01-31")%string then Some 8796%Z
  else None.

(** [{category: "Toys", platform: "amazon", marketplace_code: "US",
    vat_percent: 20, period_start: "2024-01-01",
    period_end: "2024-01-31"}] *)
Definition toys_expense : expense_body :=
  {| eb_category := Val "Toys"; eb_platform := Val "amazon";
     eb_marketplace_code := Val "US";
     eb_selling_fee_percent := Undefined; eb_fba_fee_percent := Undefined;
     eb_refund_loss_percent := Undefined; eb_vat_percent := Val 20%Z;
     eb_ads_percent := Undefined; eb_fba_cost_percent := Undefined;
     eb_fbm_cost_percent := Undefined; eb_shipping_cost_percent := Undefined;
     eb_customs_duty_percent := Undefined; eb_warehouse_cost_percent := Undefined;
     eb_sample_size := Undefined; eb_period_start := Val "2024-01-01";
     eb_period_end := Val "2024-01-31"; eb_data_source := Undefined |}.

(* ================================================================== *)
(** * Properties *)
(* ================================================================== *)

(** ** The insertion-ordered map *)

Section JsMap.
Context {V : Type}.
Implicit Types (m : jsmap V) (k : string) (v : V).



Lemma map_set_fresh k v m :
  ~ In k (map fst m) -> map_set k v m = m ++ [(k, v)].
Proof.
  induction m as [|[k0 v0] rest IH]; simpl; intros Hn; [reflexivity|].
  destruct (k0 =? k)%string eqn:E.
  - apply String.eqb_eq in E. tauto.
  - rewrite IH by tauto. reflexivity.
Qed.

Lemma map_set_keys_present k v m :
  In k (map fst m) -> map fst (map_set k v m) = map fst m.
Proof.
  induction m as [|[k0 v0] rest IH]; simpl; intros Hin; [tauto|].
  destruct (k0 =? k)%string eqn:E; simpl; [reflexivity|].
  apply String.eqb_neq in E. rewrite IH by tauto. reflexivity.
Qed.

Lemma map_set_In k v m x :
  In x (map_set k v m) -> x = (k, v) \/ In x m.
Proof.
  induction m as [|[k0 v0] rest IH]; simpl.
  - intros [<- | []]; auto.
  - destruct (k0 =? k)%string eqn:E; simpl.
    + apply String.eqb_eq in E. subst k0. intros [<- | H]; auto.
    + intros [<- | H]; auto. destruct (IH H); auto.
Qed.

Lemma map_set_NoDup k v m :
  NoDup (map fst m) -> NoDup (map fst (map_set k v m)).
Proof.
  intros Hnd. destruct (in_dec string_dec k (map fst m)) as [Hin | Hout].
  - now rewrite map_set_keys_present.
  - rewrite map_set_fresh, map_app by assumption. simpl.
    apply NoDup_app; [assumption | repeat constructor; simpl; tauto |].
    intros x Hx [<- | []]. tauto.
Qed.
End JsMap.

(** ** Batch Deduplicator *)

Lemma keyed_nil : keyed [].
Proof. split; constructor. Qed.

Lemma dedup_step_keyed m p : keyed m -> keyed (dedup_step m p).
Proof.
  intros [Hnd Hall]. unfold dedup_step. cbv zeta.
  destruct (key_of p =? "")%string eqn:E; [split; assumption|].
  apply String.eqb_neq in E. split.
  - apply map_set_NoDup. assumption.
  - rewrite Forall_forall in *. intros x Hx.
    destruct (map_set_In _ _ _ _ Hx) as [-> | Hin]; simpl; auto.
Qed.

Lemma fold_dedup_keyed products m :
  keyed m -> keyed (fold_left dedup_step products m).
Proof.
  revert m. induction products as [|p rest IH]; intros m Hm; simpl; auto.
  apply IH, dedup_step_keyed, Hm.
Qed.

Lemma productMap_keyed products : keyed (productMap products).
Proof. apply fold_dedup_keyed, keyed_nil. Qed.

Lemma productMap_snoc products p :
  productMap (products ++ [p]) = dedup_step (productMap products) p.
Proof. unfold productMap. rewrite fold_left_app. reflexivity. Qed.






Lemma keyed_values_keys m :
  keyed m -> map key_of (map_values m) = map fst m.
Proof.
  intros [_ Hall]. unfold map_values. rewrite map_map.
  apply map_ext_in. rewrite Forall_forall in Hall.
  intros e He. apply Hall. assumption.
Qed.

(** The canonical keys of the surviving records are pairwise distinct. *)
Lemma dedup_keys_NoDup products : NoDup (map key_of (dedup products)).
Proof.
  unfold dedup. rewrite keyed_values_keys by apply productMap_keyed.
  apply productMap_keyed.
Qed.

Lemma dedup_keys_nonempty products :
  Forall (fun p => key_of p <> "") (dedup products).
Proof.
  unfold dedup, map_values. destruct (productMap_keyed products) as [_ Hall].
  rewrite Forall_forall in *. intros p Hp.
  apply in_map_iff in Hp. destruct Hp as [e [<- He]].
  destruct (Hall e He) as [-> ?]. assumption.
Qed.

Lemma fold_dedup_fresh l :
  forall m,
    NoDup (map key_of l) ->
    Forall (fun p => key_of p <> "") l ->
    (forall p, In p l -> ~ In (key_of p) (map fst m)) ->
    fold_left dedup_step l m = m ++ map (fun p => (key_of p, p)) l.
Proof.
  induction l as [|p rest IH]; intros m Hnd Hne Hdis; simpl.
  - now rewrite app_nil_r.
  - inversion Hnd as [|? ? Hnot Hnd']; subst.
    inversion Hne as [|? ? Hp Hne']; subst.
    assert (Hstep : dedup_step m p = m ++ [(key_of p, p)]).
    { unfold dedup_step. cbv zeta.
      destruct (key_of p =? "")%string eqn:E; [apply String.eqb_eq in E; tauto|].
      apply map_set_fresh, Hdis. simpl. auto. }
    rewrite Hstep, IH; [now rewrite <- app_assoc | assumption | assumption |].
    intros q Hq. rewrite map_app, in_app_iff. simpl.
    intros [Hin | [Heq | []]].
    + apply (Hdis q); simpl; auto.
    + apply Hnot. rewrite Heq. apply in_map. assumption.
Qed.


(** The same beyond ASCII: the key folds every cased letter and trims
    every blank of the runtime, so "ÜRÜN" and "ürün" are one key, and a
    name of no-break spaces has no key. *)
Example dedup_beyond_ascii :
  dedup [just_name "ÜRÜN"; just_name "ürün"; just_name (nbsp ++ nbsp)] =
    [just_name "ürün"] /\
  key_of (just_name ("  İstanbul" ++ nbsp)) = "i̇stanbul" /\
  key_of (just_name "ΟΔΟΣ") = "οδος".
Proof. vm_compute. repeat split. Qed.

(** C8: deduplicating an already deduplicated batch returns it
    unchanged, records and order. *)
Theorem dedup_idempotent :
  forall products : list product_input,
    dedup (dedup products) = dedup products.
Proof.
  intros products. unfold dedup at 1. unfold productMap.
  rewrite fold_dedup_fresh.
  - unfold map_values. simpl. rewrite map_map. simpl. apply map_id.
  - apply dedup_keys_NoDup.
  - apply dedup_keys_nonempty.
  - simpl. tauto.
Qed.

(** The scenario of the specification: of "Widget A" and "widget a "
    the second survives, with its own spelling and its cost. *)
Example dedup_widget_scenario :
  key_of (just_name "Widget A") = key_of widget_a_costed /\
  dedup [just_name "Widget A"; widget_a_costed] = [widget_a_costed].
Proof. split; reflexivity. Qed.

(** ** Chunked Upsert Executor *)

Lemma distinct_NoDup (l : list string) : distinct l = true -> NoDup l.
Proof.
  induction l as [|x rest IH]; simpl; intros H; constructor.
  - apply andb_true_iff in H. destruct H as [H _].
    apply negb_true_iff in H. intros Hin.
    assert (existsb (String.eqb x) rest = true); [|congruence].
    apply existsb_exists. exists x. split; [assumption | apply String.eqb_refl].
  - apply IH. apply andb_true_iff in H. tauto.
Qed.

Lemma NoDup_map_compose {A B C : Type} (g : A -> B) (h : B -> C) (l : list A) :
  NoDup (map (fun a => h (g a)) l) -> NoDup (map g l).
Proof.
  intros H. rewrite <- map_map in H. apply NoDup_map_inv in H. exact H.
Qed.

Lemma key_of_name p : key_of p = canonical (name_of p).
Proof. reflexivity. Qed.

Lemma keyed_record_name p :
  key_of p <> "" -> x_name (proposed_of p) = Some (name_of p).
Proof.
  unfold key_of, name_of. simpl. destruct (in_name p) as [| |s]; simpl;
    try (intros H; exfalso; apply H; reflexivity).
  destruct (s =? "")%string eqn:E; [|reflexivity].
  apply String.eqb_eq in E. subst s. intros H. exfalso. apply H. reflexivity.
Qed.

Lemma dedup_names products :
  map x_name (map proposed_of (dedup products)) =
  map Some (map name_of (dedup products)).
Proof.
  rewrite !map_map. apply map_ext_in. intros p Hp.
  apply keyed_record_name.
  pose proof (dedup_keys_nonempty products) as H.
  rewrite Forall_forall in H. apply H. assumption.
Qed.

Lemma dedup_names_NoDup products : NoDup (map name_of (dedup products)).
Proof.
  apply (NoDup_map_compose name_of canonical). apply dedup_keys_NoDup.
Qed.

Section Upsert.

Variable tnow : timestamp.

Implicit Types (tbl : products_table) (x : proposed) (n : string).

Lemma find_by_name_named n tbl r :
  find_by_name n tbl = Some r -> p_name r = n.
Proof.
  unfold find_by_name. intros H. apply find_some in H.
  destruct H as [_ H]. apply String.eqb_eq in H. exact H.
Qed.

Lemma find_replace_same n new tbl :
  p_name new = n -> find_by_name n tbl <> None ->
  find_by_name n (replace_named n new tbl) = Some new.
Proof.
  intros Hn. unfold find_by_name.
  induction tbl as [|r rest IH]; simpl; [congruence|].
  destruct (named n r) eqn:E; simpl.
  - intros _. unfold named. rewrite Hn, String.eqb_refl. reflexivity.
  - rewrite E. exact IH.
Qed.

Lemma find_replace_other n n' new tbl :
  p_name new = n -> n' <> n ->
  find_by_name n' (replace_named n new tbl) = find_by_name n' tbl.
Proof.
  intros Hn Hne. unfold find_by_name.
  induction tbl as [|r rest IH]; simpl; [reflexivity|].
  destruct (named n r) eqn:E; simpl.
  - unfold named in *. rewrite Hn. apply String.eqb_eq in E. rewrite E.
    destruct (n =? n')%string eqn:E'; [apply String.eqb_eq in E'; congruence|].
    reflexivity.
  - destruct (named n' r); [reflexivity | exact IH].
Qed.

Lemma find_app_absent n tbl r :
  find_by_name n tbl = None ->
  find_by_name n (tbl ++ [r]) = if named n r then Some r else None.
Proof.
  unfold find_by_name. induction tbl as [|r0 rest IH]; simpl; [reflexivity|].
  destruct (named n r0); [congruence | exact IH].
Qed.

Lemma find_app_other n tbl r :
  named n r = false -> find_by_name n (tbl ++ [r]) = find_by_name n tbl.
Proof.
  intros Hr. unfold find_by_name.
  induction tbl as [|r0 rest IH]; simpl; [now rewrite Hr|].
  destruct (named n r0); [reflexivity | exact IH].
Qed.

Lemma upsert_row_flag tbl n x :
  snd (upsert_row tnow tbl n x) = is_none (find_by_name n tbl).
Proof. unfold upsert_row. destruct (find_by_name n tbl); reflexivity. Qed.

Lemma upsert_row_same tbl n x :
  exists id,
    find_by_name n (fst (upsert_row tnow tbl n x)) =
    Some (upserted tnow id tbl n x).
Proof.
  exists (fresh_id tbl).
  unfold upsert_row, upserted. destruct (find_by_name n tbl) as [old|] eqn:E; simpl.
  - apply find_replace_same; [|congruence].
    simpl. eapply find_by_name_named. eassumption.
  - rewrite find_app_absent by assumption. unfold named. simpl.
    now rewrite String.eqb_refl.
Qed.

Lemma upsert_row_other tbl n n' x :
  n' <> n ->
  find_by_name n' (fst (upsert_row tnow tbl n x)) = find_by_name n' tbl.
Proof.
  intros Hne. unfold upsert_row. destruct (find_by_name n tbl) as [old|] eqn:E; simpl.
  - apply find_replace_other; [|assumption].
    simpl. eapply find_by_name_named. eassumption.
  - apply find_app_other. unfold named. simpl.
    destruct (n =? n')%string eqn:E'; [apply String.eqb_eq in E'; congruence|].
    reflexivity.
Qed.

(** *** A statement as a fold over its rows *)

Lemma fold_upsert_flags rows : forall tbl flags,
  fold_left (upsert_next tnow) rows (tbl, flags) =
  (fst (apply_rows tnow rows tbl), flags ++ snd (apply_rows tnow rows tbl)).
Proof.
  unfold apply_rows.
  induction rows as [|x rest IH]; intros tbl flags; simpl.
  - now rewrite app_nil_r.
  - unfold upsert_next at 2 4 6. simpl.
    destruct (x_name x) as [n|]; [|apply IH].
    destruct (upsert_row tnow tbl n x) as [tbl1 b].
    rewrite (IH tbl1 (flags ++ [b])), (IH tbl1 [b]). simpl.
    now rewrite <- app_assoc.
Qed.

Lemma apply_rows_cons x n rest tbl :
  x_name x = Some n ->
  apply_rows tnow (x :: rest) tbl =
  (fst (apply_rows tnow rest (fst (upsert_row tnow tbl n x))),
   is_none (find_by_name n tbl)
     :: snd (apply_rows tnow rest (fst (upsert_row tnow tbl n x)))).
Proof.
  intros Hn. unfold apply_rows at 1. simpl. unfold upsert_next at 2.
  rewrite Hn. simpl. rewrite <- (upsert_row_flag tbl n x).
  destruct (upsert_row tnow tbl n x) as [tbl1 b]. simpl.
  apply fold_upsert_flags.
Qed.

Lemma apply_rows_app rows1 rows2 tbl :
  apply_rows tnow (rows1 ++ rows2) tbl =
  (fst (apply_rows tnow rows2 (fst (apply_rows tnow rows1 tbl))),
   snd (apply_rows tnow rows1 tbl)
     ++ snd (apply_rows tnow rows2 (fst (apply_rows tnow rows1 tbl)))).
Proof.
  unfold apply_rows at 1. rewrite fold_left_app.
  fold (apply_rows tnow rows1 tbl).
  destruct (apply_rows tnow rows1 tbl) as [tbl1 flags1]. simpl.
  apply fold_upsert_flags.
Qed.

Lemma apply_rows_other rows : forall ns tbl n,
  map x_name rows = map Some ns -> ~ In n ns ->
  find_by_name n (fst (apply_rows tnow rows tbl)) = find_by_name n tbl.
Proof.
  induction rows as [|x rest IH]; intros ns tbl n Hns Hn; [reflexivity|].
  destruct ns as [|m ns']; [discriminate|]. simpl in Hns.
  injection Hns as Hx Hrest.
  rewrite (apply_rows_cons x m) by assumption. simpl.
  rewrite (IH ns') by (simpl in Hn; tauto).
  apply upsert_row_other. simpl in Hn. intros ->. tauto.
Qed.

Lemma upserted_ext id tbl tbl' n x :
  find_by_name n tbl' = find_by_name n tbl ->
  upserted tnow id tbl' n x = upserted tnow id tbl n x.
Proof. unfold upserted. intros ->. reflexivity. Qed.

(** Each proposed row of a statement with pairwise distinct names is
    applied once, to the row stored under its name before the
    statement. *)
Lemma apply_rows_in rows : forall ns tbl x n,
  map x_name rows = map Some ns -> NoDup ns ->
  In x rows -> x_name x = Some n ->
  exists id,
    find_by_name n (fst (apply_rows tnow rows tbl)) =
    Some (upserted tnow id tbl n x).
Proof.
  induction rows as [|y rest IH]; intros ns tbl x n Hns Hnd Hin Hx; [destruct Hin|].
  destruct ns as [|m ns']; [discriminate|]. simpl in Hns.
  injection Hns as Hy Hrest.
  apply NoDup_cons_iff in Hnd. destruct Hnd as [Hm Hnd].
  rewrite (apply_rows_cons y m) by assumption. simpl.
  destruct Hin as [-> | Hin].
  - assert (n = m) by congruence. subst m.
    rewrite (apply_rows_other rest ns') by assumption.
    apply upsert_row_same.
  - assert (Hnin : In n ns').
    { apply (in_map x_name) in Hin. rewrite Hrest, Hx in Hin.
      apply in_map_iff in Hin. destruct Hin as [n' [Heq Hin]]. congruence. }
    assert (Hne : n <> m) by (intros ->; tauto).
    destruct (IH ns' (fst (upsert_row tnow tbl m y)) x n Hrest Hnd Hin Hx)
      as [id Hid].
    exists id. rewrite Hid. f_equal. apply upserted_ext.
    apply upsert_row_other. assumption.
Qed.

(** The flags a statement returns say, row by row, whether the name
    was absent from the table before the statement. *)
Lemma apply_rows_flags rows : forall ns tbl,
  map x_name rows = map Some ns -> NoDup ns ->
  snd (apply_rows tnow rows tbl) =
  map (fun n => is_none (find_by_name n tbl)) ns.
Proof.
  induction rows as [|x rest IH]; intros ns tbl Hns Hnd.
  - destruct ns; [reflexivity | discriminate].
  - destruct ns as [|m ns']; [discriminate|]. simpl in Hns.
    injection Hns as Hx Hrest.
    apply NoDup_cons_iff in Hnd. destruct Hnd as [Hm Hnd].
    rewrite (apply_rows_cons x m) by assumption. simpl. f_equal.
    rewrite (IH ns') by assumption.
    apply map_ext_in. intros n Hn. f_equal.
    apply upsert_row_other. intros ->. tauto.
Qed.

Lemma filter_flags_total (l : list bool) :
  List.length (filter (fun b : bool => b) l) + List.length (filter negb l) =
  List.length l.
Proof. induction l as [|[|] rest IH]; simpl; lia. Qed.

Lemma filter_flags_length (l : list bool) :
  List.length l - List.length (filter (fun b : bool => b) l) =
  List.length (filter negb l).
Proof. pose proof (filter_flags_total l). lia. Qed.

End Upsert.

Section ChunkLoop.

Variable store_rejects : list proposed -> option string.
Variable tnow : timestamp.

Implicit Types (tbl : products_table).

(** *** The chunk loop *)

Lemma BATCH_SIZE_pos : 0 < BATCH_SIZE.
Proof. unfold BATCH_SIZE. lia. Qed.

Lemma slice_chunk {A : Type} i (l : list A) :
  slice i (i + BATCH_SIZE) l = firstn BATCH_SIZE (skipn i l).
Proof. unfold slice. f_equal. lia. Qed.

Lemma skipn_chunk {A : Type} i (l : list A) :
  skipn i l = firstn BATCH_SIZE (skipn i l) ++ skipn (i + BATCH_SIZE) l.
Proof.
  rewrite <- (firstn_skipn BATCH_SIZE (skipn i l)) at 1. f_equal.
  rewrite skipn_skipn. f_equal. lia.
Qed.

Lemma firstn_plus {A : Type} (c d : nat) : forall l : list A,
  firstn (c + d) l = firstn c l ++ firstn d (skipn c l).
Proof.
  induction c as [|c IH]; intros l; [reflexivity|].
  destruct l as [|a l]; simpl.
  - now rewrite firstn_nil.
  - now rewrite IH.
Qed.

Lemma apply_rows_nil tbl : apply_rows tnow [] tbl = (tbl, []).
Proof. reflexivity. Qed.

(** With fuel enough, a loop that ends without an error has applied
    every remaining record, and its totals count the flags. *)
Lemma bulk_loop_success unique : forall fuel i tbl a u c tbl',
  List.length unique <= fuel + i ->
  bulk_loop store_rejects tnow fuel i unique tbl a u = (inr c, tbl') ->
  let out := apply_rows tnow (map proposed_of (skipn i unique)) tbl in
  tbl' = fst out /\
  added c = a + List.length (filter (fun b : bool => b) (snd out)) /\
  updated c = u + List.length (filter negb (snd out)).
Proof.
  pose proof BATCH_SIZE_pos as HB.
  induction fuel as [|fuel IH]; intros i tbl a u c tbl' Hfuel Hrun;
    cbn [bulk_loop] in Hrun.
  - rewrite skipn_all2 by lia. injection Hrun as <- <-. simpl.
    repeat split; lia.
  - destruct (i <? List.length unique) eqn:Hi.
    + rewrite slice_chunk in Hrun. unfold upsert_statement in Hrun.
      destruct (statement_error store_rejects
                  (map proposed_of (firstn BATCH_SIZE (skipn i unique))));
        [discriminate|].
      destruct (apply_rows tnow
                  (map proposed_of (firstn BATCH_SIZE (skipn i unique))) tbl)
        as [tbl1 result] eqn:Hchunk.
      apply IH in Hrun; [|lia]. destruct Hrun as (Ht & Ha & Hu).
      cbv zeta. rewrite (skipn_chunk i unique), map_app, apply_rows_app, Hchunk.
      simpl. rewrite !filter_app, !length_app.
      rewrite filter_flags_length in Hu.
      split; [assumption | split; lia].
    + apply Nat.ltb_ge in Hi. rewrite skipn_all2 by lia.
      injection Hrun as <- <-. simpl. repeat split; lia.
Qed.

(** The first failing chunk ends the loop with its error; the table
    is the one the chunks before it produced. *)
Lemma bulk_loop_failure unique e : forall k fuel i tbl a u,
  k < fuel ->
  i + k * BATCH_SIZE < List.length unique ->
  (forall j, j < k ->
     statement_error store_rejects
       (map proposed_of
          (slice (i + j * BATCH_SIZE) (i + j * BATCH_SIZE + BATCH_SIZE) unique))
     = None) ->
  statement_error store_rejects
    (map proposed_of
       (slice (i + k * BATCH_SIZE) (i + k * BATCH_SIZE + BATCH_SIZE) unique))
  = Some e ->
  bulk_loop store_rejects tnow fuel i unique tbl a u =
  (inl e,
   fst (apply_rows tnow
          (map proposed_of (firstn (k * BATCH_SIZE) (skipn i unique))) tbl)).
Proof.
  induction k as [|k IH]; intros fuel i tbl a u Hfuel Hlen Hok Hbad;
    (destruct fuel as [|fuel]; [lia|]); cbn [bulk_loop].
  - rewrite Nat.mul_0_l, Nat.add_0_r in *.
    replace (i <? List.length unique) with true
      by (symmetry; apply Nat.ltb_lt; assumption).
    unfold upsert_statement. rewrite Hbad. reflexivity.
  - replace (i <? List.length unique) with true
      by (symmetry; apply Nat.ltb_lt; lia).
    pose proof (Hok 0 (Nat.lt_0_succ k)) as H0.
    rewrite Nat.mul_0_l, Nat.add_0_r in H0.
    unfold upsert_statement. rewrite H0. rewrite slice_chunk.
    destruct (apply_rows tnow
                (map proposed_of (firstn BATCH_SIZE (skipn i unique))) tbl)
      as [tbl1 result] eqn:Hchunk.
    rewrite (IH fuel (i + BATCH_SIZE) tbl1).
    + f_equal.
      replace (S k * BATCH_SIZE) with (BATCH_SIZE + k * BATCH_SIZE) by lia.
      rewrite firstn_plus, map_app, apply_rows_app, Hchunk. cbn [fst snd].
      rewrite skipn_skipn.
      replace (BATCH_SIZE + i) with (i + BATCH_SIZE) by lia. reflexivity.
    + lia.
    + lia.
    + intros j Hj.
      replace (i + BATCH_SIZE + j * BATCH_SIZE) with (i + S j * BATCH_SIZE) by lia.
      apply Hok. lia.
    + replace (i + BATCH_SIZE + k * BATCH_SIZE) with (i + S k * BATCH_SIZE) by lia.
      assumption.
Qed.

End ChunkLoop.

(** *** The keys that survive deduplication *)

Lemma map_set_keys {V : Type} (k k' : string) (v : V) (m : jsmap V) :
  In k' (map fst (map_set k v m)) <-> k' = k \/ In k' (map fst m).
Proof.
  induction m as [|[k0 v0] rest IH]; simpl.
  - intuition congruence.
  - destruct (k0 =? k)%string eqn:E; simpl.
    + apply String.eqb_eq in E. subst k0. intuition congruence.
    + rewrite IH. intuition congruence.
Qed.

Lemma fold_dedup_keys k l : forall m,
  In k (map fst (fold_left dedup_step l m)) <->
  In k (map fst m) \/ (k <> "" /\ In k (map key_of l)).
Proof.
  induction l as [|p rest IH]; intros m; simpl; [tauto|].
  rewrite IH. unfold dedup_step. cbv zeta.
  destruct (key_of p =? "")%string eqn:E.
  - apply String.eqb_eq in E. intuition congruence.
  - apply String.eqb_neq in E. rewrite map_set_keys. intuition congruence.
Qed.

Lemma dedup_distinct_keys products k :
  In k (map key_of (dedup products)) <-> In k (distinct_keys products).
Proof.
  unfold dedup, distinct_keys.
  rewrite keyed_values_keys by apply productMap_keyed.
  unfold productMap. rewrite fold_dedup_keys, nodup_In, filter_In. simpl.
  rewrite negb_true_iff, String.eqb_neq. tauto.
Qed.

Lemma dedup_length products :
  List.length (dedup products) = List.length (distinct_keys products).
Proof.
  rewrite <- (length_map key_of (dedup products)).
  apply Nat.le_antisymm; apply NoDup_incl_length.
  - apply dedup_keys_NoDup.
  - intros k. apply dedup_distinct_keys.
  - apply NoDup_nodup.
  - intros k. apply dedup_distinct_keys.
Qed.

Lemma filter_map_length {A B : Type} (f : B -> bool) (g : A -> B) (l : list A) :
  List.length (filter f (map g l)) = List.length (filter (fun a => f (g a)) l).
Proof.
  induction l as [|a rest IH]; simpl; [reflexivity|].
  destruct (f (g a)); simpl; now rewrite IH.
Qed.

(** A request that ends without an error has applied every surviving
    record to the table, in order. *)
Lemma post_bulk_success store_rejects tnow products tbl st c tbl' :
  post_bulk store_rejects tnow (Some products) tbl = (Success st c, tbl') ->
  let out := apply_rows tnow (map proposed_of (dedup products)) tbl in
  tbl' = fst out /\
  added c = List.length (filter (fun b : bool => b) (snd out)) /\
  updated c = List.length (filter negb (snd out)).
Proof.
  destruct products as [|p rest].
  - simpl. intros H. injection H as _ <- <-. repeat split.
  - unfold post_bulk.
    destruct (bulk_loop store_rejects tnow (List.length (dedup (p :: rest))) 0
                (dedup (p :: rest)) tbl 0 0) as [[e | c'] tbl1] eqn:Hloop;
      [discriminate|].
    intros H. injection H as _ <- <-.
    apply bulk_loop_success in Hloop; [|lia]. exact Hloop.
Qed.


(** The scenario of the specification on an empty table: one product is
    stored, under the name as the last occurrence spells it, with
    [base_cost = 5]. *)
Example bulk_widget_scenario :
  exists r,
    post_bulk accept_all 7 (Some [just_name "Widget A"; widget_a_costed]) [] =
      (Success 201 (mkCounts 1 0), [r]) /\
    p_name r = "widget a " /\ p_base_cost r = Some 5%Z /\
    p_source r = Some "csv".
Proof. eexists. split; [reflexivity|]. repeat split. Qed.

(** The stored row that a surviving record meets is replaced by the
    merge of the two. *)
Lemma bulk_merges_stored_row store_rejects tnow products tbl st c tbl' I R :
  post_bulk store_rejects tnow (Some products) tbl = (Success st c, tbl') ->
  In I (dedup products) ->
  find_by_name (name_of I) tbl = Some R ->
  find_by_name (name_of I) tbl' =
  Some (on_conflict_update tnow R (proposed_of I)).
Proof.
  intros Hrun HI HR. apply post_bulk_success in Hrun. cbv zeta in Hrun.
  destruct Hrun as (-> & _).
  destruct (apply_rows_in tnow (map proposed_of (dedup products))
              (map name_of (dedup products)) tbl (proposed_of I) (name_of I))
    as [id Hid].
  - apply dedup_names.
  - apply dedup_names_NoDup.
  - apply in_map. assumption.
  - apply keyed_record_name.
    pose proof (dedup_keys_nonempty products) as H.
    rewrite Forall_forall in H. apply H. assumption.
  - rewrite Hid. unfold upserted. rewrite HR. reflexivity.
Qed.

Lemma fallback_rule_coalesce {A : Type} (i : jsfield A) (stored : option A) :
  fallback_rule i stored (coalesce (nullish i) stored).
Proof. destruct i; reflexivity. Qed.

(** C3: let [R] be the stored product whose name is that of an incoming
    record [I] that the import applies.  After the import the row of
    that name is still the row [R] was (same id, same name), and each
    of [base_cost], [size], [weight], [width], [height], [length],
    [product_sku] and [parent] keeps the value of [R] when the field of
    [I] is null or absent, and has the value of [I] otherwise. *)
Theorem bulk_fallback_fields :
  forall store_rejects tnow products tbl st c tbl' I R,
    post_bulk store_rejects tnow (Some products) tbl = (Success st c, tbl') ->
    In I (dedup products) ->
    find_by_name (name_of I) tbl = Some R ->
    exists R',
      find_by_name (name_of I) tbl' = Some R' /\
      p_id R' = p_id R /\ p_name R' = p_name R /\
      fallback_rule (in_base_cost I) (p_base_cost R) (p_base_cost R') /\
      fallback_rule (in_size I) (p_size R) (p_size R') /\
      fallback_rule (in_weight I) (p_weight R) (p_weight R') /\
      fallback_rule (in_width I) (p_width R) (p_width R') /\
      fallback_rule (in_height I) (p_height R) (p_height R') /\
      fallback_rule (in_length I) (p_length R) (p_length R') /\
      fallback_rule (in_product_sku I) (p_product_sku R) (p_product_sku R') /\
      fallback_rule (in_parent I) (p_parent R) (p_parent R').
Proof.
  intros store_rejects tnow products tbl st c tbl' I R Hrun HI HR.
  exists (on_conflict_update tnow R (proposed_of I)).
  split; [eapply bulk_merges_stored_row; eassumption|].
  simpl. repeat split; apply fallback_rule_coalesce.
Qed.

Lemma bulk_fallback_fields_witness :
  exists R',
    find_by_name "Widget"
      (snd (post_bulk accept_all 7 (Some [widget_update]) [widget_stored]))
    = Some R' /\
    p_id R' = 1 /\ p_name R' = "Widget" /\
    p_base_cost R' = Some 5%Z /\
    p_size R' = Some 10%Z /\
    p_weight R' = None /\ p_width R' = None /\ p_height R' = None /\
    p_length R' = None /\
    p_product_sku R' = Some "W-1" /\
    p_parent R' = None.
Proof.
  exact (bulk_fallback_fields accept_all 7 [widget_update] [widget_stored] 201
           (mkCounts 0 1)
           (snd (post_bulk accept_all 7 (Some [widget_update]) [widget_stored]))
           widget_update widget_stored
           eq_refl (or_introl eq_refl) eq_refl).
Defined.

(** C5, as the code has it: the stored category of [R] is replaced by
    the category of the incoming record [I] in every case; a category
    that is absent from [I] is sent as null and erases the stored one
    just as an explicit null does. *)
Theorem bulk_category_follows_incoming :
  forall store_rejects tnow products tbl st c tbl' I R,
    post_bulk store_rejects tnow (Some products) tbl = (Success st c, tbl') ->
    In I (dedup products) ->
    find_by_name (name_of I) tbl = Some R ->
    exists R',
      find_by_name (name_of I) tbl' = Some R' /\
      p_category R' =
        match in_category I with
        | Val v => Some v
        | Null => None
        | Undefined => None
        end.
Proof.
  intros store_rejects tnow products tbl st c tbl' I R Hrun HI HR.
  exists (on_conflict_update tnow R (proposed_of I)).
  split; [eapply bulk_merges_stored_row; eassumption|].
  simpl. destruct (in_category I); reflexivity.
Qed.

Lemma bulk_category_follows_incoming_witness :
  exists R',
    find_by_name "Widget"
      (snd (post_bulk accept_all 7 (Some [widget_update]) [widget_stored]))
    = Some R' /\
    p_category R' = None.
Proof.
  exact (bulk_category_follows_incoming accept_all 7 [widget_update]
           [widget_stored] 201 (mkCounts 0 1)
           (snd (post_bulk accept_all 7 (Some [widget_update]) [widget_stored]))
           widget_update widget_stored
           eq_refl (or_introl eq_refl) eq_refl).
Defined.

(** C5 as stated fails: the product "Widget" is stored with category
    "Toys"; importing [{name: "Widget", base_cost: 5, size: null}],
    which has no [category], leaves it with category NULL. *)
Lemma bulk_absent_category_erases : ~ category_kept_unless_present.
Proof.
  intros H.
  specialize (H accept_all 7 [widget_update] [widget_stored] 201 (mkCounts 0 1)
                (snd (post_bulk accept_all 7 (Some [widget_update]) [widget_stored]))
                widget_update widget_stored
                (on_conflict_update 7 widget_stored (proposed_of widget_update))
                eq_refl (or_introl eq_refl) eq_refl eq_refl eq_refl).
  discriminate H.
Qed.

(** C4, as the code has it: when the statement of chunk [k] (counted
    from 0) is the first to fail, with error [e], the response is a 500
    that carries [e] and nothing else, and the table is the one the
    chunks before [k] left: their rows stay, no row of chunk [k] or of a
    later chunk is applied. *)
Theorem bulk_failure_keeps_earlier_chunks :
  forall store_rejects tnow products tbl k e,
    k * BATCH_SIZE < List.length (dedup products) ->
    (forall j, j < k ->
       statement_error store_rejects (chunk_rows j (dedup products)) = None) ->
    statement_error store_rejects (chunk_rows k (dedup products)) = Some e ->
    post_bulk store_rejects tnow (Some products) tbl =
    (Failure 500 e,
     fst (apply_rows tnow (rows_before k (dedup products)) tbl)).
Proof.
  intros store_rejects tnow products tbl k e Hlen Hok Hbad.
  destruct products as [|p rest]; [simpl in Hlen; lia|].
  unfold post_bulk.
  rewrite (bulk_loop_failure store_rejects tnow (dedup (p :: rest)) e k);
    try assumption.
  - reflexivity.
  - pose proof BATCH_SIZE_pos. nia.
Qed.

(** A request of 501 records whose last record the store refuses, sent
    to an empty table: the statement of chunk 0 is accepted, that of
    chunk 1 fails, and the 500 rows of chunk 0 stay. *)
Lemma bulk_failure_keeps_earlier_chunks_witness :
  post_bulk varchar_limits 7 (Some failing_batch) [] =
    (Failure 500 "value too long for type character varying(100)",
     fst (apply_rows 7 (rows_before 1 (dedup failing_batch)) [])) /\
  List.length (fst (apply_rows 7 (rows_before 1 (dedup failing_batch)) [])) = 500.
Proof.
  split.
  - apply (bulk_failure_keeps_earlier_chunks varchar_limits 7 failing_batch [] 1).
    + apply Nat.ltb_lt. vm_compute. reflexivity.
    + intros j Hj. assert (j = 0) as -> by lia. vm_compute. reflexivity.
    + vm_compute. reflexivity.
  - vm_compute. reflexivity.
Defined.

(** C4 as stated fails.  A request of 501 records whose last record the
    store refuses: the first chunk of 500 is committed, and the response
    is the bare error.  Sent to an empty table the first chunk adds 500
    rows; sent to a table that holds them it updates 500; the response
    is the same and carries no count in either case. *)
Lemma bulk_failure_reports_no_counts :
  let alone := post_bulk varchar_limits 7 (Some full_chunk) [] in
  let failed := post_bulk varchar_limits 7 (Some failing_batch) [] in
  let alone' := post_bulk varchar_limits 8 (Some full_chunk) (snd alone) in
  let failed' := post_bulk varchar_limits 8 (Some failing_batch) (snd alone) in
  List.length (dedup failing_batch) = 501 /\
  fst alone = Success 201 (mkCounts 500 0) /\
  fst failed = Failure 500 "value too long for type character varying(100)" /\
  reported (fst failed) = None /\
  List.length (snd failed) = 500 /\
  fst alone' = Success 201 (mkCounts 0 500) /\
  fst failed' = fst failed.
Proof.
  vm_compute. intuition reflexivity.
Qed.

(** ** Missing-Reference Ingester *)

Lemma rows_with_key_same_key r tbl :
  rows_with_key (s_sku r) (s_marketplace r) (s_country_code r) tbl =
  filter (same_key r) tbl.
Proof. reflexivity. Qed.

Lemma key_taken_rows r tbl :
  key_taken r tbl = false <->
  rows_with_key (s_sku r) (s_marketplace r) (s_country_code r) tbl = [].
Proof.
  rewrite rows_with_key_same_key. unfold key_taken.
  induction tbl as [|x rest IH]; simpl; [tauto|].
  destruct (same_key r x); simpl; [split; discriminate | exact IH].
Qed.

Lemma insert_one r tbl :
  insert_do_nothing [r] tbl =
  if key_taken r tbl then (tbl, []) else (tbl ++ [r], [r]).
Proof. simpl. destruct (key_taken r tbl); reflexivity. Qed.

Lemma falsy_text x : falsy x = false -> x = Val (text_of x) /\ text_of x <> "".
Proof.
  destruct x as [| |s]; simpl; try discriminate.
  unfold text_of. simpl. intros H. rewrite H.
  apply String.eqb_neq in H. auto.
Qed.

Section Ingester.

Variable sku_rejects : list sku_row -> option string.
Variable tnow : timestamp.

(** An entry that passes the guard and whose key is stored is
    skipped, and the table is not written. *)
Lemma missing_loop_existing e rest tbl a s :
  falsy (si_sku e) = false -> falsy (si_marketplace e) = false ->
  sku_rejects [placeholder tnow e] = None ->
  key_taken (placeholder tnow e) tbl = true ->
  missing_loop sku_rejects tnow (e :: rest) tbl a s =
  missing_loop sku_rejects tnow rest tbl a (S s).
Proof.
  intros Hs Hm Hok Hkey. cbn [missing_loop]. rewrite Hs, Hm. cbn [orb].
  unfold insert_statement. rewrite Hok, insert_one, Hkey. reflexivity.
Qed.

Lemma missing_loop_fresh e rest tbl a s :
  falsy (si_sku e) = false -> falsy (si_marketplace e) = false ->
  sku_rejects [placeholder tnow e] = None ->
  key_taken (placeholder tnow e) tbl = false ->
  missing_loop sku_rejects tnow (e :: rest) tbl a s =
  missing_loop sku_rejects tnow rest (tbl ++ [placeholder tnow e]) (S a) s.
Proof.
  intros Hs Hm Hok Hkey. cbn [missing_loop]. rewrite Hs, Hm. cbn [orb].
  unfold insert_statement. rewrite Hok, insert_one, Hkey. reflexivity.
Qed.

(** The loop only appends: the table it leaves is the one it found
    followed by the placeholders of entries that passed the guard;
    when it ends without an error, [added] counts the appended rows
    and every entry is counted once. *)
Lemma missing_loop_appends skus : forall tbl a s out tbl',
  missing_loop sku_rejects tnow skus tbl a s = (out, tbl') ->
  exists new,
    tbl' = tbl ++ new /\
    (forall r, In r new ->
       exists e, In e skus /\ falsy (si_sku e) = false /\
                 falsy (si_marketplace e) = false /\ r = placeholder tnow e) /\
    (forall a' s', out = inr (a', s') ->
       a' = a + List.length new /\
       a' + s' = a + s + List.length skus).
Proof.
  induction skus as [|e rest IH]; intros tbl a s out tbl' Hrun.
  - simpl in Hrun. injection Hrun as <- <-. exists []. rewrite app_nil_r.
    split; [reflexivity|]. split; [intros r []|].
    intros a' s' H. injection H as <- <-. simpl. lia.
  - cbn [missing_loop] in Hrun.
    destruct (falsy (si_sku e) || falsy (si_marketplace e)) eqn:Hguard.
    + apply IH in Hrun. destruct Hrun as (new & Ht & Hnew & Hcount).
      exists new. split; [assumption|]. split.
      * intros r Hr. destruct (Hnew r Hr) as (e' & He' & Hrest).
        exists e'. split; [right; assumption | assumption].
      * intros a' s' H. specialize (Hcount a' s' H). simpl. lia.
    + apply orb_false_iff in Hguard. destruct Hguard as [Hs Hm].
      unfold insert_statement in Hrun.
      destruct (sku_rejects [placeholder tnow e]).
      * injection Hrun as <- <-. exists []. rewrite app_nil_r.
        split; [reflexivity|]. split; [intros r []|]. discriminate.
      * rewrite insert_one in Hrun.
        destruct (key_taken (placeholder tnow e) tbl); cbn in Hrun.
        -- apply IH in Hrun. destruct Hrun as (new & Ht & Hnew & Hcount).
           exists new. split; [assumption|]. split.
           ++ intros r Hr. destruct (Hnew r Hr) as (e' & He' & Hrest).
              exists e'. split; [right; assumption | assumption].
           ++ intros a' s' H. specialize (Hcount a' s' H). simpl. lia.
        -- apply IH in Hrun. destruct Hrun as (new & Ht & Hnew & Hcount).
           exists (placeholder tnow e :: new).
           split; [rewrite Ht, <- app_assoc; reflexivity|]. split.
           ++ intros r [<- | Hr].
              ** exists e. simpl. auto.
              ** destruct (Hnew r Hr) as (e' & He' & Hrest).
                 exists e'. split; [right; assumption | assumption].
           ++ intros a' s' H. specialize (Hcount a' s' H). simpl. lia.
Qed.

(** In a loop that ends without an error, an entry that passes the
    guard, whose key is free in the table and is the key of no earlier
    entry, has its placeholder appended. *)
Lemma missing_loop_inserts pre : forall e post tbl a s a' s' tbl',
  missing_loop sku_rejects tnow (pre ++ e :: post) tbl a s = (inr (a', s'), tbl') ->
  falsy (si_sku e) = false -> falsy (si_marketplace e) = false ->
  key_taken (placeholder tnow e) tbl = false ->
  key_taken (placeholder tnow e) (map (placeholder tnow) pre) = false ->
  exists new1 new2, tbl' = tbl ++ new1 ++ placeholder tnow e :: new2.
Proof.
  induction pre as [|x pre' IH]; intros e post tbl a s a' s' tbl' Hrun Hs Hm Hfree Hfirst.
  - cbn [app] in Hrun.
    destruct (sku_rejects [placeholder tnow e]) eqn:Hok.
    + cbn [missing_loop] in Hrun. rewrite Hs, Hm in Hrun. cbn [orb] in Hrun.
      unfold insert_statement in Hrun. rewrite Hok in Hrun. discriminate.
    + rewrite (missing_loop_fresh e post tbl a s Hs Hm Hok Hfree) in Hrun.
      destruct (missing_loop_appends _ _ _ _ _ _ Hrun) as (new & -> & _).
      exists [], new. now rewrite <- app_assoc.
  - cbn [map] in Hfirst. unfold key_taken in Hfirst. cbn [existsb] in Hfirst.
    apply orb_false_iff in Hfirst. destruct Hfirst as [Hx Hfirst].
    cbn [app missing_loop] in Hrun.
    destruct (falsy (si_sku x) || falsy (si_marketplace x)).
    + eapply IH; eassumption.
    + unfold insert_statement in Hrun.
      destruct (sku_rejects [placeholder tnow x]); [discriminate|].
      rewrite insert_one in Hrun.
      destruct (key_taken (placeholder tnow x) tbl); cbn in Hrun.
      * eapply IH; eassumption.
      * assert (Hfree' : key_taken (placeholder tnow e)
                           (tbl ++ [placeholder tnow x]) = false).
        { unfold key_taken. rewrite existsb_app. cbn [existsb].
          unfold key_taken in Hfree. rewrite Hfree, Hx. reflexivity. }
        destruct (IH e post _ _ _ _ _ _ Hrun Hs Hm Hfree' Hfirst)
          as (new1 & new2 & ->).
        exists (placeholder tnow x :: new1), new2.
        now rewrite <- app_assoc.
Qed.

End Ingester.

Lemma same_key_shared r x y :
  same_key r x = true -> same_key r y = same_key x y.
Proof.
  unfold same_key. intros H.
  apply andb_true_iff in H. destruct H as [H Hc].
  apply andb_true_iff in H. destruct H as [Hs Hm].
  apply String.eqb_eq in Hs, Hm, Hc. now rewrite Hs, Hm, Hc.
Qed.

Lemma unique_keys_insert x tbl :
  key_taken x tbl = false ->
  (forall r, List.length (filter (same_key r) tbl) <= 1) ->
  forall r, List.length (filter (same_key r) (tbl ++ [x])) <= 1.
Proof.
  intros Hfree Huniq r. rewrite filter_app, length_app. simpl.
  destruct (same_key r x) eqn:E; simpl.
  - rewrite (filter_ext _ _ (fun y => same_key_shared r x y E)).
    apply key_taken_rows in Hfree. rewrite rows_with_key_same_key in Hfree.
    rewrite Hfree. simpl. lia.
  - specialize (Huniq r). lia.
Qed.

(** The loop keeps the keys of the table unique. *)
Lemma missing_loop_unique sku_rejects tnow skus : forall tbl a s out tbl',
  missing_loop sku_rejects tnow skus tbl a s = (out, tbl') ->
  (forall r, List.length (filter (same_key r) tbl) <= 1) ->
  forall r, List.length (filter (same_key r) tbl') <= 1.
Proof.
  induction skus as [|e rest IH]; intros tbl a s out tbl' Hrun Huniq.
  - simpl in Hrun. injection Hrun as <- <-. exact Huniq.
  - cbn [missing_loop] in Hrun.
    destruct (falsy (si_sku e) || falsy (si_marketplace e));
      [eapply IH; eassumption|].
    unfold insert_statement in Hrun.
    destruct (sku_rejects [placeholder tnow e]);
      [injection Hrun as <- <-; exact Huniq|].
    rewrite insert_one in Hrun.
    destruct (key_taken (placeholder tnow e) tbl) eqn:Hkey; cbn in Hrun.
    + eapply IH; eassumption.
    + eapply IH; [eassumption|]. apply unique_keys_insert; assumption.
Qed.

Lemma post_missing_appends sku_rejects tnow skus tbl resp tbl' :
  post_missing sku_rejects tnow (Some skus) tbl = (resp, tbl') ->
  exists new,
    tbl' = tbl ++ new /\
    (forall r, In r new ->
       exists e, In e skus /\ falsy (si_sku e) = false /\
                 falsy (si_marketplace e) = false /\ r = placeholder tnow e) /\
    (forall c, reported resp = Some c ->
       mc_added c = List.length new /\
       mc_added c + mc_skipped c = mc_total c /\
       mc_total c = List.length skus).
Proof.
  unfold post_missing.
  destruct (missing_loop sku_rejects tnow skus tbl 0 0) as [[e | [a s]] tbl1] eqn:Hloop;
    intros H; injection H as <- <-;
    destruct (missing_loop_appends _ _ _ _ _ _ _ _ Hloop) as (new & Ht & Hnew & Hcount);
    exists new; (split; [assumption|]); (split; [assumption|]);
    intros c Hc; simpl in Hc; [discriminate|].
  injection Hc as <-. simpl. specialize (Hcount a s eq_refl). lia.
Qed.

(** C9: the ingester never modifies a stored [sku_master] row.
    Whatever the outcome of a request, the table it leaves is the table
    it found followed by the rows it added, and [added] counts those
    rows.  An entry whose key (sku, 'amazon', its marketplace tag) is
    stored leaves the table as it is and counts as skipped.  A table
    whose keys are unique keeps them unique.  Called
    twice with [{sku: "M1", marketplace: "amazon"}] on a table without
    that key, it answers added 1, skipped 0 and then added 0, skipped 1,
    and the table holds one row for M1. *)
Theorem missing_never_overwrites :
  forall (sku_rejects : list sku_row -> option string) (t1 t2 : timestamp),
    (forall skus tbl resp tbl',
       post_missing sku_rejects t1 (Some skus) tbl = (resp, tbl') ->
       exists new,
         tbl' = tbl ++ new /\
         forall c, reported resp = Some c ->
           mc_added c = List.length new /\
           mc_added c + mc_skipped c = mc_total c) /\
    (forall e rest tbl a s,
       falsy (si_sku e) = false -> falsy (si_marketplace e) = false ->
       sku_rejects [placeholder t1 e] = None ->
       key_taken (placeholder t1 e) tbl = true ->
       missing_loop sku_rejects t1 (e :: rest) tbl a s =
       missing_loop sku_rejects t1 rest tbl a (S s)) /\
    (forall skus tbl resp tbl',
       post_missing sku_rejects t1 (Some skus) tbl = (resp, tbl') ->
       (forall r, List.length (filter (same_key r) tbl) <= 1) ->
       forall r, List.length (filter (same_key r) tbl') <= 1) /\
    (forall tbl,
       sku_rejects [placeholder t1 m1] = None ->
       sku_rejects [placeholder t2 m1] = None ->
       rows_with_key "M1" "amazon" "amazon" tbl = [] ->
       post_missing sku_rejects t1 (Some [m1]) tbl =
         (Success 200 (mkMissing 1 0 1), tbl ++ [placeholder t1 m1]) /\
       post_missing sku_rejects t2 (Some [m1]) (tbl ++ [placeholder t1 m1]) =
         (Success 200 (mkMissing 0 1 1), tbl ++ [placeholder t1 m1]) /\
       rows_with_key "M1" "amazon" "amazon" (tbl ++ [placeholder t1 m1]) =
         [placeholder t1 m1]).
Proof.
  intros sku_rejects t1 t2. split; [|split; [|split]].
  - intros skus tbl resp tbl' Hrun.
    destruct (post_missing_appends _ _ _ _ _ _ Hrun) as (new & Ht & _ & Hcount).
    exists new. split; [assumption|].
    intros c Hc. destruct (Hcount c Hc) as (? & ? & _). auto.
  - intros e rest tbl a s. apply missing_loop_existing.
  - intros skus tbl resp tbl'. unfold post_missing.
    destruct (missing_loop sku_rejects t1 skus tbl 0 0) as [[e | [a s]] tbl1] eqn:Hloop;
      intros H; injection H as _ <-;
      apply (missing_loop_unique _ _ _ _ _ _ _ _ Hloop).
  - intros tbl Hok1 Hok2 Hfree.
    assert (Hkey : key_taken (placeholder t1 m1) tbl = false)
      by (apply key_taken_rows; exact Hfree).
    assert (Hkey' : key_taken (placeholder t2 m1) (tbl ++ [placeholder t1 m1]) = true).
    { unfold key_taken. rewrite existsb_app. simpl. apply orb_true_r. }
    split; [|split].
    + unfold post_missing.
      rewrite missing_loop_fresh by (assumption || reflexivity). reflexivity.
    + unfold post_missing.
      rewrite missing_loop_existing by (assumption || reflexivity). reflexivity.
    + unfold rows_with_key in *. rewrite filter_app, Hfree. reflexivity.
Qed.

Lemma missing_never_overwrites_witness :
  post_missing accept_skus 1 (Some [m1]) [] =
    (Success 200 (mkMissing 1 0 1), [placeholder 1 m1]) /\
  post_missing accept_skus 2 (Some [m1]) [placeholder 1 m1] =
    (Success 200 (mkMissing 0 1 1), [placeholder 1 m1]) /\
  rows_with_key "M1" "amazon" "amazon" [placeholder 1 m1] = [placeholder 1 m1].
Proof.
  exact (proj2 (proj2 (proj2 (missing_never_overwrites accept_skus 1 2)))
           [] eq_refl eq_refl eq_refl).
Defined.

(** C10: every placeholder row the ingester inserts comes from an entry
    of the request whose [sku] and [marketplace] are non-empty strings,
    and has: marketplace 'amazon'; country_code the entry's
    [marketplace]; name the entry's [name] when the entry has one (a
    non-empty string) and the SKU otherwise; category the entry's
    [category] when it has one and 'Unknown' otherwise.  And the
    ingester does insert them: when the request ends without an error,
    [added] is the number of rows inserted, and an entry whose [sku]
    and [marketplace] are non-empty and whose key (sku, 'amazon',
    marketplace) is not stored and is the key of no earlier entry of
    the request has its placeholder among them. *)
Theorem missing_placeholder_defaults :
  forall sku_rejects tnow skus tbl resp tbl',
    post_missing sku_rejects tnow (Some skus) tbl = (resp, tbl') ->
    exists new,
      tbl' = tbl ++ new /\
      (forall r, In r new ->
        exists e sku marketplace,
          In e skus /\
          si_sku e = Val sku /\ sku <> "" /\
          si_marketplace e = Val marketplace /\ marketplace <> "" /\
          s_sku r = sku /\
          s_marketplace r = "amazon" /\
          s_country_code r = marketplace /\
          s_name r =
            Some match si_name e with
                 | Val n => if (n =? "")%string then sku else n
                 | Null => sku
                 | Undefined => sku
                 end /\
          s_category r =
            Some match si_category e with
                 | Val c => if (c =? "")%string then "Unknown" else c
                 | Null => "Unknown"
                 | Undefined => "Unknown"
                 end) /\
      (forall c, reported resp = Some c ->
         mc_added c = List.length new /\
         forall pre e post,
           skus = pre ++ e :: post ->
           falsy (si_sku e) = false -> falsy (si_marketplace e) = false ->
           key_taken (placeholder tnow e) tbl = false ->
           key_taken (placeholder tnow e) (map (placeholder tnow) pre) = false ->
           In (placeholder tnow e) new).
Proof.
  intros sku_rejects tnow skus tbl resp tbl' Hrun.
  destruct (post_missing_appends _ _ _ _ _ _ Hrun) as (new & Ht & Hnew & Hcount).
  exists new. split; [assumption|]. split.
  - intros r Hr. destruct (Hnew r Hr) as (e & He & Hs & Hm & ->).
    destruct (falsy_text _ Hs) as [Hsku Hsku'].
    destruct (falsy_text _ Hm) as [Hmk Hmk'].
    exists e, (text_of (si_sku e)), (text_of (si_marketplace e)).
    repeat (split; [assumption || reflexivity|]).
    reflexivity.
  - intros c Hc. split; [apply (Hcount c Hc)|].
    intros pre e post Hskus Hs Hm Hfree Hfirst.
    unfold post_missing in Hrun.
    destruct (missing_loop sku_rejects tnow skus tbl 0 0) as [[err | [a s]] tbl1] eqn:Hloop;
      injection Hrun as <- <-; [discriminate|].
    rewrite Hskus in Hloop.
    destruct (missing_loop_inserts _ _ _ _ _ _ _ _ _ _ _ Hloop Hs Hm Hfree Hfirst)
      as (new1 & new2 & Hshape).
    rewrite Hshape in Ht. apply app_inv_head in Ht. rewrite <- Ht.
    apply in_or_app. right. left. reflexivity.
Qed.

(** The entry [{sku: "M1", marketplace: "amazon"}] sent to an empty
    table: its placeholder is inserted, named after the SKU and of
    category 'Unknown'. *)
Lemma missing_placeholder_defaults_witness :
  exists new,
    snd (post_missing accept_skus 1 (Some [m1]) []) = [] ++ new /\
    In (placeholder 1 m1) new /\
    forall r, In r new ->
      s_marketplace r = "amazon" /\ s_country_code r = "amazon" /\
      s_name r = Some "M1" /\ s_category r = Some "Unknown".
Proof.
  destruct (missing_placeholder_defaults accept_skus 1 [m1] []
              (fst (post_missing accept_skus 1 (Some [m1]) []))
              (snd (post_missing accept_skus 1 (Some [m1]) []))
              eq_refl) as (new & Ht & Hrows & Hins).
  exists new. split; [exact Ht|]. split.
  - apply (proj2 (Hins (mkMissing 1 0 1) eq_refl) [] m1 []); reflexivity.
  - intros r Hr.
    destruct (Hrows r Hr) as (e & sku & mk & He & Hs & _ & Hm & _ & _ & Ha & Hc & Hn & Hcat).
    destruct He as [<- | []]. simpl in Hs, Hm. injection Hs as <-. injection Hm as <-.
    auto.
Defined.

(** ** Reconciliation Synchronizer *)

Lemma key_taken_app r tbl more :
  key_taken r tbl = true -> key_taken r (tbl ++ more) = true.
Proof. unfold key_taken. rewrite existsb_app. intros ->. reflexivity. Qed.

Lemma key_taken_last r tbl : key_taken r (tbl ++ [r]) = true.
Proof.
  unfold key_taken. rewrite existsb_app. simpl. unfold same_key.
  rewrite !String.eqb_refl. simpl. apply orb_true_r.
Qed.

Lemma insert_do_nothing_appends rows : forall tbl,
  fst (insert_do_nothing rows tbl) = tbl ++ snd (insert_do_nothing rows tbl).
Proof.
  induction rows as [|r rest IH]; intros tbl; simpl.
  - now rewrite app_nil_r.
  - destruct (key_taken r tbl); [apply IH|].
    specialize (IH (tbl ++ [r])).
    destruct (insert_do_nothing rest (tbl ++ [r])) as [tbl' returned].
    simpl in *. rewrite IH, <- app_assoc. reflexivity.
Qed.

Lemma insert_do_nothing_returned rows : forall tbl r,
  In r (snd (insert_do_nothing rows tbl)) -> In r rows.
Proof.
  induction rows as [|x rest IH]; intros tbl r; simpl; [tauto|].
  destruct (key_taken x tbl).
  - intros H. right. eapply IH. eassumption.
  - specialize (IH (tbl ++ [x]) r).
    destruct (insert_do_nothing rest (tbl ++ [x])) as [tbl' returned].
    simpl in *. intros [-> | H]; auto.
Qed.

Lemma insert_do_nothing_keeps rows : forall tbl r,
  key_taken r tbl = true -> key_taken r (fst (insert_do_nothing rows tbl)) = true.
Proof.
  intros tbl r H. rewrite insert_do_nothing_appends. apply key_taken_app, H.
Qed.

(** After the statement every proposed key is stored. *)
Lemma insert_do_nothing_covers rows : forall tbl r,
  In r rows -> key_taken r (fst (insert_do_nothing rows tbl)) = true.
Proof.
  induction rows as [|x rest IH]; intros tbl r; simpl; [tauto|].
  intros [-> | Hin].
  - destruct (key_taken r tbl) eqn:E.
    + apply insert_do_nothing_keeps, E.
    + pose proof (insert_do_nothing_keeps rest (tbl ++ [r]) r (key_taken_last r tbl)) as H.
      destruct (insert_do_nothing rest (tbl ++ [r])). exact H.
  - destruct (key_taken x tbl).
    + apply IH, Hin.
    + specialize (IH (tbl ++ [x]) r Hin).
      destruct (insert_do_nothing rest (tbl ++ [x])). exact IH.
Qed.


Lemma parent_rule_derived p : parent_rule p (derived_parent p).
Proof. unfold parent_rule, derived_parent. destruct (p_parent p); reflexivity. Qed.

Section Sync.

Variable pick : joined_pair -> list joined_pair -> joined_pair.
Hypothesis pick_In : forall j js, In (pick j js) (j :: js).

Implicit Types (J : list joined_pair) (tbl : sku_table) (sm r : sku_row).

(** Phase A leaves the key of a row alone. *)
Lemma refresh_row_same_key t J sm r :
  same_key r (refresh_row pick t J sm) = same_key r sm.
Proof.
  unfold refresh_row. destruct (filter (update_matches sm) J); reflexivity.
Qed.



(** The pair Phase A uses for a matched row is one of its matches. *)
Lemma refresh_row_uses_match t J sm :
  filter (update_matches sm) J <> [] ->
  exists j,
    In j J /\ update_matches sm j = true /\
    refresh_row pick t J sm = refresh t sm j.
Proof.
  unfold refresh_row. destruct (filter (update_matches sm) J) as [|j js] eqn:E;
    [congruence|]. intros _.
  exists (pick j js).
  assert (H : In (pick j js) (filter (update_matches sm) J))
    by (rewrite E; apply pick_In).
  apply filter_In in H. tauto.
Qed.

Lemma candidates_In t J r :
  In r (candidates t J) ->
  exists j s,
    In j J /\ m_sku (fst j) = Some s /\ s <> "" /\ r = selected t s j.
Proof.
  unfold candidates. rewrite in_flat_map. intros (j & Hj & Hr).
  unfold candidate in Hr. destruct (m_sku (fst j)) as [s|] eqn:Es; [|destruct Hr].
  destruct (s =? "")%string eqn:E; [destruct Hr|].
  apply String.eqb_neq in E. destruct Hr as [<- | []].
  exists j, s. auto.
Qed.


End Sync.

(** A run that ends without an error is Phase A followed by Phase B. *)
Lemma post_sync_success sku_rejects pick t mpd products tbl st c tbl' :
  post_sync sku_rejects pick t mpd products tbl = (Success st c, tbl') ->
  exists returned,
    insert_do_nothing (candidates t (joined mpd products))
      (phase_a pick t (joined mpd products) tbl) = (tbl', returned) /\
    sc_inserted c = List.length returned.
Proof.
  unfold post_sync. cbv zeta.
  destruct (sku_rejects (refreshed pick t (joined mpd products) tbl)); [discriminate|].
  destruct (sku_rejects (candidates t (joined mpd products))); [discriminate|].
  destruct (insert_do_nothing (candidates t (joined mpd products))
              (phase_a pick t (joined mpd products) tbl)) as [tbl2 returned].
  intros H. injection H as _ <- <-. exists returned. auto.
Qed.





Lemma pick_first_In j js : In (pick_first j js) (j :: js).
Proof. left. reflexivity. Qed.



(** The second run stamps the rows it refreshes: with one product and
    one mapping the row keeps its values and changes its [updated_at]. *)
Example sync_second_run_touches_time :
  map s_updated_at
    (snd (post_sync accept_skus pick_first 1 [listing 1 "X"] [alpha] [])) = [1] /\
  map s_updated_at
    (snd (post_sync accept_skus pick_first 2 [listing 1 "X"] [alpha]
            (snd (post_sync accept_skus pick_first 1 [listing 1 "X"] [alpha] [])))) = [2].
Proof. split; reflexivity. Qed.

(** What the two runs leave when "Alpha" and "Beta" are both mapped to
    the SKU "X" of "US", the mapping of "Alpha" stored first and the
    product "Beta" stored first, and the update uses the match whose
    product is stored first: the first run inserts the row from
    "Alpha", the first pair the join of the mappings yields; the second
    rewrites it from "Beta". *)
Example sync_two_matches :
  let run1 :=
    post_sync accept_skus (pick_stored_first [beta; alpha]) 1
      [listing 1 "X"; listing 2 "X"] [beta; alpha] [] in
  let run2 :=
    post_sync accept_skus (pick_stored_first [beta; alpha]) 2
      [listing 1 "X"; listing 2 "X"] [beta; alpha] (snd run1) in
  fst run1 = Success 200 (mkSync 0 1 1 1 0) /\
  map (fun r => (s_sku r, s_name r, s_parent r, s_cost r, s_updated_at r)) (snd run1) =
    [("X", Some "Alpha", Some "A-1", Some 10%Z, 1)] /\
  fst run2 = Success 200 (mkSync 0 0 1 1 0) /\
  map (fun r => (s_sku r, s_name r, s_parent r, s_cost r, s_updated_at r)) (snd run2) =
    [("X", Some "Beta", Some "B-0", Some 20%Z, 2)].
Proof. vm_compute. intuition reflexivity. Qed.

(** On those tables the match whose product is stored first is also
    the last match of the join of the mappings: an update that uses the
    last match rewrites the row in the same way. *)
Example sync_two_matches_last :
  let run1 :=
    post_sync accept_skus pick_last 1
      [listing 1 "X"; listing 2 "X"] [beta; alpha] [] in
  let run2 :=
    post_sync accept_skus pick_last 2
      [listing 1 "X"; listing 2 "X"] [beta; alpha] (snd run1) in
  map (fun r => (s_sku r, s_name r, s_parent r, s_cost r, s_updated_at r)) (snd run1) =
    [("X", Some "Alpha", Some "A-1", Some 10%Z, 1)] /\
  map (fun r => (s_sku r, s_name r, s_parent r, s_cost r, s_updated_at r)) (snd run2) =
    [("X", Some "Beta", Some "B-0", Some 20%Z, 2)].
Proof. vm_compute. split; reflexivity. Qed.

(** With the mappings and the products stored in the same order the
    match whose product is stored first is the first match, and the
    second run rewrites no value. *)
Example sync_two_matches_aligned :
  let run1 :=
    post_sync accept_skus (pick_stored_first [alpha; beta]) 1
      [listing 1 "X"; listing 2 "X"] [alpha; beta] [] in
  let run2 :=
    post_sync accept_skus (pick_stored_first [alpha; beta]) 2
      [listing 1 "X"; listing 2 "X"] [alpha; beta] (snd run1) in
  map forget_time (snd run2) = map forget_time (snd run1).
Proof. vm_compute. reflexivity. Qed.


(** The scenario of the specification, on any table that has no row
    for the SKU "X1": the one mapping of "X1" is inserted, with the
    parent taken from the product's [product_sku]. *)
Lemma sync_unmatched_listing pick tnow tbl :
  rows_with_key "X1" "amazon" "US" tbl = [] ->
  exists c r,
    post_sync accept_skus pick tnow [listing 1 "X1"] [px1] tbl =
      (Success 200 c, tbl ++ [r]) /\
    sc_inserted c = 1 /\
    s_sku r = "X1" /\ s_marketplace r = "amazon" /\
    s_country_code r = "US" /\ s_parent r = Some "PX1".
Proof.
  intros Hfree.
  set (j := (listing 1 "X1", px1)).
  assert (Hidle : forall sm, In sm tbl -> filter (update_matches sm) [j] = []).
  { intros sm Hsm. simpl. destruct (update_matches sm j) eqn:E; [|reflexivity].
    exfalso.
    assert (H : In sm (rows_with_key "X1" "amazon" "US" tbl)).
    { apply filter_In. split; [assumption|].
      unfold update_matches in E. simpl in E.
      apply andb_true_iff in E. destruct E as [E Hm].
      apply andb_true_iff in E. destruct E as [Hs Hc].
      apply String.eqb_eq in Hs, Hm, Hc. rewrite Hs, Hm, Hc. reflexivity. }
    rewrite Hfree in H. destruct H. }
  assert (HA : phase_a pick tnow [j] tbl = tbl).
  { unfold phase_a. rewrite <- (map_id tbl) at 2. apply map_ext_in.
    intros sm Hsm. unfold refresh_row. now rewrite Hidle. }
  assert (Hkey : key_taken (selected tnow "X1" j) tbl = false)
    by (apply key_taken_rows; exact Hfree).
  unfold post_sync. cbv zeta.
  change (joined [listing 1 "X1"] [px1]) with [j].
  unfold accept_skus. rewrite HA.
  change (candidates tnow [j]) with [selected tnow "X1" j].
  rewrite insert_one, Hkey.
  eexists. eexists. split; [reflexivity|]. repeat split.
Qed.

(** C6: in a run that ends without an error, every row Phase A
    refreshes takes its parent from a joined product that matches it,
    and every row Phase B inserts takes it from the joined product it is
    built from: the product's [parent] when that is not null, else its
    [product_sku].  With one mapping of the SKU "X1", unmatched in
    [sku_master], and its product with parent null and product_sku
    "PX1", the run inserts exactly one row, and its parent is "PX1". *)
Theorem sync_parent_derivation :
  forall sku_rejects pick tnow,
    (forall j js, In (pick j js) (j :: js)) ->
    (forall mpd products tbl st c tbl',
       post_sync sku_rejects pick tnow mpd products tbl = (Success st c, tbl') ->
       exists inserted,
         tbl' = map (refresh_row pick tnow (joined mpd products)) tbl ++ inserted /\
         sc_inserted c = List.length inserted /\
         (forall sm,
            In sm tbl ->
            filter (update_matches sm) (joined mpd products) <> [] ->
            exists j,
              In j (joined mpd products) /\ update_matches sm j = true /\
              s_name (refresh_row pick tnow (joined mpd products) sm) =
                Some (p_name (snd j)) /\
              parent_rule (snd j)
                (s_parent (refresh_row pick tnow (joined mpd products) sm))) /\
         (forall r,
            In r inserted ->
            exists j,
              In j (joined mpd products) /\
              m_sku (fst j) = Some (s_sku r) /\
              s_country_code r = m_country_code (fst j) /\
              s_name r = Some (p_name (snd j)) /\
              parent_rule (snd j) (s_parent r))) /\
    (forall tbl,
       rows_with_key "X1" "amazon" "US" tbl = [] ->
       exists c r,
         post_sync accept_skus pick tnow [listing 1 "X1"] [px1] tbl =
           (Success 200 c, tbl ++ [r]) /\
         sc_inserted c = 1 /\
         s_sku r = "X1" /\ s_marketplace r = "amazon" /\
         s_country_code r = "US" /\ s_parent r = Some "PX1").
Proof.
  intros sku_rejects pick tnow pick_In. split.
  - intros mpd products tbl st c tbl' Hrun.
    apply post_sync_success in Hrun. destruct Hrun as (ret & Hb & Hc).
    exists ret. split; [|split; [exact Hc|split]].
    + pose proof (insert_do_nothing_appends
                    (candidates tnow (joined mpd products))
                    (phase_a pick tnow (joined mpd products) tbl)) as H.
      rewrite Hb in H. exact H.
    + intros sm _ Hne.
      destruct (refresh_row_uses_match pick pick_In tnow _ _ Hne) as (j & Hj & Hm & ->).
      exists j. repeat split; try assumption. apply parent_rule_derived.
    + intros r Hr.
      assert (Hcand : In r (candidates tnow (joined mpd products))).
      { apply (insert_do_nothing_returned _
                 (phase_a pick tnow (joined mpd products) tbl)).
        rewrite Hb. exact Hr. }
      destruct (candidates_In _ _ _ Hcand) as (j & s & Hj & Hs & _ & ->).
      exists j. repeat split; try assumption. apply parent_rule_derived.
  - intros tbl Hfree.
    apply (sync_unmatched_listing pick tnow tbl Hfree).
Qed.

Lemma sync_parent_derivation_witness :
  exists c r,
    post_sync accept_skus pick_first 1 [listing 1 "X1"] [px1] [] =
      (Success 200 c, [] ++ [r]) /\
    sc_inserted c = 1 /\
    s_sku r = "X1" /\ s_marketplace r = "amazon" /\
    s_country_code r = "US" /\ s_parent r = Some "PX1".
Proof.
  exact (proj2 (sync_parent_derivation accept_skus pick_first 1 pick_first_In)
           [] eq_refl).
Defined.

(* ================================================================== *)
(** * Further properties of the router *)
(* ================================================================== *)

(** ** Batch Deduplicator: order and provenance *)

Lemma offered_keys_snoc products p :
  offered_keys (products ++ [p]) =
  offered_keys products ++ (if (key_of p =? "")%string then [] else [key_of p]).
Proof.
  unfold offered_keys. rewrite map_app, filter_app. simpl.
  destruct (key_of p =? "")%string; reflexivity.
Qed.

Lemma first_occurrences_In l k : In k (first_occurrences l) <-> In k l.
Proof.
  unfold first_occurrences. rewrite <- in_rev, nodup_In, <- in_rev. tauto.
Qed.

Lemma first_occurrences_snoc l k :
  first_occurrences (l ++ [k]) =
  if in_dec string_dec k l then first_occurrences l else first_occurrences l ++ [k].
Proof.
  unfold first_occurrences. rewrite rev_app_distr. simpl.
  destruct (in_dec string_dec k (rev l)) as [Hin | Hout];
    destruct (in_dec string_dec k l) as [Hin' | Hout']; try reflexivity.
  - exfalso. apply Hout'. apply in_rev. exact Hin.
  - exfalso. apply Hout. apply in_rev in Hin'. exact Hin'.
Qed.

Lemma productMap_keys_order products :
  map fst (productMap products) = first_occurrences (offered_keys products).
Proof.
  induction products as [|p rest IH] using rev_ind; [reflexivity|].
  rewrite productMap_snoc, offered_keys_snoc. unfold dedup_step. cbv zeta.
  destruct (key_of p =? "")%string eqn:E.
  - now rewrite app_nil_r.
  - rewrite first_occurrences_snoc.
    destruct (in_dec string_dec (key_of p) (offered_keys rest)) as [Hin | Hout].
    + rewrite map_set_keys_present; [exact IH|].
      rewrite IH. apply first_occurrences_In. exact Hin.
    + rewrite map_set_fresh, map_app, IH; [reflexivity|].
      rewrite IH. intros H. apply Hout. apply first_occurrences_In. exact H.
Qed.

Lemma productMap_values_from products e :
  In e (productMap products) -> In (snd e) products.
Proof.
  induction products as [|p rest IH] using rev_ind; [intros []|].
  rewrite productMap_snoc. unfold dedup_step. cbv zeta. rewrite in_app_iff.
  destruct (key_of p =? "")%string; [auto|].
  intros H. apply map_set_In in H. destruct H as [-> | H]; simpl; auto.
Qed.

(** X3: the deduplicated batch lists each distinct non-empty canonical
    key once, at the place of its first occurrence in the input (the
    record kept there is the last one with that key); every record of
    the output is a record of the input, so the output is never longer
    than the input. *)
Theorem dedup_keeps_first_position :
  forall products : list product_input,
    map key_of (dedup products) = first_occurrences (offered_keys products) /\
    incl (dedup products) products /\
    List.length (dedup products) <= List.length products.
Proof.
  intros products. split; [|split].
  - unfold dedup. rewrite keyed_values_keys by apply productMap_keyed.
    apply productMap_keys_order.
  - intros p Hp. unfold dedup, map_values in Hp. apply in_map_iff in Hp.
    destruct Hp as (e & <- & He). apply productMap_values_from, He.
  - rewrite dedup_length. unfold distinct_keys.
    etransitivity; [apply NoDup_incl_length; [apply NoDup_nodup|]|].
    + intros k Hk. apply nodup_In in Hk. exact Hk.
    + etransitivity; [apply filter_length_le|]. now rewrite length_map.
Qed.

(** ** Chunked Upsert Executor: what an import leaves alone *)

Lemma apply_rows_invariant (P : products_table -> Prop) tnow :
  (forall t n x, P t -> P (fst (upsert_row tnow t n x))) ->
  forall rows tbl, P tbl -> P (fst (apply_rows tnow rows tbl)).
Proof.
  intros Hstep rows tbl. unfold apply_rows.
  assert (H : forall acc, P (fst acc) ->
                          P (fst (fold_left (upsert_next tnow) rows acc))).
  { induction rows as [|x rest IH]; intros acc Hacc; simpl; [exact Hacc|].
    apply IH. unfold upsert_next. destruct (x_name x) as [n|]; [|exact Hacc].
    specialize (Hstep (fst acc) n x Hacc).
    destruct (upsert_row tnow (fst acc) n x). exact Hstep. }
  intros Htbl. apply (H (tbl, [])). exact Htbl.
Qed.

(** Whatever the outcome, the loop has applied a prefix of the records
    it was given, whole chunks of it, and nothing else. *)
Lemma bulk_loop_prefix store_rejects tnow unique :
  forall fuel i tbl a u out tbl',
    bulk_loop store_rejects tnow fuel i unique tbl a u = (out, tbl') ->
    exists m,
      tbl' = fst (apply_rows tnow (map proposed_of (firstn m (skipn i unique))) tbl).
Proof.
  induction fuel as [|fuel IH]; intros i tbl a u out tbl' Hrun;
    cbn [bulk_loop] in Hrun.
  - injection Hrun as _ <-. exists 0. reflexivity.
  - destruct (i <? List.length unique).
    + rewrite slice_chunk in Hrun. unfold upsert_statement in Hrun.
      destruct (statement_error store_rejects
                  (map proposed_of (firstn BATCH_SIZE (skipn i unique)))).
      * injection Hrun as _ <-. exists 0. reflexivity.
      * destruct (apply_rows tnow
                    (map proposed_of (firstn BATCH_SIZE (skipn i unique))) tbl)
          as [tbl1 result] eqn:Hchunk.
        apply IH in Hrun. destruct Hrun as [m Hm].
        exists (BATCH_SIZE + m).
        rewrite firstn_plus, map_app, apply_rows_app, Hchunk. cbn [fst snd].
        rewrite skipn_skipn.
        replace (BATCH_SIZE + i) with (i + BATCH_SIZE) by lia. exact Hm.
    + injection Hrun as _ <-. exists 0. reflexivity.
Qed.

Lemma firstn_incl {A : Type} (m : nat) (l : list A) : incl (firstn m l) l.
Proof.
  intros x Hx. rewrite <- (firstn_skipn m l). apply in_or_app. left. exact Hx.
Qed.

Lemma post_bulk_prefix store_rejects tnow body tbl resp tbl' :
  post_bulk store_rejects tnow body tbl = (resp, tbl') ->
  exists applied,
    tbl' = fst (apply_rows tnow (map proposed_of applied) tbl) /\
    Forall (fun p => key_of p <> "") applied /\
    (forall products, body = Some products -> incl applied (dedup products)).
Proof.
  destruct body as [products|]; unfold post_bulk.
  - destruct products as [|p rest].
    + intros H. injection H as _ <-. exists []. split; [reflexivity|].
      split; [constructor|]. intros products _ x [].
    + destruct (bulk_loop store_rejects tnow (List.length (dedup (p :: rest))) 0
                  (dedup (p :: rest)) tbl 0 0) as [out tbl1] eqn:Hloop.
      intros H.
      assert (tbl1 = tbl') by (destruct out; injection H as _ <-; reflexivity).
      subst tbl1. apply bulk_loop_prefix in Hloop. destruct Hloop as [m Hm].
      exists (firstn m (dedup (p :: rest))). split; [exact Hm|]. split.
      * pose proof (dedup_keys_nonempty (p :: rest)) as Hall.
        rewrite Forall_forall in *. intros x Hx.
        apply Hall. eapply firstn_incl. exact Hx.
      * intros products Hbody. injection Hbody as <-.
        intros x Hx. eapply firstn_incl. exact Hx.
  - intros H. injection H as _ <-. exists []. split; [reflexivity|].
    split; [constructor|]. intros products Hbody. discriminate.
Qed.

Lemma applied_names applied :
  Forall (fun p => key_of p <> "") applied ->
  map x_name (map proposed_of applied) = map Some (map name_of applied).
Proof.
  intros Hall. rewrite !map_map. apply map_ext_in. intros p Hp.
  apply keyed_record_name. rewrite Forall_forall in Hall. apply Hall, Hp.
Qed.

(** A stored row survives any sequence of upserts under its name, with
    the columns the conflict clause does not assign. *)
Lemma apply_rows_persists tnow rows : forall ns tbl n R,
  map x_name rows = map Some ns ->
  find_by_name n tbl = Some R ->
  exists R',
    find_by_name n (fst (apply_rows tnow rows tbl)) = Some R' /\
    p_id R' = p_id R /\ p_name R' = p_name R /\ p_source R' = p_source R /\
    p_default_custom_shipping R' = p_default_custom_shipping R /\
    p_default_fbm_source R' = p_default_fbm_source R.
Proof.
  induction rows as [|x rest IH]; intros ns tbl n R Hns HR.
  - exists R. split; [exact HR | repeat split].
  - destruct ns as [|m ns']; [discriminate|]. simpl in Hns.
    injection Hns as Hx Hrest.
    rewrite (apply_rows_cons tnow x m) by assumption. cbn [fst].
    destruct (string_dec n m) as [-> | Hne].
    + destruct (upsert_row_same tnow tbl m x) as [id Hid].
      unfold upserted in Hid. rewrite HR in Hid.
      destruct (IH ns' _ m _ Hrest Hid) as (R' & HR' & Hfields).
      exists R'. split; [exact HR'|]. simpl in Hfields. exact Hfields.
    + assert (Hsame : find_by_name n (fst (upsert_row tnow tbl m x)) = Some R)
        by (rewrite upsert_row_other; assumption).
      apply (IH ns' _ n R Hrest Hsame).
Qed.

(** X4: whatever the outcome of a bulk import (success, a failed chunk,
    a body that is not an array), every product stored before it is
    still stored under its name afterwards, with the same id, name and
    source and the same default shipping columns: the import never
    deletes a product and never overwrites its source, even when the
    incoming record carries one. *)
Theorem bulk_never_deletes :
  forall store_rejects tnow body tbl resp tbl' n R,
    post_bulk store_rejects tnow body tbl = (resp, tbl') ->
    find_by_name n tbl = Some R ->
    exists R',
      find_by_name n tbl' = Some R' /\
      p_id R' = p_id R /\ p_name R' = p_name R /\ p_source R' = p_source R /\
      p_default_custom_shipping R' = p_default_custom_shipping R /\
      p_default_fbm_source R' = p_default_fbm_source R.
Proof.
  intros store_rejects tnow body tbl resp tbl' n R Hrun HR.
  apply post_bulk_prefix in Hrun. destruct Hrun as (applied & -> & Hkeys & _).
  apply (apply_rows_persists tnow _ (map name_of applied)); [|exact HR].
  apply applied_names, Hkeys.
Qed.

(** X5: whatever the outcome of a bulk import, a name that is not the
    name of a surviving record of the batch is stored afterwards exactly
    as before: the same row, untouched, or no row. *)
Theorem bulk_leaves_other_names :
  forall store_rejects tnow products tbl resp tbl' n,
    post_bulk store_rejects tnow (Some products) tbl = (resp, tbl') ->
    (forall p, In p (dedup products) -> name_of p <> n) ->
    find_by_name n tbl' = find_by_name n tbl.
Proof.
  intros store_rejects tnow products tbl resp tbl' n Hrun Hother.
  apply post_bulk_prefix in Hrun. destruct Hrun as (applied & -> & Hkeys & Hincl).
  apply (apply_rows_other tnow _ (map name_of applied)).
  - apply applied_names, Hkeys.
  - intros Hin. apply in_map_iff in Hin. destruct Hin as (p & Hp & Hin).
    apply (Hother p); [|exact Hp]. apply (Hincl products eq_refl), Hin.
Qed.

(** X6: after a successful import, a surviving record [I] whose name was
    not stored has a row of its own: its name as sent, each other column
    with the value of [I] or NULL when [I] has none, [source] defaulting
    to 'csv', the default shipping columns NULL. *)
Theorem bulk_inserts_new_product :
  forall store_rejects tnow products tbl st c tbl' I,
    post_bulk store_rejects tnow (Some products) tbl = (Success st c, tbl') ->
    In I (dedup products) ->
    find_by_name (name_of I) tbl = None ->
    exists R',
      find_by_name (name_of I) tbl' = Some R' /\
      in_name I = Val (p_name R') /\
      p_category R' = to_sql (in_category I) /\
      p_base_cost R' = nullish (in_base_cost I) /\
      p_size R' = nullish (in_size I) /\
      p_weight R' = nullish (in_weight I) /\
      p_width R' = nullish (in_width I) /\
      p_height R' = nullish (in_height I) /\
      p_length R' = nullish (in_length I) /\
      p_product_sku R' = nullish (in_product_sku I) /\
      p_parent R' = nullish (in_parent I) /\
      p_source R' =
        Some match in_source I with
             | Val s => if (s =? "")%string then "csv" else s
             | Null => "csv"
             | Undefined => "csv"
             end /\
      p_default_custom_shipping R' = None /\ p_default_fbm_source R' = None /\
      p_updated_at R' = tnow.
Proof.
  intros store_rejects tnow products tbl st c tbl' I Hrun HI Hnew.
  apply post_bulk_success in Hrun. cbv zeta in Hrun. destruct Hrun as (-> & _).
  assert (Hkey : key_of I <> "").
  { pose proof (dedup_keys_nonempty products) as H.
    rewrite Forall_forall in H. apply H, HI. }
  destruct (apply_rows_in tnow (map proposed_of (dedup products))
              (map name_of (dedup products)) tbl (proposed_of I) (name_of I))
    as [id Hid].
  - apply dedup_names.
  - apply dedup_names_NoDup.
  - apply in_map, HI.
  - apply keyed_record_name, Hkey.
  - unfold upserted in Hid. rewrite Hnew in Hid.
    eexists. split; [exact Hid|]. simpl.
    split; [|repeat split].
    pose proof (keyed_record_name I Hkey) as Hn. simpl in Hn.
    destruct (in_name I); simpl in Hn; try discriminate. congruence.
Qed.

(** ** Chunked Upsert Executor: invariants of the table *)

Lemma replace_named_map {B : Type} (f : product -> B) n new old tbl :
  find_by_name n tbl = Some old -> f new = f old ->
  map f (replace_named n new tbl) = map f tbl.
Proof.
  unfold find_by_name. induction tbl as [|r rest IH]; simpl; [discriminate|].
  destruct (named n r).
  - intros H Hf. injection H as <-. simpl. now rewrite Hf.
  - intros H Hf. simpl. now rewrite IH.
Qed.

Lemma find_absent_name n tbl :
  find_by_name n tbl = None -> ~ In n (map p_name tbl).
Proof.
  unfold find_by_name. intros H Hin. apply in_map_iff in Hin.
  destruct Hin as (r & Hr & Hin).
  apply (find_none _ _ H) in Hin. unfold named in Hin.
  rewrite Hr, String.eqb_refl in Hin. discriminate.
Qed.

Lemma fresh_id_above tbl i : In i (map p_id tbl) -> i < fresh_id tbl.
Proof.
  unfold fresh_id. induction tbl as [|r rest IH]; simpl; [tauto|].
  intros [<- | H]; [lia|]. specialize (IH H). lia.
Qed.

Lemma upsert_row_names tnow tbl n x :
  NoDup (map p_name tbl) -> NoDup (map p_name (fst (upsert_row tnow tbl n x))).
Proof.
  intros Hnd. unfold upsert_row.
  destruct (find_by_name n tbl) as [old|] eqn:E; simpl.
  - rewrite (replace_named_map p_name n _ old) by (assumption || reflexivity).
    exact Hnd.
  - rewrite map_app. simpl. apply NoDup_app.
    + exact Hnd.
    + repeat constructor. simpl. tauto.
    + intros y Hy [<- | []]. exact (find_absent_name _ _ E Hy).
Qed.

Lemma upsert_row_ids tnow tbl n x :
  NoDup (map p_id tbl) -> NoDup (map p_id (fst (upsert_row tnow tbl n x))).
Proof.
  intros Hnd. unfold upsert_row.
  destruct (find_by_name n tbl) as [old|] eqn:E; simpl.
  - rewrite (replace_named_map p_id n _ old) by (assumption || reflexivity).
    exact Hnd.
  - rewrite map_app. simpl. apply NoDup_app.
    + exact Hnd.
    + repeat constructor. simpl. tauto.
    + intros y Hy [<- | []]. apply fresh_id_above in Hy. lia.
Qed.

Lemma upsert_row_length tnow tbl n x :
  List.length (fst (upsert_row tnow tbl n x)) =
  List.length tbl + (if snd (upsert_row tnow tbl n x) then 1 else 0).
Proof.
  unfold upsert_row. destruct (find_by_name n tbl) as [old|] eqn:E; simpl.
  - rewrite <- (length_map (fun _ => tt)), (replace_named_map _ n _ old),
      length_map by (assumption || reflexivity). lia.
  - now rewrite length_app.
Qed.

Lemma apply_rows_length tnow rows tbl :
  List.length (fst (apply_rows tnow rows tbl)) =
  List.length tbl +
  List.length (filter (fun b : bool => b) (snd (apply_rows tnow rows tbl))).
Proof.
  revert tbl. induction rows as [|x rest IH]; intros tbl; [simpl; lia|].
  destruct (x_name x) as [n|] eqn:Hn.
  - rewrite (apply_rows_cons tnow x n) by assumption. cbn [fst snd].
    rewrite IH, upsert_row_length, upsert_row_flag. simpl.
    destruct (is_none (find_by_name n tbl)); simpl; lia.
  - unfold apply_rows. simpl. unfold upsert_next at 2 4. rewrite Hn.
    apply IH.
Qed.

(** C2: when a bulk import ends without a chunk failure, [added] plus
    [updated] is the number of distinct canonical natural keys (trimmed,
    case-folded names; a blank name is no key) of the batch.  The counts
    are those of the [is_insert] flags that the statements which wrote
    the table returned, one flag for each surviving record.  Each
    surviving record is applied once and counted once: as updated when
    a row had its name before the request, and that row is then the
    stored one merged with the record; as added when none had, and a
    row of its own is then stored; the table has grown by [added]
    rows. *)
Theorem bulk_counts_distinct_keys :
  forall store_rejects tnow products tbl st c tbl',
    post_bulk store_rejects tnow (Some products) tbl = (Success st c, tbl') ->
    added c + updated c = List.length (distinct_keys products) /\
    (exists flags,
       apply_rows tnow (map proposed_of (dedup products)) tbl = (tbl', flags) /\
       List.length flags = List.length (dedup products) /\
       added c = List.length (filter (fun b : bool => b) flags) /\
       updated c = List.length (filter negb flags)) /\
    added c =
      List.length
        (filter (fun p => is_none (find_by_name (name_of p) tbl))
           (dedup products)) /\
    updated c =
      List.length
        (filter (fun p => negb (is_none (find_by_name (name_of p) tbl)))
           (dedup products)) /\
    List.length tbl' = List.length tbl + added c /\
    (forall I, In I (dedup products) ->
       match find_by_name (name_of I) tbl with
       | Some R =>
           find_by_name (name_of I) tbl' =
           Some (on_conflict_update tnow R (proposed_of I))
       | None =>
           exists id,
             find_by_name (name_of I) tbl' =
             Some (insert_row tnow id (name_of I) (proposed_of I))
       end).
Proof.
  intros store_rejects tnow products tbl st c tbl' Hrun.
  apply post_bulk_success in Hrun. cbv zeta in Hrun.
  destruct Hrun as (Htbl & Ha & Hu).
  pose proof (apply_rows_flags tnow _ (map name_of (dedup products)) tbl
                (dedup_names products) (dedup_names_NoDup products)) as Hflags.
  pose proof (apply_rows_length tnow (map proposed_of (dedup products)) tbl) as Hlen.
  assert (Hcounts :
            added c =
              List.length
                (filter (fun p => is_none (find_by_name (name_of p) tbl))
                   (dedup products)) /\
            updated c =
              List.length
                (filter (fun p => negb (is_none (find_by_name (name_of p) tbl)))
                   (dedup products))).
  { rewrite Ha, Hu, Hflags, map_map, !filter_map_length. split; reflexivity. }
  destruct Hcounts as [Ha' Hu'].
  split; [|split; [|split; [|split; [|split]]]].
  - rewrite Ha', Hu', <- dedup_length.
    clear. induction (dedup products) as [|p rest IH]; simpl; [reflexivity|].
    destruct (is_none (find_by_name (name_of p) tbl)); simpl; lia.
  - exists (snd (apply_rows tnow (map proposed_of (dedup products)) tbl)).
    split; [rewrite Htbl; apply surjective_pairing|].
    split; [now rewrite Hflags, !length_map|]. split; assumption.
  - exact Ha'.
  - exact Hu'.
  - rewrite Htbl, Ha. exact Hlen.
  - intros I HI.
    assert (Hkey : key_of I <> "").
    { pose proof (dedup_keys_nonempty products) as H.
      rewrite Forall_forall in H. apply H, HI. }
    destruct (apply_rows_in tnow (map proposed_of (dedup products))
                (map name_of (dedup products)) tbl (proposed_of I) (name_of I)
                (dedup_names products) (dedup_names_NoDup products)
                (in_map proposed_of _ _ HI) (keyed_record_name I Hkey))
      as [id Hid].
    rewrite <- Htbl in Hid. unfold upserted in Hid.
    destruct (find_by_name (name_of I) tbl) as [R|]; [exact Hid|].
    exists id. exact Hid.
Qed.

(** Over the stored "Widget", the batch [" WIDGET"], ["Widget" with a
    cost], ["gadget"]: two keys, one row updated, one added. *)
Lemma bulk_counts_distinct_keys_witness :
  let batch := [just_name " WIDGET"; widget_update; just_name "gadget"] in
  let tbl' := snd (post_bulk accept_all 7 (Some batch) [widget_stored]) in
  added (mkCounts 1 1) + updated (mkCounts 1 1) = List.length (distinct_keys batch) /\
  List.length tbl' = List.length [widget_stored] + added (mkCounts 1 1) /\
  find_by_name "Widget" tbl' =
    Some (on_conflict_update 7 widget_stored (proposed_of widget_update)) /\
  exists id,
    find_by_name "gadget" tbl' =
    Some (insert_row 7 id "gadget" (proposed_of (just_name "gadget"))).
Proof.
  cbv zeta.
  destruct (bulk_counts_distinct_keys accept_all 7
              [just_name " WIDGET"; widget_update; just_name "gadget"]
              [widget_stored] 201 (mkCounts 1 1)
              (snd (post_bulk accept_all 7
                      (Some [just_name " WIDGET"; widget_update; just_name "gadget"])
                      [widget_stored]))
              eq_refl) as (Hsum & _ & _ & _ & Hlen & Hrows).
  split; [exact Hsum|]. split; [exact Hlen|]. split.
  - apply (Hrows widget_update). vm_compute. auto.
  - apply (Hrows (just_name "gadget")). vm_compute. auto.
Defined.

(** The key is folded and trimmed as the runtime does it, beyond ASCII:
    three names that differ by case and by no-break spaces are one key,
    and the last record is the one applied. *)
Example bulk_counts_beyond_ascii :
  let batch := [just_name "ÜRÜN"; just_name (nbsp ++ "ürün");
                just_name ("Ürün" ++ nbsp)] in
  post_bulk accept_all 7 (Some batch) [] =
    (Success 201 (mkCounts 1 0),
     [insert_row 7 1 ("Ürün" ++ nbsp) (proposed_of (just_name ("Ürün" ++ nbsp)))]) /\
  distinct_keys batch = ["ürün"].
Proof. vm_compute. split; reflexivity. Qed.

(** X7: a bulk import keeps the table well formed whatever its outcome:
    if no two stored products shared a name, none do afterwards, and
    likewise for ids; and when it succeeds the table has grown by
    exactly [added] rows. *)
Theorem bulk_keeps_table_well_formed :
  forall store_rejects tnow body tbl resp tbl',
    post_bulk store_rejects tnow body tbl = (resp, tbl') ->
    (NoDup (map p_name tbl) -> NoDup (map p_name tbl')) /\
    (NoDup (map p_id tbl) -> NoDup (map p_id tbl')) /\
    (forall c, reported resp = Some c ->
               List.length tbl' = List.length tbl + added c).
Proof.
  intros store_rejects tnow body tbl resp tbl' Hrun.
  pose proof (post_bulk_prefix _ _ _ _ _ _ Hrun) as (applied & Ht & _ & _).
  split; [|split].
  - intros Hnd. rewrite Ht.
    apply (apply_rows_invariant (fun t => NoDup (map p_name t))); [|exact Hnd].
    intros t n x. apply upsert_row_names.
  - intros Hnd. rewrite Ht.
    apply (apply_rows_invariant (fun t => NoDup (map p_id t))); [|exact Hnd].
    intros t n x. apply upsert_row_ids.
  - intros c Hc. destruct resp as [st c'|st e]; [|discriminate].
    injection Hc as ->. destruct body as [products|]; [|discriminate].
    apply post_bulk_success in Hrun. cbv zeta in Hrun.
    destruct Hrun as (-> & -> & _). apply apply_rows_length.
Qed.

Lemma bulk_keeps_table_well_formed_witness :
  NoDup (map p_name
           (snd (post_bulk accept_all 7
                   (Some [just_name "Widget A"; widget_update]) [widget_stored]))) /\
  List.length
    (snd (post_bulk accept_all 7
            (Some [just_name "Widget A"; widget_update]) [widget_stored])) =
  List.length [widget_stored] + added (mkCounts 1 1).
Proof.
  destruct (bulk_keeps_table_well_formed accept_all 7
              (Some [just_name "Widget A"; widget_update]) [widget_stored]
              (Success 201 (mkCounts 1 1))
              (snd (post_bulk accept_all 7
                      (Some [just_name "Widget A"; widget_update]) [widget_stored]))
              eq_refl) as (Hnames & _ & Hlen).
  split.
  - apply Hnames. repeat constructor. simpl. tauto.
  - apply (Hlen (mkCounts 1 1)). reflexivity.
Defined.

(** ** Chunked Upsert Executor: importing a batch again *)

Lemma coalesce_again {A : Type} (a b : option A) :
  coalesce a (coalesce a b) = coalesce a b.
Proof. destruct a; reflexivity. Qed.

Lemma coalesce_self {A : Type} (a : option A) : coalesce a a = a.
Proof. destruct a; reflexivity. Qed.

(** The row an upsert leaves under a name takes nothing new from the
    same proposal. *)
Lemma upserted_absorbs t1 t2 id tbl n x :
  forget_stamp (on_conflict_update t2 (upserted t1 id tbl n x) x) =
  forget_stamp (upserted t1 id tbl n x).
Proof.
  unfold upserted. destruct (find_by_name n tbl) as [old|]; unfold forget_stamp;
    simpl; now rewrite ?coalesce_again, ?coalesce_self.
Qed.

Lemma on_conflict_update_forget t R R' x :
  forget_stamp R = forget_stamp R' ->
  forget_stamp (on_conflict_update t R x) = forget_stamp (on_conflict_update t R' x).
Proof.
  unfold forget_stamp. intros H. injection H as Hid Hn _ Hb Hs Hw Hwi Hh Hl Hso Hps Hp Hd1 Hd2.
  simpl. congruence.
Qed.

Lemma find_forget n tbl tbl' :
  map forget_stamp tbl = map forget_stamp tbl' ->
  option_map forget_stamp (find_by_name n tbl) =
  option_map forget_stamp (find_by_name n tbl').
Proof.
  unfold find_by_name. revert tbl'.
  induction tbl as [|r rest IH]; intros [|r' rest'] H; try discriminate;
    [reflexivity|].
  simpl in H.
  remember (forget_stamp r) as a eqn:Ea. remember (forget_stamp r') as b eqn:Eb.
  injection H as Hr Hrest. subst a b. simpl.
  assert (Hname : named n r = named n r').
  { unfold named. apply (f_equal p_name) in Hr. simpl in Hr. now rewrite Hr. }
  rewrite <- Hname. destruct (named n r); simpl; [now rewrite Hr | apply IH, Hrest].
Qed.

(** Applying again rows that the table has absorbed changes no value
    and inserts nothing. *)
Lemma apply_rows_absorbed t2 tbl1 rows : forall ns tbl,
  map x_name rows = map Some ns ->
  (forall x n, In x rows -> x_name x = Some n ->
     exists R1, find_by_name n tbl1 = Some R1 /\
                forget_stamp (on_conflict_update t2 R1 x) = forget_stamp R1) ->
  map forget_stamp tbl = map forget_stamp tbl1 ->
  map forget_stamp (fst (apply_rows t2 rows tbl)) = map forget_stamp tbl1 /\
  filter (fun b : bool => b) (snd (apply_rows t2 rows tbl)) = [].
Proof.
  induction rows as [|x rest IH]; intros ns tbl Hns Habs Hsame.
  - split; [exact Hsame | reflexivity].
  - destruct ns as [|n ns']; [discriminate|]. simpl in Hns.
    injection Hns as Hx Hrest.
    rewrite (apply_rows_cons t2 x n) by assumption. cbn [fst snd].
    destruct (Habs x n (or_introl eq_refl) Hx) as (R1 & HR1 & Hfix).
    pose proof (find_forget n tbl tbl1 Hsame) as Hfind. rewrite HR1 in Hfind.
    destruct (find_by_name n tbl) as [R|] eqn:HR; [|discriminate].
    assert (HRR1 : forget_stamp R = forget_stamp R1)
      by (simpl in Hfind; congruence).
    simpl.
    apply (IH ns'); [exact Hrest | |].
    + intros y m Hy Hm. apply (Habs y m); [right; exact Hy | exact Hm].
    + unfold upsert_row. rewrite HR. simpl.
      rewrite (replace_named_map forget_stamp n _ R); [exact Hsame | exact HR|].
      rewrite (on_conflict_update_forget t2 R R1 x HRR1), Hfix. now symmetry.
Qed.

(** X8: importing the same batch a second time, both imports
    succeeding, adds nothing: the second response has [added = 0] and
    [updated] equal to the number of distinct keys, and every product
    has the values the first import left, in every column but
    [updated_at]. *)
Theorem bulk_reimport_changes_nothing :
  forall store_rejects t1 t2 products tbl st1 c1 tbl1 st2 c2 tbl2,
    post_bulk store_rejects t1 (Some products) tbl = (Success st1 c1, tbl1) ->
    post_bulk store_rejects t2 (Some products) tbl1 = (Success st2 c2, tbl2) ->
    added c2 = 0 /\
    updated c2 = List.length (distinct_keys products) /\
    map forget_stamp tbl2 = map forget_stamp tbl1.
Proof.
  intros store_rejects t1 t2 products tbl st1 c1 tbl1 st2 c2 tbl2 Hrun1 Hrun2.
  apply post_bulk_success in Hrun1, Hrun2. cbv zeta in Hrun1, Hrun2.
  destruct Hrun1 as (Ht1 & _). destruct Hrun2 as (Ht2 & Ha2 & Hu2).
  destruct (apply_rows_absorbed t2 tbl1 (map proposed_of (dedup products))
              (map name_of (dedup products)) tbl1) as [Hsame Hflags].
  - apply dedup_names.
  - intros x n Hx Hn.
    destruct (apply_rows_in t1 (map proposed_of (dedup products))
                (map name_of (dedup products)) tbl x n
                (dedup_names products) (dedup_names_NoDup products) Hx Hn)
      as [id Hid].
    rewrite <- Ht1 in Hid. eexists. split; [exact Hid|]. apply upserted_absorbs.
  - reflexivity.
  - rewrite Ht2. split; [|split; [|exact Hsame]].
    + rewrite Ha2, Hflags. reflexivity.
    + pose proof (filter_flags_total
                    (snd (apply_rows t2 (map proposed_of (dedup products)) tbl1))) as Htot.
      rewrite Hflags in Htot. simpl in Htot. rewrite Hu2, Htot.
      rewrite (apply_rows_flags t2 _ (map name_of (dedup products)))
        by (apply dedup_names || apply dedup_names_NoDup).
      rewrite !length_map. apply dedup_length.
Qed.

Lemma bulk_reimport_changes_nothing_witness :
  added (mkCounts 0 2) = 0 /\
  updated (mkCounts 0 2) =
    List.length (distinct_keys [just_name "Widget A"; widget_update]) /\
  map forget_stamp
    (snd (post_bulk accept_all 8 (Some [just_name "Widget A"; widget_update])
            (snd (post_bulk accept_all 7
                    (Some [just_name "Widget A"; widget_update]) [widget_stored])))) =
  map forget_stamp
    (snd (post_bulk accept_all 7
            (Some [just_name "Widget A"; widget_update]) [widget_stored])).
Proof.
  exact (bulk_reimport_changes_nothing accept_all 7 8
           [just_name "Widget A"; widget_update] [widget_stored]
           201 (mkCounts 1 1)
           (snd (post_bulk accept_all 7
                   (Some [just_name "Widget A"; widget_update]) [widget_stored]))
           201 (mkCounts 0 2)
           (snd (post_bulk accept_all 8 (Some [just_name "Widget A"; widget_update])
                   (snd (post_bulk accept_all 7
                           (Some [just_name "Widget A"; widget_update]) [widget_stored]))))
           eq_refl eq_refl).
Defined.

(** ** Reconciliation Synchronizer: what a run keeps and what it reaches *)

Lemma refresh_row_kept pick t J sm : kept_by_sync J sm (refresh_row pick t J sm).
Proof.
  unfold kept_by_sync, refresh_row.
  destruct (filter (update_matches sm) J); repeat split; auto; discriminate.
Qed.

Lemma kept_by_sync_refl J sm : kept_by_sync J sm sm.
Proof. unfold kept_by_sync. repeat split; auto. Qed.

Lemma Forall2_map_right {A B : Type} (R : A -> B -> Prop) (f : A -> B) (l : list A) :
  (forall a, R a (f a)) -> Forall2 R l (map f l).
Proof. intros H. induction l; simpl; constructor; auto. Qed.

(** Whatever its outcome, a run leaves the table as a row-by-row image
    of the old one followed by the rows it inserted. *)
Lemma post_sync_shape sku_rejects pick t mpd products tbl resp tbl' :
  post_sync sku_rejects pick t mpd products tbl = (resp, tbl') ->
  exists kept inserted,
    tbl' = kept ++ inserted /\
    Forall2 (kept_by_sync (joined mpd products)) tbl kept /\
    incl inserted (candidates t (joined mpd products)) /\
    (forall c, reported resp = Some c ->
       kept = phase_a pick t (joined mpd products) tbl /\
       insert_do_nothing (candidates t (joined mpd products)) kept = (tbl', inserted) /\
       sc_inserted c = List.length inserted /\
       sc_total c = List.length (filter is_amazon tbl') /\
       sc_withCost c =
         List.length (filter (fun r => negb (is_none (s_cost r)))
                        (filter is_amazon tbl')) /\
       sc_withSize c =
         List.length (filter (fun r => negb (is_none (s_size r)))
                        (filter is_amazon tbl'))).
Proof.
  unfold post_sync. cbv zeta.
  set (J := joined mpd products).
  destruct (sku_rejects (refreshed pick t J tbl)).
  { intros H. injection H as <- <-. exists tbl, []. rewrite app_nil_r.
    split; [reflexivity|]. split.
    - rewrite <- (map_id tbl) at 2. apply Forall2_map_right.
      intros a. apply kept_by_sync_refl.
    - split; [intros x []|]. discriminate. }
  destruct (sku_rejects (candidates t J)).
  { intros H. injection H as <- <-. exists (phase_a pick t J tbl), [].
    rewrite app_nil_r. split; [reflexivity|]. split.
    - apply Forall2_map_right. intros a. apply refresh_row_kept.
    - split; [intros x []|]. discriminate. }
  pose proof (insert_do_nothing_appends (candidates t J) (phase_a pick t J tbl)) as Happ.
  pose proof (insert_do_nothing_returned (candidates t J) (phase_a pick t J tbl)) as Hret.
  destruct (insert_do_nothing (candidates t J) (phase_a pick t J tbl))
    as [tbl2 ret] eqn:Hb.
  simpl in Happ, Hret. intros H. injection H as <- <-.
  exists (phase_a pick t J tbl), ret. split; [exact Happ|]. split.
  - apply Forall2_map_right. intros a. apply refresh_row_kept.
  - split; [intros x Hx; apply Hret, Hx|].
    intros c Hc. injection Hc as <-. simpl.
    split; [reflexivity|]. split; [exact Hb|]. repeat split.
Qed.

(** X9: whatever the outcome of a run, the synchronizer deletes no
    [sku_master] row and moves none: the table afterwards is the old
    table row by row, followed by the inserted rows.  Each old row keeps
    its key (sku, marketplace, country_code), its asin, its iwasku and
    its fulfillment; a row that is not of 'amazon', or that no mapping
    and product pair matches, is left exactly as it was. *)
Theorem sync_keeps_rows :
  forall sku_rejects pick tnow mpd products tbl resp tbl',
    post_sync sku_rejects pick tnow mpd products tbl = (resp, tbl') ->
    exists kept inserted,
      tbl' = kept ++ inserted /\
      Forall2 (kept_by_sync (joined mpd products)) tbl kept /\
      Forall (fun r => s_marketplace r = "amazon") inserted.
Proof.
  intros sku_rejects pick tnow mpd products tbl resp tbl' Hrun.
  destruct (post_sync_shape _ _ _ _ _ _ _ _ Hrun)
    as (kept & inserted & Ht & Hkept & Hins & _).
  exists kept, inserted. split; [exact Ht|]. split; [exact Hkept|].
  apply Forall_forall. intros r Hr.
  destruct (candidates_In _ _ _ (Hins r Hr)) as (j & s & _ & _ & _ & ->).
  reflexivity.
Qed.

Lemma sync_keeps_rows_witness :
  exists kept inserted,
    snd (post_sync accept_skus pick_first 2 [listing 1 "X"] [alpha]
           [placeholder 1 m1]) = kept ++ inserted /\
    Forall2 (kept_by_sync (joined [listing 1 "X"] [alpha])) [placeholder 1 m1] kept /\
    Forall (fun r => s_marketplace r = "amazon") inserted.
Proof.
  exact (sync_keeps_rows accept_skus pick_first 2 [listing 1 "X"] [alpha]
           [placeholder 1 m1]
           (fst (post_sync accept_skus pick_first 2 [listing 1 "X"] [alpha]
                   [placeholder 1 m1]))
           (snd (post_sync accept_skus pick_first 2 [listing 1 "X"] [alpha]
                   [placeholder 1 m1]))
           eq_refl).
Defined.

Lemma key_taken_exists r tbl :
  key_taken r tbl = true ->
  exists x, In x tbl /\ s_sku x = s_sku r /\ s_marketplace x = s_marketplace r /\
            s_country_code x = s_country_code r.
Proof.
  unfold key_taken. intros H. apply existsb_exists in H.
  destruct H as (x & Hx & Hkey). exists x. split; [exact Hx|].
  unfold same_key in Hkey.
  apply andb_true_iff in Hkey. destruct Hkey as [Hkey Hc].
  apply andb_true_iff in Hkey. destruct Hkey as [Hs Hm].
  apply String.eqb_eq in Hs, Hm, Hc. auto.
Qed.

(** X10: after a run that ends without an error, every mapping that has
    a non-empty SKU and is joined to a product is represented: the
    table holds a row with that SKU, marketplace 'amazon' and the
    mapping's country_code. *)
Theorem sync_covers_every_listing :
  forall sku_rejects pick tnow mpd products tbl st c tbl' m p s,
    post_sync sku_rejects pick tnow mpd products tbl = (Success st c, tbl') ->
    In (m, p) (joined mpd products) ->
    m_sku m = Some s -> s <> "" ->
    exists r,
      In r tbl' /\ s_sku r = s /\ s_marketplace r = "amazon" /\
      s_country_code r = m_country_code m.
Proof.
  intros sku_rejects pick tnow mpd products tbl st c tbl' m p s Hrun Hj Hs Hne.
  apply post_sync_success in Hrun. destruct Hrun as (ret & Hb & _).
  assert (Hcand : In (selected tnow s (m, p))
                    (candidates tnow (joined mpd products))).
  { unfold candidates. apply in_flat_map. exists (m, p). split; [exact Hj|].
    unfold candidate. simpl. rewrite Hs.
    destruct (s =? "")%string eqn:E; [apply String.eqb_eq in E; tauto|].
    left. reflexivity. }
  pose proof (insert_do_nothing_covers _
                (phase_a pick tnow (joined mpd products) tbl) _ Hcand) as Hkey.
  rewrite Hb in Hkey. simpl in Hkey.
  destruct (key_taken_exists _ _ Hkey) as (x & Hx & Hsku & Hmk & Hcc).
  exists x. simpl in *. auto.
Qed.

Lemma sync_covers_every_listing_witness :
  exists r,
    In r (snd (post_sync accept_skus pick_first 1 [listing 1 "X"] [alpha] [])) /\
    s_sku r = "X" /\ s_marketplace r = "amazon" /\ s_country_code r = "US".
Proof.
  apply (sync_covers_every_listing accept_skus pick_first 1 [listing 1 "X"] [alpha] []
           200 (mkSync 0 1 1 1 0)
           (snd (post_sync accept_skus pick_first 1 [listing 1 "X"] [alpha] []))
           (listing 1 "X") alpha "X").
  - reflexivity.
  - left. reflexivity.
  - reflexivity.
  - discriminate.
Defined.

Lemma insert_do_nothing_unique rows : forall tbl,
  (forall r, List.length (filter (same_key r) tbl) <= 1) ->
  forall r, List.length (filter (same_key r) (fst (insert_do_nothing rows tbl))) <= 1.
Proof.
  induction rows as [|x rest IH]; intros tbl Huniq; simpl; [exact Huniq|].
  destruct (key_taken x tbl) eqn:E.
  - apply IH, Huniq.
  - specialize (IH (tbl ++ [x]) (unique_keys_insert x tbl E Huniq)).
    destruct (insert_do_nothing rest (tbl ++ [x])). exact IH.
Qed.

Lemma phase_a_unique pick t J tbl r :
  List.length (filter (same_key r) (phase_a pick t J tbl)) =
  List.length (filter (same_key r) tbl).
Proof.
  unfold phase_a. rewrite filter_map_length.
  now rewrite (filter_ext _ _ (fun sm => refresh_row_same_key pick t J sm r)).
Qed.

(** X11: whatever the outcome of a run, the synchronizer keeps the
    uniqueness constraint of [sku_master]: if no two rows shared a key
    (sku, marketplace, country_code) before, none do afterwards. *)
Theorem sync_keeps_keys_unique :
  forall sku_rejects pick tnow mpd products tbl resp tbl',
    post_sync sku_rejects pick tnow mpd products tbl = (resp, tbl') ->
    (forall r, List.length (filter (same_key r) tbl) <= 1) ->
    forall r, List.length (filter (same_key r) tbl') <= 1.
Proof.
  intros sku_rejects pick tnow mpd products tbl resp tbl'.
  unfold post_sync. cbv zeta.
  destruct (sku_rejects (refreshed pick tnow (joined mpd products) tbl)).
  { intros H Huniq. injection H as _ <-. exact Huniq. }
  destruct (sku_rejects (candidates tnow (joined mpd products))).
  { intros H Huniq r. injection H as _ <-. rewrite phase_a_unique. apply Huniq. }
  pose proof (insert_do_nothing_unique (candidates tnow (joined mpd products))
                (phase_a pick tnow (joined mpd products) tbl)) as Hins.
  destruct (insert_do_nothing (candidates tnow (joined mpd products))
              (phase_a pick tnow (joined mpd products) tbl)) as [tbl2 ret].
  intros H Huniq. injection H as _ <-. apply Hins.
  intros r. rewrite phase_a_unique. apply Huniq.
Qed.

Lemma sync_keeps_keys_unique_witness :
  List.length
    (filter (same_key (selected 1 "X" (listing 1 "X", alpha)))
       (snd (post_sync accept_skus pick_first 1
               [listing 1 "X"; listing 1 "X"] [alpha] []))) <= 1.
Proof.
  apply (sync_keeps_keys_unique accept_skus pick_first 1
           [listing 1 "X"; listing 1 "X"] [alpha] []
           (fst (post_sync accept_skus pick_first 1
                   [listing 1 "X"; listing 1 "X"] [alpha] []))).
  - reflexivity.
  - intros r. simpl. lia.
Defined.

(** ** The analyzer listing *)

Lemma Permutation_filter_length {A : Type} (f : A -> bool) (l l' : list A) :
  Permutation l l' -> List.length (filter f l) = List.length (filter f l').
Proof.
  induction 1 as [|x l l' _ IH|x y l|l l' l'' _ IH1 _ IH2]; simpl.
  - reflexivity.
  - destruct (f x); simpl; now rewrite IH.
  - destruct (f x), (f y); reflexivity.
  - now rewrite IH1.
Qed.

Lemma col_or_empty (s : string) : col_or (Some s) "" = s.
Proof.
  simpl. destruct (s =? "")%string eqn:E; [|reflexivity].
  apply String.eqb_eq in E. now subst.
Qed.

Section Listing.

Variable order_by : list sku_row -> list sku_row.
Hypothesis order_by_permutes : forall rows, Permutation (order_by rows) rows.

Lemma get_mapping_counts tnow tbl :
  let amazon := filter is_amazon tbl in
  get_mapping None order_by tnow tbl =
    Success 200
      (map analyzer_item_of (order_by amazon),
       mkMeta (List.length amazon)
         (List.length (filter (fun r => negb (is_none (s_cost r))) amazon))
         (List.length (filter (fun r => negb (is_none (s_size r))) amazon))
         tnow).
Proof.
  cbv zeta. unfold get_mapping. cbv zeta.
  pose proof (order_by_permutes (filter is_amazon tbl)) as Hperm.
  rewrite !filter_map_length, length_map.
  apply f_equal, f_equal. f_equal.
  - apply Permutation_length, Hperm.
  - apply (Permutation_filter_length _ _ _ Hperm).
  - apply (Permutation_filter_length _ _ _ Hperm).
Qed.

(** X12: the analyzer listing shows the 'amazon' rows of [sku_master]
    and nothing else, one item per row, in the store's order; its
    [total] is their number, [withCost] and [withSize] the numbers of
    those with a cost and with a size. *)
Theorem listing_shows_amazon_rows :
  forall query_error tnow tbl st data meta,
    get_mapping query_error order_by tnow tbl = Success st (data, meta) ->
    Permutation data (map analyzer_item_of (filter is_amazon tbl)) /\
    am_total meta = List.length (filter is_amazon tbl) /\
    am_withCost meta =
      List.length (filter (fun r => negb (is_none (s_cost r))) (filter is_amazon tbl)) /\
    am_withSize meta =
      List.length (filter (fun r => negb (is_none (s_size r))) (filter is_amazon tbl)).
Proof.
  intros query_error tnow tbl st data meta.
  destruct query_error; [unfold get_mapping; discriminate|].
  rewrite get_mapping_counts. cbv zeta.
  intros H. injection H as _ <- <-. simpl.
  split; [apply Permutation_map, order_by_permutes|]. auto.
Qed.

(** X13: the statistics a synchronizer run reports are those the
    analyzer listing shows of the table the run leaves: [total],
    [withCost] and [withSize] agree. *)
Theorem sync_stats_match_listing :
  forall sku_rejects pick t1 t2 mpd products tbl st c tbl',
    post_sync sku_rejects pick t1 mpd products tbl = (Success st c, tbl') ->
    exists data meta,
      get_mapping None order_by t2 tbl' = Success 200 (data, meta) /\
      am_total meta = sc_total c /\
      am_withCost meta = sc_withCost c /\
      am_withSize meta = sc_withSize c.
Proof.
  intros sku_rejects pick t1 t2 mpd products tbl st c tbl' Hrun.
  destruct (post_sync_shape _ _ _ _ _ _ _ _ Hrun)
    as (kept & inserted & _ & _ & _ & Hstats).
  destruct (Hstats c eq_refl) as (_ & _ & _ & Htot & Hcost & Hsize).
  eexists. eexists. split; [apply get_mapping_counts|].
  simpl. auto.
Qed.

End Listing.

Lemma storage_order_permutes rows : Permutation (storage_order rows) rows.
Proof. apply Permutation_refl. Qed.

Lemma listing_shows_amazon_rows_witness :
  Permutation
    [analyzer_item_of (placeholder 1 m1)]
    (map analyzer_item_of (filter is_amazon [placeholder 1 m1])) /\
  am_total (mkMeta 1 0 0 5) = List.length (filter is_amazon [placeholder 1 m1]) /\
  am_withCost (mkMeta 1 0 0 5) =
    List.length (filter (fun r => negb (is_none (s_cost r)))
                   (filter is_amazon [placeholder 1 m1])) /\
  am_withSize (mkMeta 1 0 0 5) =
    List.length (filter (fun r => negb (is_none (s_size r)))
                   (filter is_amazon [placeholder 1 m1])).
Proof.
  exact (listing_shows_amazon_rows storage_order storage_order_permutes None 5
           [placeholder 1 m1] 200
           [analyzer_item_of (placeholder 1 m1)] (mkMeta 1 0 0 5) eq_refl).
Defined.

Lemma sync_stats_match_listing_witness :
  exists data meta,
    get_mapping None storage_order 2
      (snd (post_sync accept_skus pick_first 1 [listing 1 "X"] [alpha] [])) =
      Success 200 (data, meta) /\
    am_total meta = 1 /\ am_withCost meta = 1 /\ am_withSize meta = 0.
Proof.
  exact (sync_stats_match_listing storage_order storage_order_permutes
           accept_skus pick_first 1 2 [listing 1 "X"] [alpha] []
           200 (mkSync 0 1 1 1 0)
           (snd (post_sync accept_skus pick_first 1 [listing 1 "X"] [alpha] []))
           eq_refl).
Defined.

(** *** From the ingester to the listing *)

Lemma missing_loop_covers sku_rejects tnow skus : forall tbl a s a' s' tbl',
  missing_loop sku_rejects tnow skus tbl a s = (inr (a', s'), tbl') ->
  forall e, In e skus ->
    falsy (si_sku e) = false -> falsy (si_marketplace e) = false ->
    key_taken (placeholder tnow e) tbl' = true.
Proof.
  induction skus as [|x rest IH]; intros tbl a s a' s' tbl' Hrun e He Hs Hm;
    [destruct He|].
  assert (Hgrow : forall t b c, missing_loop sku_rejects tnow rest t b c = (inr (a', s'), tbl') ->
                    key_taken (placeholder tnow e) t = true ->
                    key_taken (placeholder tnow e) tbl' = true).
  { intros t b c Hloop Hkey.
    destruct (missing_loop_appends _ _ _ _ _ _ _ _ Hloop) as (new & -> & _).
    apply key_taken_app, Hkey. }
  cbn [missing_loop] in Hrun.
  destruct (falsy (si_sku x) || falsy (si_marketplace x)) eqn:Hguard.
  - destruct He as [-> | He]; [rewrite Hs, Hm in Hguard; discriminate|].
    eapply IH; eassumption.
  - unfold insert_statement in Hrun.
    destruct (sku_rejects [placeholder tnow x]); [discriminate|].
    rewrite insert_one in Hrun.
    destruct (key_taken (placeholder tnow x) tbl) eqn:Hkey; cbn in Hrun.
    + destruct He as [-> | He]; [eapply Hgrow; eassumption|].
      eapply IH; eassumption.
    + destruct He as [-> | He]; [|eapply IH; eassumption].
      eapply Hgrow; [eassumption|]. apply key_taken_last.
Qed.

(** X14: after a request to the ingester that ends without an error,
    the analyzer listing has an item for every entry that carried a SKU
    and a marketplace tag, under that SKU and with the tag as its
    marketplace; and each placeholder the request inserted is listed
    with its name (the entry's name, else the SKU) as parent and with
    no cost and no size. *)
Theorem ingested_entries_are_listed :
  forall sku_rejects order_by t1 t2 skus tbl st c tbl' data meta,
    (forall rows, Permutation (order_by rows) rows) ->
    post_missing sku_rejects t1 (Some skus) tbl = (Success st c, tbl') ->
    get_mapping None order_by t2 tbl' = Success 200 (data, meta) ->
    (forall e sku marketplace,
       In e skus ->
       si_sku e = Val sku -> sku <> "" ->
       si_marketplace e = Val marketplace -> marketplace <> "" ->
       exists item,
         In item data /\ ai_sku item = sku /\ ai_marketplace item = marketplace) /\
    exists new,
      tbl' = tbl ++ new /\
      forall r, In r new ->
        In (analyzer_item_of r) data /\
        ai_parent (analyzer_item_of r) = ai_name (analyzer_item_of r) /\
        ai_name (analyzer_item_of r) <> "" /\
        ai_cost (analyzer_item_of r) = None /\
        ai_size (analyzer_item_of r) = None.
Proof.
  intros sku_rejects order_by t1 t2 skus tbl st c tbl' data meta Hperm Hrun Hget.
  assert (Hdata : forall x, In x tbl' -> s_marketplace x = "amazon" ->
                            In (analyzer_item_of x) data).
  { intros x Hx Hmk. unfold get_mapping in Hget. cbv zeta in Hget.
    injection Hget as <- _. apply in_map.
    apply (Permutation_in _ (Permutation_sym (Hperm _))).
    apply filter_In. split; [exact Hx|]. unfold is_amazon. rewrite Hmk.
    reflexivity. }
  split.
  - intros e sku marketplace He Hsku Hne Hmk Hne'.
    unfold post_missing in Hrun.
    destruct (missing_loop sku_rejects t1 skus tbl 0 0) as [[err | [a s]] tbl1] eqn:Hloop;
      [discriminate|]. injection Hrun as _ _ <-.
    assert (Hkey : key_taken (placeholder t1 e) tbl1 = true).
    { apply (missing_loop_covers _ _ _ _ _ _ _ _ _ Hloop e He).
      - rewrite Hsku. simpl. now apply String.eqb_neq.
      - rewrite Hmk. simpl. now apply String.eqb_neq. }
    destruct (key_taken_exists _ _ Hkey) as (x & Hx & Hs & Hm & Hc).
    exists (analyzer_item_of x). split; [apply Hdata; assumption|].
    simpl in Hs, Hc. unfold text_of in Hs, Hc. rewrite Hsku in Hs. rewrite Hmk in Hc.
    simpl in Hs, Hc.
    apply String.eqb_neq in Hne, Hne'. rewrite Hne in Hs. rewrite Hne' in Hc.
    split; [exact Hs|]. unfold analyzer_item_of, ai_marketplace.
    rewrite col_or_empty. exact Hc.
  - destruct (post_missing_appends _ _ _ _ _ _ Hrun) as (new & Ht & Hnew & _).
    exists new. split; [exact Ht|].
    intros r Hr. destruct (Hnew r Hr) as (e & _ & Hs & Hm & ->).
    split; [apply Hdata; [rewrite Ht; apply in_or_app; right; exact Hr | reflexivity]|].
    destruct (falsy_text _ Hs) as [_ Hsku].
    assert (Hname : or_str (si_name e) (text_of (si_sku e)) <> "").
    { destruct (si_name e) as [| |n]; simpl; try assumption.
      destruct (n =? "")%string eqn:E; [assumption|].
      now apply String.eqb_neq. }
    simpl. apply String.eqb_neq in Hname. rewrite Hname.
    apply String.eqb_neq in Hname. auto.
Qed.

Lemma ingested_entries_are_listed_witness :
  exists item,
    In item [analyzer_item_of (placeholder 1 m1)] /\
    ai_sku item = "M1" /\ ai_marketplace item = "amazon".
Proof.
  apply (proj1 (ingested_entries_are_listed accept_skus storage_order 1 2 [m1] []
                  200 (mkMissing 1 0 1) [placeholder 1 m1]
                  [analyzer_item_of (placeholder 1 m1)] (mkMeta 1 0 0 2)
                  storage_order_permutes eq_refl eq_refl)
           m1 "M1" "amazon").
  - left. reflexivity.
  - reflexivity.
  - discriminate.
  - reflexivity.
  - discriminate.
Defined.


(** *** Instances *)

Lemma bulk_never_deletes_witness :
  exists R',
    find_by_name "Widget"
      (snd (post_bulk varchar_limits 7 (Some [widget_update; refused_record])
              [widget_stored])) = Some R' /\
    p_id R' = 1 /\ p_name R' = "Widget" /\ p_source R' = Some "manual" /\
    p_default_custom_shipping R' = None /\ p_default_fbm_source R' = None.
Proof.
  exact (bulk_never_deletes varchar_limits 7 (Some [widget_update; refused_record])
           [widget_stored]
           (fst (post_bulk varchar_limits 7 (Some [widget_update; refused_record])
                   [widget_stored]))
           (snd (post_bulk varchar_limits 7 (Some [widget_update; refused_record])
                   [widget_stored]))
           "Widget" widget_stored eq_refl eq_refl).
Defined.

Lemma bulk_leaves_other_names_witness :
  find_by_name "Widget"
    (snd (post_bulk accept_all 7 (Some [just_name "Gadget"]) [widget_stored])) =
  find_by_name "Widget" [widget_stored].
Proof.
  apply (bulk_leaves_other_names accept_all 7 [just_name "Gadget"] [widget_stored]
           (fst (post_bulk accept_all 7 (Some [just_name "Gadget"]) [widget_stored]))).
  - reflexivity.
  - intros p [<- | []]. discriminate.
Defined.

Lemma bulk_inserts_new_product_witness :
  exists R',
    find_by_name "widget a "
      (snd (post_bulk accept_all 7 (Some [just_name "Widget A"; widget_a_costed]) []))
    = Some R' /\
    p_base_cost R' = Some 5%Z /\ p_source R' = Some "csv" /\ p_updated_at R' = 7.
Proof.
  destruct (bulk_inserts_new_product accept_all 7
              [just_name "Widget A"; widget_a_costed] [] 201 (mkCounts 1 0)
              (snd (post_bulk accept_all 7
                      (Some [just_name "Widget A"; widget_a_costed]) []))
              widget_a_costed eq_refl (or_introl eq_refl) eq_refl)
    as (R' & Hfind & _ & _ & Hcost & _ & _ & _ & _ & _ & _ & _ & Hsrc & _ & _ & Hat).
  exists R'. auto.
Defined.

(** ** Single products *)

Lemma joined_profiles_In profiles r v :
  In v (joined_profiles profiles r) ->
  exists cp,
    v = view_of r cp /\
    match cp with
    | Some c => c_cost_profile_id r = Some (cp_id c) /\ In c profiles
    | None => True
    end.
Proof.
  unfold joined_profiles.
  destruct (filter _ profiles) as [|c0 found] eqn:E.
  - intros [<- | []]. exists None. auto.
  - intros H. apply in_map_iff in H. destruct H as (c & <- & Hc).
    rewrite <- E in Hc. apply filter_In in Hc. destruct Hc as [Hin Hid].
    exists (Some c). split; [reflexivity|].
    destruct (c_cost_profile_id r) as [i|]; [|discriminate].
    apply Nat.eqb_eq in Hid. subst. auto.
Qed.

Lemma joined_profiles_head profiles r :
  exists v rest, joined_profiles profiles r = v :: rest /\ v_row v = r.
Proof.
  unfold joined_profiles. destruct (filter _ profiles) as [|c found].
  - eexists. eexists. split; reflexivity.
  - eexists. eexists. split; reflexivity.
Qed.

Lemma get_product_found query_error profiles id tbl st v :
  get_product query_error profiles id tbl = Success st v ->
  exists r, In r tbl /\ has_id id r = true /\ In v (joined_profiles profiles r).
Proof.
  unfold get_product. destruct query_error; [discriminate|].
  destruct (flat_map (joined_profiles profiles) (filter (has_id id) tbl))
    as [|v0 rest] eqn:E; [discriminate|].
  intros H. injection H as _ <-.
  assert (Hin : In v0 (flat_map (joined_profiles profiles) (filter (has_id id) tbl)))
    by (rewrite E; left; reflexivity).
  apply in_flat_map in Hin. destruct Hin as (r & Hr & Hv).
  apply filter_In in Hr. exists r. tauto.
Qed.

(** X15: the view [GET /:id] returns is of a stored product with that
    id, and its [cost_source] tells where [effective_base_cost] comes
    from: it is null exactly when the effective cost is null, 'product'
    only when the effective cost is the product's own, 'profile' only
    when a cost profile is joined; and with no profile joined every
    effective value is the product's own. *)
Theorem view_tells_cost_source :
  forall query_error profiles id tbl st v,
    get_product query_error profiles id tbl = Success st v ->
    In (v_row v) tbl /\
    p_id (c_product (v_row v)) = id /\
    (v_cost_source v = None <-> v_effective_base_cost v = None) /\
    (v_cost_source v = None \/ v_cost_source v = Some "product" \/
     v_cost_source v = Some "profile") /\
    (v_cost_source v = Some "product" ->
     v_effective_base_cost v = p_base_cost (c_product (v_row v))) /\
    (v_cost_source v = Some "profile" ->
     c_cost_profile_id (v_row v) <> None /\ v_cost_profile_name v <> None) /\
    (v_cost_profile_name v = None ->
     v_effective_base_cost v = p_base_cost (c_product (v_row v)) /\
     v_effective_weight v = p_weight (c_product (v_row v)) /\
     v_effective_width v = p_width (c_product (v_row v)) /\
     v_effective_height v = p_height (c_product (v_row v)) /\
     v_effective_length v = p_length (c_product (v_row v))).
Proof.
  intros query_error profiles id tbl st v Hget.
  destruct (get_product_found _ _ _ _ _ _ Hget) as (r & Hr & Hid & Hv).
  destruct (joined_profiles_In _ _ _ Hv) as (cp & -> & Hcp).
  unfold has_id in Hid. apply Nat.eqb_eq in Hid.
  split; [exact Hr|]. split; [exact Hid|].
  destruct cp as [c|]; simpl.
  - destruct Hcp as [Hassigned _].
    destruct (cp_base_cost c) as [x|], (p_base_cost (c_product r)) as [y|];
      simpl; repeat split; try tauto; try discriminate; try congruence; auto.
  - destruct (p_base_cost (c_product r)) as [y|];
      simpl; repeat split; try tauto; try discriminate; try congruence; auto.
Qed.

Lemma next_id_above tbl r :
  In r tbl -> p_id (c_product r) < next_id tbl.
Proof.
  unfold next_id. induction tbl as [|x rest IH]; simpl; [tauto|].
  intros [<- | H]; [lia|]. specialize (IH H). lia.
Qed.

Lemma filter_none {A : Type} (f : A -> bool) (l : list A) :
  (forall a, In a l -> f a = false) -> filter f l = [].
Proof.
  induction l as [|a rest IH]; intros H; simpl; [reflexivity|].
  rewrite (H a) by (simpl; auto). apply IH. intros b Hb. apply H. simpl. auto.
Qed.

Lemma existsb_false_map (n : string) (tbl : catalog) :
  existsb (has_name n) tbl = false ->
  ~ In n (map (fun r => p_name (c_product r)) tbl).
Proof.
  intros H Hin. apply in_map_iff in Hin. destruct Hin as (r & Hr & Hin).
  assert (existsb (has_name n) tbl = true); [|congruence].
  apply existsb_exists. exists r. split; [exact Hin|].
  unfold has_name. rewrite Hr. apply String.eqb_refl.
Qed.

(** X16: [POST /] never changes a stored product.  When it fails the
    table is as before (and it fails whenever the name is missing or
    already stored); when it succeeds the table has one more row, the
    one returned: under a name that was not stored, with an id that no
    other row has, [source] defaulting to 'manual' and no parent.
    [GET /:id] then returns that row for its id and answers as before
    for every other id. *)
Theorem post_product_outcome :
  forall row_rejects profiles tnow b tbl resp tbl',
    post_product row_rejects profiles tnow b tbl = (resp, tbl') ->
    match resp with
    | Failure _ _ => tbl' = tbl
    | Success _ r =>
        tbl' = tbl ++ [r] /\
        b_name b = Val (p_name (c_product r)) /\
        ~ In (p_name (c_product r)) (map (fun x => p_name (c_product x)) tbl) /\
        ~ In (p_id (c_product r)) (map (fun x => p_id (c_product x)) tbl) /\
        p_source (c_product r) =
          Some match b_source b with
               | Val s => if (s =? "")%string then "manual" else s
               | Null => "manual"
               | Undefined => "manual"
               end /\
        p_parent (c_product r) = None /\
        (exists v, get_product None profiles (p_id (c_product r)) tbl' = Success 200 v /\
                   v_row v = r) /\
        (forall i, i <> p_id (c_product r) ->
           get_product None profiles i tbl' = get_product None profiles i tbl)
    end.
Proof.
  intros row_rejects profiles tnow b tbl resp tbl'. unfold post_product.
  destruct (b_name b) as [| |n] eqn:Hname; simpl;
    try (intros H; injection H as <- <-; reflexivity).
  unfold write_error.
  destruct (existsb (has_name n) tbl) eqn:Hdup;
    [intros H; injection H as <- <-; reflexivity|].
  assert (Hcont : forall resp0,
            (match row_rejects (created_row tnow (next_id tbl) n b) with
             | Some e => (Failure 500 e, tbl)
             | None => (Success 201 (created_row tnow (next_id tbl) n b),
                        tbl ++ [created_row tnow (next_id tbl) n b])
             end = (resp0, tbl')) ->
            match resp0 with
            | Failure _ _ => tbl' = tbl
            | Success _ r =>
                tbl' = tbl ++ [r] /\
                Val n = Val (p_name (c_product r)) /\
                ~ In (p_name (c_product r)) (map (fun x => p_name (c_product x)) tbl) /\
                ~ In (p_id (c_product r)) (map (fun x => p_id (c_product x)) tbl) /\
                p_source (c_product r) =
                  Some match b_source b with
                       | Val s => if (s =? "")%string then "manual" else s
                       | Null => "manual"
                       | Undefined => "manual"
                       end /\
                p_parent (c_product r) = None /\
                (exists v, get_product None profiles (p_id (c_product r)) tbl' =
                             Success 200 v /\ v_row v = r) /\
                (forall i, i <> p_id (c_product r) ->
                   get_product None profiles i tbl' = get_product None profiles i tbl)
            end).
  { intros resp0.
    destruct (row_rejects (created_row tnow (next_id tbl) n b));
      intros H; injection H as <- <-; [reflexivity|].
    assert (Hfresh : filter (has_id (next_id tbl)) tbl = []).
    { apply filter_none. intros a Ha. unfold has_id. apply Nat.eqb_neq.
      apply next_id_above in Ha. lia. }
    split; [reflexivity|]. split; [reflexivity|].
    split; [apply existsb_false_map, Hdup|].
    split.
    { simpl. intros Hin. apply in_map_iff in Hin. destruct Hin as (x & Hx & Hin).
      apply next_id_above in Hin. lia. }
    split; [reflexivity|]. split; [reflexivity|]. split.
    - change (p_id (c_product (created_row tnow (next_id tbl) n b)))
        with (next_id tbl).
      unfold get_product. rewrite filter_app, Hfresh. cbn [filter app].
      replace (has_id (next_id tbl) (created_row tnow (next_id tbl) n b)) with true
        by (symmetry; apply Nat.eqb_refl).
      cbn [flat_map]. rewrite app_nil_r.
      destruct (joined_profiles_head profiles (created_row tnow (next_id tbl) n b))
        as (v & rest & -> & Hv).
      exists v. auto.
    - intros i Hi. unfold get_product. rewrite filter_app. cbn [filter].
      replace (has_id i (created_row tnow (next_id tbl) n b)) with false.
      + now rewrite app_nil_r.
      + symmetry. apply Nat.eqb_neq. intros E. apply Hi. symmetry. exact E. }
  destruct (to_sql (b_cost_profile_id b)) as [i|].
  - destruct (existsb (fun cp => i =? cp_id cp) profiles);
      [apply Hcont | intros H; injection H as <- <-; reflexivity].
  - apply Hcont.
Qed.

Lemma post_product_outcome_witness :
  exists v,
    get_product None [] 2 ([mkRow widget_stored None] ++
                            [created_row 7 (next_id [mkRow widget_stored None])
                               "Gadget" gadget_body]) = Success 200 v /\
    v_row v = created_row 7 (next_id [mkRow widget_stored None]) "Gadget" gadget_body.
Proof.
  pose proof (post_product_outcome accept_row [] 7 gadget_body
                [mkRow widget_stored None]
                (Success 201 (created_row 7 (next_id [mkRow widget_stored None])
                                "Gadget" gadget_body))
                ([mkRow widget_stored None] ++
                 [created_row 7 (next_id [mkRow widget_stored None])
                    "Gadget" gadget_body])
                eq_refl) as H.
  simpl in H. exact (proj1 (proj2 (proj2 (proj2 (proj2 (proj2 (proj2 H))))))).
Defined.

(** *** The product listing *)

Lemma joined_profiles_rows profiles r v :
  In v (joined_profiles profiles r) -> v_row v = r.
Proof.
  intros H. destruct (joined_profiles_In _ _ _ H) as (cp & -> & _). reflexivity.
Qed.

Lemma filter_unique_id i profiles :
  NoDup (map cp_id profiles) ->
  List.length (filter (fun cp => i =? cp_id cp) profiles) <= 1.
Proof.
  induction profiles as [|c rest IH]; simpl; [lia|].
  intros Hnd. apply NoDup_cons_iff in Hnd. destruct Hnd as [Hout Hnd].
  destruct (i =? cp_id c) eqn:E; [|apply IH, Hnd].
  apply Nat.eqb_eq in E. subst i.
  rewrite filter_none; [simpl; lia|].
  intros a Ha. apply Nat.eqb_neq. intros Heq. apply Hout. rewrite Heq.
  apply in_map, Ha.
Qed.

Lemma joined_profiles_one profiles r :
  NoDup (map cp_id profiles) -> List.length (joined_profiles profiles r) = 1.
Proof.
  intros Hnd. unfold joined_profiles.
  destruct (c_cost_profile_id r) as [i|].
  - pose proof (filter_unique_id i profiles Hnd) as Hle.
    destruct (filter (fun cp => i =? cp_id cp) profiles) as [|c [|c' rest]];
      simpl in *; try reflexivity. lia.
  - rewrite filter_none; [reflexivity | reflexivity].
Qed.

(** X23: [GET /] shows the stored products and nothing else: each view
    is of a stored product and each stored product has a view; what
    [GET /:id] returns for an id is one of these views; and when no two
    cost profiles share an id there is exactly one view per product. *)
Theorem listing_has_every_product :
  forall query_error order_views profiles tbl st views,
    (forall l, Permutation (order_views l) l) ->
    get_products query_error order_views profiles tbl = Success st views ->
    (forall r, In r tbl <-> exists v, In v views /\ v_row v = r) /\
    (forall id st' v,
       get_product None profiles id tbl = Success st' v -> In v views) /\
    (NoDup (map cp_id profiles) -> List.length views = List.length tbl).
Proof.
  intros query_error order_views profiles tbl st views Hperm.
  unfold get_products. destruct query_error; [discriminate|].
  intros H. injection H as _ <-.
  pose proof (Hperm (flat_map (joined_profiles profiles) tbl)) as Hp.
  split; [|split].
  - intros r. split.
    + intros Hr. destruct (joined_profiles_head profiles r) as (v & rest & Hj & Hv).
      exists v. split; [|exact Hv].
      apply (Permutation_in _ (Permutation_sym Hp)), in_flat_map.
      exists r. split; [exact Hr|]. rewrite Hj. left. reflexivity.
    + intros (v & Hv & <-). apply (Permutation_in _ Hp), in_flat_map in Hv.
      destruct Hv as (r & Hr & Hin). now rewrite (joined_profiles_rows _ _ _ Hin).
  - intros id st' v Hget.
    destruct (get_product_found _ _ _ _ _ _ Hget) as (r & Hr & _ & Hv).
    apply (Permutation_in _ (Permutation_sym Hp)), in_flat_map.
    exists r. auto.
  - intros Hnd. rewrite (Permutation_length Hp).
    induction tbl as [|r rest IH]; [reflexivity|].
    cbn [flat_map]. rewrite length_app, joined_profiles_one by exact Hnd.
    simpl. f_equal. apply IH. apply Hperm.
Qed.

Lemma as_stored_permutes l : Permutation (as_stored l) l.
Proof. apply Permutation_refl. Qed.

Lemma listing_has_every_product_witness :
  List.length [view_of (mkRow widget_stored None) None] =
  List.length [mkRow widget_stored None].
Proof.
  apply (listing_has_every_product None as_stored [] [mkRow widget_stored None] 200
           [view_of (mkRow widget_stored None) None] as_stored_permutes eq_refl).
  constructor.
Defined.
Lemma sync_keeps_rows_shape sku_rejects pick t mpd products tbl resp tbl' :
  post_sync sku_rejects pick t mpd products tbl = (resp, tbl') ->
  exists kept inserted,
    tbl' = kept ++ inserted /\
    Forall2 (kept_by_sync (joined mpd products)) tbl kept.
Proof.
  intros Hrun.
  destruct (post_sync_shape _ _ _ _ _ _ _ _ Hrun)
    as (kept & inserted & Ht & Hkept & _).
  exists kept, inserted. auto.
Qed.

Lemma put_rows_related tnow id n b tbl :
  Forall2 (fun old new => if has_id id old then new = updated_row tnow old n b
                          else new = old)
    tbl (map (fun r => if has_id id r then updated_row tnow r n b else r) tbl).
Proof.
  induction tbl as [|r rest IH]; simpl; constructor; [|exact IH].
  destruct (has_id id r); reflexivity.
Qed.

(** X17: [PUT /:id] replaces, it does not merge.  When it succeeds the
    row of that id has the ten listed columns exactly as the body gives
    them, NULL for a column the body leaves out, and keeps its id, its
    [source], its [parent] and its default shipping columns; every
    other row is unchanged and none is added or removed.  When it fails
    (no row of that id, no name, a name another product has, a missing
    cost profile) the table is as before. *)
Theorem put_product_outcome :
  forall row_rejects profiles tnow id b tbl resp tbl',
    put_product row_rejects profiles tnow id b tbl = (resp, tbl') ->
    match resp with
    | Failure _ _ => tbl' = tbl
    | Success _ r =>
        exists n old,
          b_name b = Val n /\
          In old tbl /\ p_id (c_product old) = id /\
          In r tbl' /\
          Forall2 (fun x y => if has_id id x then y = updated_row tnow x n b
                              else y = x) tbl tbl' /\
          (forall x, In x tbl -> p_id (c_product x) <> id ->
                     p_name (c_product x) <> n) /\
          p_id (c_product r) = id /\
          p_name (c_product r) = n /\
          p_category (c_product r) = to_sql (b_category b) /\
          p_base_cost (c_product r) = to_sql (b_base_cost b) /\
          p_size (c_product r) = to_sql (b_size b) /\
          p_weight (c_product r) = to_sql (b_weight b) /\
          p_width (c_product r) = to_sql (b_width b) /\
          p_height (c_product r) = to_sql (b_height b) /\
          p_length (c_product r) = to_sql (b_length b) /\
          p_product_sku (c_product r) = to_sql (b_product_sku b) /\
          c_cost_profile_id r = to_sql (b_cost_profile_id b) /\
          p_source (c_product r) = p_source (c_product old) /\
          p_parent (c_product r) = p_parent (c_product old) /\
          p_updated_at (c_product r) = tnow
    end.
Proof.
  intros row_rejects profiles tnow id b tbl resp tbl'. unfold put_product.
  destruct (filter (has_id id) tbl) as [|old rest] eqn:Hfound;
    [intros H; injection H as <- <-; reflexivity|].
  assert (Hold : In old tbl /\ has_id id old = true).
  { apply filter_In. rewrite Hfound. left. reflexivity. }
  destruct Hold as [Hold Hid].
  destruct (b_name b) as [| |n] eqn:Hname; simpl;
    try (intros H; injection H as <- <-; reflexivity).
  destruct (write_error profiles n (to_sql (b_cost_profile_id b))
              (filter (fun r => negb (has_id id r)) tbl)) eqn:Herr;
    [intros H; injection H as <- <-; reflexivity|].
  destruct (row_rejects (updated_row tnow old n b));
    intros H; injection H as <- <-; [reflexivity|].
  exists n, old. split; [reflexivity|]. split; [exact Hold|].
  unfold has_id in Hid. apply Nat.eqb_eq in Hid.
  split; [exact Hid|]. split.
  { apply in_map_iff. exists old. split; [|exact Hold].
    unfold has_id. now rewrite Hid, Nat.eqb_refl. }
  split; [apply put_rows_related|]. split.
  { intros x Hx Hne Hn. unfold write_error in Herr.
    destruct (existsb (has_name n) (filter (fun r => negb (has_id id r)) tbl)) eqn:E;
      [discriminate|].
    assert (existsb (has_name n) (filter (fun r => negb (has_id id r)) tbl) = true);
      [|congruence].
    apply existsb_exists. exists x. split.
    - apply filter_In. split; [exact Hx|]. unfold has_id.
      apply negb_true_iff, Nat.eqb_neq. exact Hne.
    - unfold has_name. rewrite Hn. apply String.eqb_refl. }
  simpl. repeat split. exact Hid.
Qed.

Lemma put_product_outcome_witness :
  exists n old,
    b_name gadget_body = Val n /\
    In old [mkRow widget_stored None] /\
    p_size (c_product (updated_row 9 (mkRow widget_stored None) "Gadget" gadget_body))
      = to_sql (b_size gadget_body) /\
    p_source (c_product (updated_row 9 (mkRow widget_stored None) "Gadget" gadget_body))
      = p_source (c_product old).
Proof.
  destruct (put_product_outcome accept_row [] 9 1 gadget_body
              [mkRow widget_stored None]
              (Success 200 (updated_row 9 (mkRow widget_stored None) "Gadget" gadget_body))
              [updated_row 9 (mkRow widget_stored None) "Gadget" gadget_body]
              eq_refl)
    as (n & old & Hn & Hold & _ & _ & _ & _ & _ & _ & _ & _ & Hsize & _ & _ & _ & _
        & _ & _ & Hsrc & _).
  exists n, old. auto.
Defined.

Lemma filter_has_id_other i id (tbl : catalog) :
  i <> id ->
  filter (has_id i) (filter (fun r => negb (has_id id r)) tbl) =
  filter (has_id i) tbl.
Proof.
  intros Hne. induction tbl as [|r rest IH]; simpl; [reflexivity|].
  destruct (has_id id r) eqn:E1; simpl.
  - destruct (has_id i r) eqn:E2; [|exact IH].
    unfold has_id in E1, E2. apply Nat.eqb_eq in E1, E2. congruence.
  - destruct (has_id i r); now rewrite IH.
Qed.

(** X18: [DELETE /:id] removes the rows of that id and nothing else.
    When it succeeds [GET /:id] answers 404 for that id and as before
    for every other id, the mappings of the product are gone and the
    other mappings are kept, and a second [DELETE] of the id answers
    404; when it fails nothing has changed. *)
Theorem delete_product_outcome :
  forall query_error profiles id tbl mpd resp tbl' mpd',
    delete_product query_error id tbl mpd = (resp, tbl', mpd') ->
    match resp with
    | Failure _ _ => tbl' = tbl /\ mpd' = mpd
    | Success _ _ =>
        incl tbl' tbl /\
        (forall r, In r tbl -> p_id (c_product r) <> id -> In r tbl') /\
        get_product None profiles id tbl' = Failure 404 "Product not found" /\
        (forall i, i <> id ->
           get_product None profiles i tbl' = get_product None profiles i tbl) /\
        (forall m, In m mpd' <-> In m mpd /\ m_product_id m <> Some id) /\
        delete_product None id tbl' mpd' =
          (Failure 404 "Product not found", tbl', mpd')
    end.
Proof.
  intros query_error profiles id tbl mpd resp tbl' mpd'. unfold delete_product.
  destruct query_error; [intros H; injection H as <- <- <-; auto|].
  destruct (filter (has_id id) tbl) as [|x rest] eqn:Hfound;
    intros H; injection H as <- <- <-; [auto|].
  assert (Hgone : filter (has_id id) (filter (fun r => negb (has_id id r)) tbl) = []).
  { apply filter_none. intros a Ha. apply filter_In in Ha.
    destruct Ha as [_ Ha]. apply negb_true_iff in Ha. exact Ha. }
  split; [intros r Hr; apply filter_In in Hr; tauto|]. split.
  { intros r Hr Hne. apply filter_In. split; [exact Hr|].
    unfold has_id. apply negb_true_iff, Nat.eqb_neq. exact Hne. }
  split; [unfold get_product; rewrite Hgone; reflexivity|]. split.
  { intros i Hi. unfold get_product.
    rewrite (filter_has_id_other i id tbl Hi). reflexivity. }
  split.
  { intros m. rewrite filter_In. split; intros [Hm Hp]; (split; [exact Hm|]).
    - destruct (m_product_id m) as [i|]; [|discriminate].
      apply negb_true_iff, Nat.eqb_neq in Hp. congruence.
    - destruct (m_product_id m) as [i|]; [|reflexivity].
      apply negb_true_iff, Nat.eqb_neq. congruence. }
  now rewrite Hgone.
Qed.

Lemma delete_product_outcome_witness :
  get_product None [] 1 [] = Failure 404 "Product not found" /\
  delete_product None 1 [] [] = (Failure 404 "Product not found", [], []).
Proof.
  pose proof (delete_product_outcome None [] 1 [mkRow widget_stored None]
                [listing 1 "X"] (Success 200 "Product deleted") [] [] eq_refl) as H.
  simpl in H. split; [exact (proj1 (proj2 (proj2 H)))|].
  exact (proj2 (proj2 (proj2 (proj2 (proj2 H))))).
Defined.

(** *** A deleted product and the synchronizer *)

Lemma delete_product_removed query_error id tbl mpd st msg tbl' mpd' :
  delete_product query_error id tbl mpd = (Success st msg, tbl', mpd') ->
  incl tbl' tbl /\
  (forall m, In m mpd' -> In m mpd /\ m_product_id m <> Some id).
Proof.
  unfold delete_product. destruct query_error; [discriminate|].
  destruct (filter (has_id id) tbl); [discriminate|].
  intros H. injection H as _ _ <- <-. split.
  - intros r Hr. apply filter_In in Hr. tauto.
  - intros m Hm. apply filter_In in Hm. destruct Hm as [Hm Hp].
    split; [exact Hm|]. destruct (m_product_id m) as [i|]; [|discriminate].
    apply negb_true_iff, Nat.eqb_neq in Hp. congruence.
Qed.

Lemma joined_In m p mpd products :
  In (m, p) (joined mpd products) <->
  In m mpd /\ In p products /\ m_product_id m = Some (p_id p).
Proof.
  unfold joined. rewrite in_flat_map. split.
  - intros (m0 & Hm0 & Hin). apply in_map_iff in Hin.
    destruct Hin as (p0 & Heq & Hp0). injection Heq as -> ->.
    apply filter_In in Hp0. destruct Hp0 as [Hp Hid].
    destruct (m_product_id m) as [i|]; [|discriminate].
    apply Nat.eqb_eq in Hid. subst. auto.
  - intros (Hm & Hp & Hid). exists m. split; [exact Hm|].
    apply in_map. apply filter_In. split; [exact Hp|].
    rewrite Hid. apply Nat.eqb_refl.
Qed.

Lemma Forall2_In_left {A B : Type} (R : A -> B -> Prop) (l : list A) (l' : list B) a :
  Forall2 R l l' -> In a l -> exists b, In b l' /\ R a b.
Proof.
  induction 1 as [|x y l l' Hxy _ IH]; simpl; [tauto|].
  intros [<- | Ha].
  - exists y. auto.
  - destruct (IH Ha) as (b & Hb & Hab). exists b. auto.
Qed.

(** X19: the synchronizer does not clear what a deleted product left
    in [sku_master]: after a successful [DELETE /:id], a row that only
    pairs of the deleted product matched is found in the table after
    the next run exactly as it was, whatever the outcome of that run. *)
Theorem deleted_product_rows_stay :
  forall query_error sku_rejects pick tnow id tbl mpd st msg tbl' mpd'
         skus resp skus' sm,
    delete_product query_error id tbl mpd = (Success st msg, tbl', mpd') ->
    post_sync sku_rejects pick tnow mpd' (map c_product tbl') skus = (resp, skus') ->
    In sm skus ->
    (forall j, In j (joined mpd (map c_product tbl)) ->
               update_matches sm j = true -> p_id (snd j) = id) ->
    In sm skus'.
Proof.
  intros query_error sku_rejects pick tnow id tbl mpd st msg tbl' mpd'
    skus resp skus' sm Hdel Hsync Hsm Honly.
  destruct (delete_product_removed _ _ _ _ _ _ _ _ Hdel) as (Hincl & Hmpd).
  assert (Hnone : filter (update_matches sm) (joined mpd' (map c_product tbl')) = []).
  { apply filter_none. intros [m p] Hj.
    destruct (update_matches sm (m, p)) eqn:E; [exfalso|reflexivity].
    apply joined_In in Hj. destruct Hj as (Hm & Hp & Hid).
    apply Hmpd in Hm. destruct Hm as [Hm Hne].
    apply in_map_iff in Hp. destruct Hp as (r & <- & Hr).
    assert (Hold : In (m, c_product r) (joined mpd (map c_product tbl))).
    { apply joined_In. split; [exact Hm|]. split; [|exact Hid].
      apply in_map, Hincl, Hr. }
    specialize (Honly _ Hold E). simpl in Honly. congruence. }
  destruct (sync_keeps_rows_shape _ _ _ _ _ _ _ _ Hsync)
    as (kept & inserted & -> & Hkept).
  destruct (Forall2_In_left _ _ _ _ Hkept Hsm) as (sm' & Hsm' & Hrel).
  destruct Hrel as (_ & _ & _ & _ & _ & _ & Hsame).
  rewrite (Hsame Hnone) in Hsm'. apply in_or_app. left. exact Hsm'.
Qed.

Lemma view_tells_cost_source_witness :
  v_cost_source (view_of (mkRow widget_stored None) None) = Some "product" /\
  v_effective_base_cost (view_of (mkRow widget_stored None) None) = Some 3%Z.
Proof.
  destruct (view_tells_cost_source None [] 1 [mkRow widget_stored None] 200
              (view_of (mkRow widget_stored None) None) eq_refl)
    as (_ & _ & _ & _ & Hproduct & _).
  split; [reflexivity | exact (Hproduct eq_refl)].
Defined.

Lemma deleted_product_rows_stay_witness :
  In (selected 1 "X" (listing 1 "X", alpha))
    (snd (post_sync accept_skus pick_first 2 [] [] [selected 1 "X" (listing 1 "X", alpha)])).
Proof.
  apply (deleted_product_rows_stay None accept_skus pick_first 2 1
           [mkRow alpha None] [listing 1 "X"] 200 "Product deleted" [] []
           [selected 1 "X" (listing 1 "X", alpha)]
           (fst (post_sync accept_skus pick_first 2 [] []
                   [selected 1 "X" (listing 1 "X", alpha)]))).
  - reflexivity.
  - reflexivity.
  - left. reflexivity.
  - intros j [<- | []] _. reflexivity.
Defined.

(** ** Catalog summaries *)

Lemma nodup_without (x : string) (l : list string) :
  List.length (nodup string_dec l) =
  List.length (nodup string_dec (filter (fun c => negb (c =? x)%string) l)) +
  (if in_dec string_dec x l then 1 else 0).
Proof.
  induction l as [|a rest IH]; [reflexivity|].
  cbn [filter]. destruct (a =? x)%string eqn:E; cbn [negb].
  - apply String.eqb_eq in E. subst a. cbn [nodup].
    destruct (in_dec string_dec x (x :: rest)) as [_ | Hout];
      [|exfalso; apply Hout; left; reflexivity].
    destruct (in_dec string_dec x rest) as [Hin | Hnot]; simpl in *; lia.
  - apply String.eqb_neq in E. cbn [nodup].
    assert (Hiff : In a (filter (fun c => negb (c =? x)%string) rest) <-> In a rest).
    { rewrite filter_In. split; [tauto|]. intros H. split; [exact H|].
      apply negb_true_iff, String.eqb_neq. exact E. }
    assert (Hx : (if in_dec string_dec x (a :: rest) then 1 else 0) =
                 (if in_dec string_dec x rest then 1 else 0)).
    { destruct (in_dec string_dec x (a :: rest)) as [[H | H] | H];
        destruct (in_dec string_dec x rest) as [H' | H']; try reflexivity;
        try congruence; try tauto. exfalso. apply H. right. exact H'. }
    rewrite Hx.
    destruct (in_dec string_dec a rest) as [Hin | Hnot];
      destruct (in_dec string_dec a (filter (fun c => negb (c =? x)%string) rest))
        as [Hin' | Hnot']; simpl; try lia; tauto.
Qed.

Lemma stored_categories_In tbl c :
  In c (stored_categories tbl) <-> exists r, In r tbl /\ p_category r = Some c.
Proof.
  unfold stored_categories. rewrite in_flat_map. split.
  - intros (r & Hr & Hc). exists r. split; [exact Hr|].
    destruct (p_category r); simpl in Hc; [|tauto]. destruct Hc as [-> | []].
    reflexivity.
  - intros (r & Hr & Hc). exists r. split; [exact Hr|]. rewrite Hc. left.
    reflexivity.
Qed.

Lemma stored_categories_length tbl :
  List.length (stored_categories tbl) <= List.length tbl.
Proof.
  induction tbl as [|r rest IH]; simpl; [lia|].
  unfold stored_categories in *. rewrite length_app.
  destruct (p_category r); simpl; lia.
Qed.

Lemma get_categories_In order_text tbl st cats :
  (forall l, Permutation (order_text l) l) ->
  get_categories None order_text tbl = Success st cats ->
  forall c, In c cats <->
            c <> "" /\ exists r, In r tbl /\ p_category r = Some c.
Proof.
  intros Hperm Hget c. unfold get_categories in Hget. injection Hget as _ <-.
  pose proof (Hperm (nodup string_dec
                       (filter (fun c => negb (c =? "")%string)
                          (stored_categories tbl)))) as Hp.
  split.
  - intros H. apply (Permutation_in _ Hp), nodup_In in H.
    apply filter_In in H. destruct H as [Hin Hne].
    apply negb_true_iff, String.eqb_neq in Hne.
    split; [exact Hne | apply stored_categories_In, Hin].
  - intros [Hne H]. apply (Permutation_in _ (Permutation_sym Hp)), nodup_In.
    apply filter_In. split; [apply stored_categories_In, H|].
    apply negb_true_iff, String.eqb_neq. exact Hne.
Qed.

(** X20: [GET /categories] lists each non-empty category of a stored
    product once and nothing else; [GET /stats/summary] counts the
    distinct categories including the empty one, so its
    [categories_count] is the length of that list plus one when some
    product has the empty category, and never exceeds
    [total_products], the number of stored products. *)
Theorem categories_and_summary_agree :
  forall order_text tbl st cats,
    (forall l, Permutation (order_text l) l) ->
    get_categories None order_text tbl = Success st cats ->
    NoDup cats /\
    (forall c, In c cats <->
               c <> "" /\ exists r, In r tbl /\ p_category r = Some c) /\
    exists summary,
      get_stats None tbl = Success 200 summary /\
      total_products summary = List.length tbl /\
      categories_count summary =
        List.length cats +
        (if existsb (fun r => match p_category r with
                              | Some c => (c =? "")%string
                              | None => false
                              end) tbl then 1 else 0) /\
      categories_count summary <= total_products summary.
Proof.
  intros order_text tbl st cats Hperm Hget.
  pose proof (get_categories_In _ _ _ _ Hperm Hget) as Hlisted.
  unfold get_categories in Hget. injection Hget as _ <-.
  set (kept := filter (fun c => negb (c =? "")%string) (stored_categories tbl)).
  pose proof (Hperm (nodup string_dec kept)) as Hp.
  split; [|split].
  - apply (Permutation_NoDup (Permutation_sym Hp)), NoDup_nodup.
  - exact Hlisted.
  - eexists. split; [reflexivity|]. simpl. split; [reflexivity|]. split.
    + rewrite (Permutation_length Hp), (nodup_without "" (stored_categories tbl)).
      fold kept. f_equal.
      destruct (in_dec string_dec "" (stored_categories tbl)) as [Hin | Hout].
      * apply stored_categories_In in Hin. destruct Hin as (r & Hr & Hc).
        replace (existsb _ tbl) with true; [reflexivity|]. symmetry.
        apply existsb_exists. exists r. split; [exact Hr|]. now rewrite Hc.
      * destruct (existsb _ tbl) eqn:E; [|reflexivity]. exfalso. apply Hout.
        apply existsb_exists in E. destruct E as (r & Hr & Hc).
        apply stored_categories_In. exists r. split; [exact Hr|].
        destruct (p_category r) as [c|]; [|discriminate].
        apply String.eqb_eq in Hc. now subst.
    + etransitivity; [|apply stored_categories_length].
      apply NoDup_incl_length; [apply NoDup_nodup|].
      intros c Hc. apply nodup_In in Hc. exact Hc.
Qed.

Lemma as_produced_permutes l : Permutation (as_produced l) l.
Proof. apply Permutation_refl. Qed.

Lemma categories_and_summary_agree_witness :
  NoDup ["Toys"] /\
  exists summary,
    get_stats None [widget_stored] = Success 200 summary /\
    categories_count summary = 1.
Proof.
  destruct (categories_and_summary_agree as_produced [widget_stored] 200 ["Toys"]
              as_produced_permutes eq_refl)
    as (Hnd & _ & summary & Hget & _ & Hcount & _).
  split; [exact Hnd|]. exists summary. split; [exact Hget | exact Hcount].
Defined.

(** X21: after a successful bulk import, every non-empty category
    carried by a surviving record is among the categories
    [GET /categories] lists. *)
Theorem imported_category_is_listed :
  forall store_rejects order_text tnow products tbl st c tbl' I cat st' cats,
    (forall l, Permutation (order_text l) l) ->
    post_bulk store_rejects tnow (Some products) tbl = (Success st c, tbl') ->
    In I (dedup products) ->
    in_category I = Val cat -> cat <> "" ->
    get_categories None order_text tbl' = Success st' cats ->
    In cat cats.
Proof.
  intros store_rejects order_text tnow products tbl st c tbl' I cat st' cats
    Hperm Hrun HI Hcat Hne Hget.
  apply (get_categories_In _ _ _ _ Hperm Hget). split; [exact Hne|].
  apply post_bulk_success in Hrun. cbv zeta in Hrun. destruct Hrun as (-> & _).
  assert (Hkey : key_of I <> "").
  { pose proof (dedup_keys_nonempty products) as H.
    rewrite Forall_forall in H. apply H, HI. }
  destruct (apply_rows_in tnow (map proposed_of (dedup products))
              (map name_of (dedup products)) tbl (proposed_of I) (name_of I)
              (dedup_names products) (dedup_names_NoDup products)
              (in_map proposed_of _ _ HI) (keyed_record_name I Hkey))
    as [id Hid].
  eexists. split.
  - unfold find_by_name in Hid. apply find_some in Hid. exact (proj1 Hid).
  - unfold upserted. destruct (find_by_name (name_of I) tbl); simpl;
      now rewrite Hcat.
Qed.

Lemma imported_category_is_listed_witness :
  In "Kitchen" ["Toys"; "Kitchen"].
Proof.
  apply (imported_category_is_listed accept_all as_produced 7 [kettle]
           [widget_stored] 201 (mkCounts 1 0)
           (snd (post_bulk accept_all 7 (Some [kettle]) [widget_stored]))
           kettle "Kitchen" 200 ["Toys"; "Kitchen"]).
  - apply as_produced_permutes.
  - reflexivity.
  - left. reflexivity.
  - reflexivity.
  - discriminate.
  - reflexivity.
Defined.

(** ** Category expenses *)

Lemma expense_at_true c p m r :
  expense_at (Some c) (Some p) (Some m) r = true <->
  e_category r = c /\ e_platform r = p /\ e_marketplace_code r = m.
Proof.
  simpl. rewrite !andb_true_iff, !String.eqb_eq. tauto.
Qed.

Lemma expense_replace_other c p m c' p' m' row tbl :
  e_category row = c -> e_platform row = p -> e_marketplace_code row = m ->
  (c', p', m') <> (c, p, m) ->
  filter (expense_at (Some c') (Some p') (Some m'))
    (map (fun r => if expense_at (Some c) (Some p) (Some m) r then row else r) tbl) =
  filter (expense_at (Some c') (Some p') (Some m')) tbl.
Proof.
  intros Hc Hp Hm Hne.
  assert (Hrow : expense_at (Some c') (Some p') (Some m') row = false).
  { destruct (expense_at (Some c') (Some p') (Some m') row) eqn:E; [|reflexivity].
    apply expense_at_true in E. exfalso. apply Hne.
    destruct E as (E1 & E2 & E3). congruence. }
  induction tbl as [|r rest IH]; [reflexivity|]. cbn [map filter].
  destruct (expense_at (Some c) (Some p) (Some m) r) eqn:E.
  - rewrite Hrow.
    destruct (expense_at (Some c') (Some p') (Some m') r) eqn:E'; [|exact IH].
    apply expense_at_true in E, E'. exfalso. apply Hne.
    destruct E as (E1 & E2 & E3), E' as (E1' & E2' & E3'). congruence.
  - destruct (expense_at (Some c') (Some p') (Some m') r); now rewrite IH.
Qed.

Lemma expense_replace_same c p m row tbl :
  e_category row = c -> e_platform row = p -> e_marketplace_code row = m ->
  filter (expense_at (Some c) (Some p) (Some m))
    (map (fun r => if expense_at (Some c) (Some p) (Some m) r then row else r) tbl) =
  map (fun _ => row) (filter (expense_at (Some c) (Some p) (Some m)) tbl).
Proof.
  intros Hc Hp Hm.
  assert (Hrow : expense_at (Some c) (Some p) (Some m) row = true)
    by (apply expense_at_true; auto).
  induction tbl as [|r rest IH]; [reflexivity|]. cbn [map filter].
  destruct (expense_at (Some c) (Some p) (Some m) r) eqn:E.
  - rewrite Hrow. cbn [map]. now rewrite IH.
  - rewrite E. exact IH.
Qed.

(** X22: [POST /category-expenses] writes one key and no other.  When
    it succeeds the returned row has the key of the body, every number
    as sent (NULL for one the body leaves out), [period_start] and
    [period_end] as the dates the store reads from the texts sent, and
    [data_source] defaulting to 'manual';
    [GET /category-expenses/find] with its key returns it, a search for
    any other key answers as before, and a table with at most one row
    per key still has at most one row per key.  When it fails the table
    is as before. *)
Theorem expense_upsert_then_find :
  forall date_in expense_rejects tnow expense tbl resp tbl',
    post_expense date_in expense_rejects tnow expense tbl = (resp, tbl') ->
    match resp with
    | Failure _ _ => tbl' = tbl
    | Success _ row =>
        eb_category expense = Val (e_category row) /\
        eb_platform expense = Val (e_platform row) /\
        eb_marketplace_code expense = Val (e_marketplace_code row) /\
        values_of date_in expense = Some (e_values row) /\
        ev_period_start (e_values row) =
          match eb_period_start expense with
          | Val s => date_in s
          | _ => None
          end /\
        ev_period_end (e_values row) =
          match eb_period_end expense with
          | Val s => date_in s
          | _ => None
          end /\
        find_expense None (eb_category expense) (eb_platform expense)
          (eb_marketplace_code expense) tbl' = Success 200 (Some row) /\
        (forall c p m,
           (c, p, m) <> (e_category row, e_platform row, e_marketplace_code row) ->
           find_expense None (Val c) (Val p) (Val m) tbl' =
           find_expense None (Val c) (Val p) (Val m) tbl) /\
        ((forall c p m,
            List.length (filter (expense_at (Some c) (Some p) (Some m)) tbl) <= 1) ->
         forall c p m,
           List.length (filter (expense_at (Some c) (Some p) (Some m)) tbl') <= 1)
    end.
Proof.
  intros date_in expense_rejects tnow expense tbl resp tbl'. unfold post_expense.
  destruct (values_of date_in expense) as [values|] eqn:Hvalues;
    [|intros H; injection H as <- <-; reflexivity].
  assert (Hdates :
            ev_period_start values =
              match eb_period_start expense with
              | Val s => date_in s
              | _ => None
              end /\
            ev_period_end values =
              match eb_period_end expense with
              | Val s => date_in s
              | _ => None
              end).
  { unfold values_of, date_parameter in Hvalues.
    destruct (eb_period_start expense) as [| |s1];
      destruct (eb_period_end expense) as [| |s2]; cbn [option_map] in Hvalues;
      try destruct (date_in s1); try destruct (date_in s2);
      cbn [option_map] in Hvalues; try discriminate;
      injection Hvalues as <-; split; reflexivity. }
  destruct Hdates as [Hstart Hend].
  destruct (eb_category expense) as [| |c] eqn:Hc; cbn [to_sql];
    try (intros H; injection H as <- <-; reflexivity).
  destruct (eb_platform expense) as [| |p] eqn:Hp; cbn [to_sql];
    try (intros H; injection H as <- <-; reflexivity).
  destruct (eb_marketplace_code expense) as [| |m] eqn:Hm; cbn [to_sql];
    try (intros H; injection H as <- <-; reflexivity).
  set (row := {| e_category := c; e_platform := p; e_marketplace_code := m;
                 e_values := values; e_updated_at := tnow |}).
  destruct (expense_rejects row); [intros H; injection H as <- <-; reflexivity|].
  destruct (existsb (expense_at (Some c) (Some p) (Some m)) tbl) eqn:Hex;
    intros H; injection H as <- <-;
    change (e_category row) with c; change (e_platform row) with p;
    change (e_marketplace_code row) with m; change (e_values row) with values;
    (split; [reflexivity|]); (split; [reflexivity|]); (split; [reflexivity|]);
    (split; [reflexivity|]); (split; [exact Hstart|]); (split; [exact Hend|]);
    unfold find_expense; cbn [to_sql];
    try change (map _ tbl)
      with (map (fun r => if expense_at (Some c) (Some p) (Some m) r then row else r)
              tbl).
  - split; [|split].
    + rewrite (expense_replace_same c p m row tbl) by reflexivity.
      apply existsb_exists in Hex. destruct Hex as (r & Hr & Hat).
      destruct (filter (expense_at (Some c) (Some p) (Some m)) tbl) as [|r0 rest] eqn:E;
        [|reflexivity].
      exfalso. assert (Hin : In r (filter (expense_at (Some c) (Some p) (Some m)) tbl))
        by (apply filter_In; auto). rewrite E in Hin. destruct Hin.
    + intros c' p' m' Hne.
      now rewrite (expense_replace_other c p m c' p' m' row tbl).
    + intros Huniq c' p' m'.
      destruct (string_dec c' c) as [-> | Hc'];
        [destruct (string_dec p' p) as [-> | Hp'];
         [destruct (string_dec m' m) as [-> | Hm']|]|].
      * rewrite (expense_replace_same c p m row tbl) by reflexivity.
        rewrite length_map. apply Huniq.
      * rewrite (expense_replace_other c p m c p m' row tbl) by (reflexivity || congruence).
        apply Huniq.
      * rewrite (expense_replace_other c p m c p' m' row tbl) by (reflexivity || congruence).
        apply Huniq.
      * rewrite (expense_replace_other c p m c' p' m' row tbl) by (reflexivity || congruence).
        apply Huniq.
  - assert (Hnone : filter (expense_at (Some c) (Some p) (Some m)) tbl = []).
    { apply filter_none. intros a Ha.
      destruct (expense_at (Some c) (Some p) (Some m) a) eqn:E; [|reflexivity].
      assert (existsb (expense_at (Some c) (Some p) (Some m)) tbl = true);
        [|congruence]. apply existsb_exists. exists a. auto. }
    split; [|split].
    + rewrite filter_app, Hnone. simpl. now rewrite !String.eqb_refl.
    + intros c' p' m' Hne.
      rewrite filter_app. cbn [filter].
      destruct (expense_at (Some c') (Some p') (Some m') row) eqn:E.
      * apply expense_at_true in E. exfalso. apply Hne.
        destruct E as (E1 & E2 & E3). simpl in *. congruence.
      * now rewrite app_nil_r.
    + intros Huniq c' p' m'. rewrite filter_app, length_app. cbn [filter].
      destruct (expense_at (Some c') (Some p') (Some m') row) eqn:E.
      * apply expense_at_true in E. destruct E as (E1 & E2 & E3). simpl in *.
        subst. rewrite Hnone. simpl. lia.
      * specialize (Huniq c' p' m'). simpl. lia.
Qed.

(** The expense of "Toys" with a period of January 2024, posted to an
    empty table: the row found holds the two dates, not the texts. *)
Lemma expense_upsert_then_find_witness :
  let tbl' := snd (post_expense january_2024 accept_expense 3 toys_expense []) in
  exists row,
    find_expense None (Val "Toys") (Val "amazon") (Val "US") tbl' =
      Success 200 (Some row) /\
    ev_period_start (e_values row) = Some 8766%Z /\
    ev_period_end (e_values row) = Some 8796%Z /\
    ev_vat_percent (e_values row) = Some 20%Z /\
    ev_data_source (e_values row) = Some "manual".
Proof.
  cbv zeta.
  pose proof (expense_upsert_then_find january_2024 accept_expense 3 toys_expense []
                (fst (post_expense january_2024 accept_expense 3 toys_expense []))
                (snd (post_expense january_2024 accept_expense 3 toys_expense []))
                eq_refl) as H.
  vm_compute (fst _) in H.
  destruct H as (_ & _ & _ & Hvalues & Hstart & Hend & Hfind & _).
  eexists. split; [exact Hfind|]. split; [exact Hstart|]. split; [exact Hend|].
  split; reflexivity.
Defined.
